(** * scrapeshot: the batch web-capture tool of [ui_app/app.py]

    A shallow embedding of the capture engine (settling strategy, capture
    task, batch processor), of the artifact store (flush, archive creation)
    and of the two input handlers, followed by the properties of the
    specification that were checked against it.

    Conventions.
    - A Python [str] is a Rocq [string] holding its UTF-8 encoding.  Every
      character the program tests for (scheme, separators, the forbidden
      filename characters) is ASCII, and an ASCII byte never occurs inside a
      multi-byte UTF-8 sequence, so [split], [startswith], [re.sub] on an
      ASCII class and concatenation act on the encoding exactly as they act
      on the code points.  Line boundaries and white space that are not ASCII
      are matched through their encodings.
    - Calls into Playwright, the clock and the random generator are answered
      by a [Browser] oracle over an abstract world; each call may raise.
    - The file system is a finite map from directory paths to directories;
      the start of the script runs on a working directory whose paths may
      name plain files as well. *)

From Stdlib Require Import ZArith Ascii String List Decimal DecimalString DecimalNat QArith Lia Permutation.
From stdpp Require Import gmap strings list.

(* ===================================================================== *)
(** * Python strings *)
(* ===================================================================== *)

Module PyStr.

(** The one-character string with the given byte. *)
Definition chr (n : nat) : string := String (ascii_of_nat n) "".

(** [s.startswith(p)] *)
Definition startswith (s p : string) : bool := String.prefix p s.

(** [s.startswith((p1, p2, ...))]: true when one of the prefixes fits. *)
Definition startswith_any (s : string) (ps : list string) : bool :=
  existsb (startswith s) ps.

(** Length of the first pattern of [pats] that is a prefix of [s], 0 when
    none is. *)
Fixpoint match_len (pats : list string) (s : string) : nat :=
  match pats with
  | [] => 0
  | p :: ps => if String.prefix p s then String.length p else match_len ps s
  end.

(** [s.split(sep)] for a non-empty separator: a left-to-right scan for
    non-overlapping occurrences.  [skip] counts the bytes of a separator
    that has been recognised and is still to be passed over. *)
Fixpoint split_aux (sep : string) (skip : nat) (s : string) : list string :=
  match s with
  | EmptyString => [""]
  | String c s' =>
      match skip with
      | S k => split_aux sep k s'
      | O =>
          if String.prefix sep s
          then "" :: split_aux sep (String.length sep - 1) s'
          else match split_aux sep 0 s' with
               | [] => [String c ""]
               | p :: ps => String c p :: ps
               end
      end
  end.

Definition split (s sep : string) : list string := split_aux sep 0 s.

(** The line boundaries of [str.splitlines]: CR LF, CR, LF, VT, FF, FS, GS,
    RS, NEL (U+0085), LS (U+2028), PS (U+2029).  CR LF comes first so that
    it counts as one boundary. *)
Definition line_boundaries : list string :=
  [ chr 13 +:+ chr 10; chr 13; chr 10; chr 11; chr 12; chr 28; chr 29; chr 30;
    chr 194 +:+ chr 133;
    chr 226 +:+ chr 128 +:+ chr 168;
    chr 226 +:+ chr 128 +:+ chr 169 ].

(** [s.splitlines()]: the lines of [s] without their boundaries; no empty
    last line after a final boundary, and no line at all for the empty
    string. *)
Fixpoint splitlines_aux (skip : nat) (s : string) : list string :=
  match s with
  | EmptyString => []
  | String c s' =>
      match skip with
      | S k => splitlines_aux k s'
      | O =>
          match match_len line_boundaries s with
          | S k => "" :: splitlines_aux k s'
          | O => match splitlines_aux 0 s' with
                 | [] => [String c ""]
                 | l :: ls => String c l :: ls
                 end
          end
      end
  end.

Definition splitlines (s : string) : list string := splitlines_aux 0 s.

(** White space in the sense of [str.isspace], by encoding: U+0009..000D,
    U+001C..0020, U+0085, U+00A0, U+1680, U+2000..200A, U+2028, U+2029,
    U+202F, U+205F, U+3000. *)
Definition whitespace : list string :=
  map chr [9; 10; 11; 12; 13; 28; 29; 30; 31; 32]
  ++ [ chr 194 +:+ chr 133; chr 194 +:+ chr 160;
       chr 225 +:+ chr 154 +:+ chr 128 ]
  ++ map (fun n => chr 226 +:+ chr 128 +:+ chr n)
       [128; 129; 130; 131; 132; 133; 134; 135; 136; 137; 138; 168; 169; 175]
  ++ [ chr 226 +:+ chr 129 +:+ chr 159; chr 227 +:+ chr 128 +:+ chr 128 ].

(** [s.lstrip()] *)
Fixpoint lstrip_aux (skip : nat) (s : string) : string :=
  match s with
  | EmptyString => ""
  | String c s' =>
      match skip with
      | S k => lstrip_aux k s'
      | O => match match_len whitespace s with
             | S k => lstrip_aux k s'
             | O => s
             end
      end
  end.

Definition lstrip (s : string) : string := lstrip_aux 0 s.

(** [s.isspace()] or [s == ""]: nothing but white space. *)
Definition all_space (s : string) : bool :=
  match lstrip s with EmptyString => true | String _ _ => false end.

(** [s.rstrip()]: the shortest prefix after which only white space
    follows. *)
Fixpoint rstrip (s : string) : string :=
  match s with
  | EmptyString => ""
  | String c s' => if all_space s then "" else String c (rstrip s')
  end.

(** [s.strip()] *)
Definition strip (s : string) : string := rstrip (lstrip s).

(** Truth value of a string: non-empty. *)
Definition truthy (s : string) : bool :=
  match s with EmptyString => false | String _ _ => true end.

(** Membership of a byte in a character class given as a string. *)
Fixpoint in_class (c : ascii) (cls : string) : bool :=
  match cls with
  | EmptyString => false
  | String d cls' => Ascii.eqb c d || in_class c cls'
  end.

(** [re.sub('[' + cls + ']', repl, s)]: every character of the class is
    replaced by [repl]. *)
Fixpoint re_sub_class (cls repl s : string) : string :=
  match s with
  | EmptyString => ""
  | String c s' =>
      (if in_class c cls then repl else String c "") +:+ re_sub_class cls repl s'
  end.

(** [str(n)] for a natural number: its decimal digits. *)
Definition str_of_nat (n : nat) : string :=
  NilEmpty.string_of_uint (Nat.to_uint n).

(** ["\n".join(l)] and the like. *)
Fixpoint join (sep : string) (l : list string) : string :=
  match l with
  | [] => ""
  | [x] => x
  | x :: xs => x +:+ sep +:+ join sep xs
  end.

(** [s.endswith(p)] *)
Definition endswith (s p : string) : bool :=
  let n := String.length s in
  let m := String.length p in
  (m <=? n) && String.eqb (String.substring (n - m) m s) p.

(** [os.path.join(a, b)] of [posixpath]: an absolute [b] replaces [a]; an
    empty [a] or one ending in a slash takes [b] as it is. *)
Definition os_path_join (a b : string) : string :=
  if startswith b "/" then b
  else if negb (truthy a) || endswith a "/" then a +:+ b
  else a +:+ "/" +:+ b.

(** Cut [s] at its last slash: what stands before it and what follows
    it; [None] when there is no slash. *)
Fixpoint cut_last_slash (s : string) : option (string * string) :=
  match s with
  | EmptyString => None
  | String c s' =>
      match cut_last_slash s' with
      | Some (h, t) => Some (String c h, t)
      | None => if Ascii.eqb c "/" then Some ("", s') else None
      end
  end.

(** [s.rstrip('/')] *)
Fixpoint rstrip_slashes (s : string) : string :=
  match s with
  | EmptyString => ""
  | String c s' =>
      match rstrip_slashes s' with
      | EmptyString => if Ascii.eqb c "/" then "" else String c ""
      | r => String c r
      end
  end.

(** [os.path.split(p)] of [posixpath]: head and tail around the last
    slash; the head loses its trailing slashes unless it is made of
    slashes only. *)
Definition os_path_split (p : string) : string * string :=
  match cut_last_slash p with
  | None => ("", p)
  | Some (h, t) =>
      let head := h +:+ "/" in
      (match rstrip_slashes head with
       | EmptyString => head
       | r => r
       end, t)
  end.

End PyStr.

(* ===================================================================== *)
(** * Exceptions, outcomes and the task monad *)
(* ===================================================================== *)

(** A raised Python exception, as far as the program looks at it: whether it
    is an instance of [Exception] (what [except Exception] catches; a
    [BaseException] such as [CancelledError] or [KeyboardInterrupt] is not),
    and [str(e)]. *)
Record exception : Type := mkException {
  exc_is_Exception : bool;
  exc_str : string
}.

(** [IndexError] of an out-of-range subscript. *)
Definition IndexError : exception :=
  {| exc_is_Exception := true; exc_str := "list index out of range" |}.

(** The result of running a piece of code: it returns or it raises. *)
Inductive outcome (A : Type) : Type :=
| Return (a : A)
| Raise (e : exception).
Arguments Return {A} a.
Arguments Raise {A} e.

(** What a capture task did to the browser, in order.  A call that raised
    leaves no event. *)
Inductive event : Type :=
| EvNewContext (user_agent : string) (java_script_enabled : bool)
    (viewport_width viewport_height : Z) (ignore_https_errors : bool)
| EvNewPage
| EvRoute (glob : string)
| EvGoto (url : string) (timeout : Z) (wait_until : string)
| EvSleep (seconds : Q)
| EvReadScrollHeight (h : Z)
| EvScrollBy (dx dy : Z)
| EvScreenshot (path : string) (full_page : bool)
| EvContextClose.

(** The browser, the clock and the random generator as seen by one task: an
    oracle over a world [W].  [evaluate_gate] decides whether a
    [page.evaluate] call goes through (the page may have crashed or
    navigated away); the [dom_] fields are what the evaluated JavaScript
    reads and does. *)
Record Browser (W : Type) : Type := mkBrowser {
  random_below : nat -> W -> nat * W;
  random_uniform : Z -> Z -> W -> Q * W;
  new_context : string -> W -> outcome unit * W;
  new_page : W -> outcome unit * W;
  page_route : string -> W -> outcome unit * W;
  page_goto : string -> W -> outcome unit * W;
  evaluate_gate : W -> outcome unit * W;
  dom_scrollHeight : W -> Z;
  dom_innerHeight : W -> Z;
  dom_scrollBy : Z -> Z -> W -> W;
  elapse : Q -> W -> W;
  page_screenshot : string -> W -> outcome unit * W;
  context_close : W -> outcome unit * W
}.
Arguments random_below {W} _ _ _.
Arguments random_uniform {W} _ _ _ _.
Arguments new_context {W} _ _ _.
Arguments new_page {W} _ _.
Arguments page_route {W} _ _ _.
Arguments page_goto {W} _ _ _.
Arguments evaluate_gate {W} _ _.
Arguments dom_scrollHeight {W} _ _.
Arguments dom_innerHeight {W} _ _.
Arguments dom_scrollBy {W} _ _ _ _.
Arguments elapse {W} _ _ _.
Arguments page_screenshot {W} _ _ _.
Arguments context_close {W} _ _.

(** The handle that [browser.new_context] returns. *)
Inductive BrowserContext : Type := TheContext.

(** State of one running [take_screenshot]: the world, the events so far and
    the local variable [context] ([None] until it is assigned). *)
Record task_state (W : Type) : Type := mkTaskState {
  world : W;
  trace : list event;
  context : option BrowserContext
}.
Arguments mkTaskState {W} _ _ _.
Arguments world {W} _.
Arguments trace {W} _.
Arguments context {W} _.

(** Code with effects on a state [S]: it returns or raises, and leaves a
    state behind either way. *)
Definition Eff (S A : Type) : Type := S -> outcome A * S.

Definition ret {S A} (a : A) : Eff S A := fun s => (Return a, s).

Definition raise {S A} (e : exception) : Eff S A := fun s => (Raise e, s).

Definition bind {S A B} (c : Eff S A) (k : A -> Eff S B) : Eff S B :=
  fun s =>
    match c s with
    | (Return a, s') => k a s'
    | (Raise e, s') => (Raise e, s')
    end.

Notation "'do' x <- c ; k" := (bind c (fun x => k))
  (at level 10, x name, c at level 100, k at level 200).

(** [try: body  except Exception as e: handler(e)] *)
Definition try_except {S A} (body : Eff S A) (handler : exception -> Eff S A) : Eff S A :=
  fun s =>
    match body s with
    | (Return a, s') => (Return a, s')
    | (Raise e, s') =>
        if exc_is_Exception e then handler e s' else (Raise e, s')
    end.

(** [try: body  finally: fin]: [fin] runs whatever [body] did; when [fin]
    raises, its exception replaces the result of [body]. *)
Definition try_finally {S A} (body : Eff S A) (fin : Eff S unit) : Eff S A :=
  fun s =>
    let '(r, s1) := body s in
    match fin s1 with
    | (Return _, s2) => (r, s2)
    | (Raise e, s2) => (Raise e, s2)
    end.

(** The code of one capture task runs on a [task_state]. *)
Abbreviation Task W := (Eff (task_state W)).

(** A call answered by the oracle; the events are logged when it returns. *)
Definition call {W A} (f : W -> outcome A * W) (evs : A -> list event) : Task W A :=
  fun s =>
    match f (world s) with
    | (Return a, w') => (Return a, mkTaskState w' (trace s ++ evs a) (context s))
    | (Raise e, w') => (Raise e, mkTaskState w' (trace s) (context s))
    end.

(** A call that cannot raise. *)
Definition draw {W A} (f : W -> A * W) : Task W A :=
  fun s => let '(a, w') := f (world s) in
           (Return a, mkTaskState w' (trace s) (context s)).

Definition set_context {W} (c : BrowserContext) : Task W unit :=
  fun s => (Return tt, mkTaskState (world s) (trace s) (Some c)).

Definition get_context {W} : Task W (option BrowserContext) :=
  fun s => (Return (context s), s).

(** A fresh task: nothing done yet, [context = None]. *)
Definition start {W} (w : W) : task_state W := mkTaskState w [] None.

(* ===================================================================== *)
(** * Configuration *)
(* ===================================================================== *)

Definition SCREENSHOT_DIR : string := "screenshots".
Definition ZIP_DIR : string := "zip_files".

Definition USER_AGENTS : list string :=
  [ "Mozilla/5.0 (Windows NT 10.0; Win64; x64) AppleWebKit/537.36 (KHTML, like Gecko) Chrome/122.0.0.0 Safari/537.36";
    "Mozilla/5.0 (Macintosh; Intel Mac OS X 13_1) AppleWebKit/605.1.15 (KHTML, like Gecko) Version/16.1 Safari/605.1.15";
    "Mozilla/5.0 (X11; Linux x86_64) AppleWebKit/537.36 (KHTML, like Gecko) Chrome/120.0.0.0 Safari/537.36" ].

(** The characters of the class of the filename pattern: colon, slash,
    backslash, question mark, star, ampersand, less, greater, bar and the
    double quote (byte 34). *)
Definition forbidden_chars : string := ":/\?*&<>|" +:+ PyStr.chr 34.

(** Defaults of [scroll_to_bottom(page, pause_time=1, max_scrolls=30)]. *)
Definition default_pause_time : Q := 1.
Definition default_max_scrolls : nat := 30.

(* ===================================================================== *)
(** * The capture engine *)
(* ===================================================================== *)

Section Engine.

Context {W : Type} (b : Browser W).

(** [asyncio.sleep(t)] *)
Definition asyncio_sleep (t : Q) : Task W unit :=
  fun s => (Return tt, mkTaskState (elapse b t (world s)) (trace s ++ [EvSleep t]) (context s)).

(** [page.evaluate(js)]: when the call goes through, the script runs on
    the page and its events are logged. *)
Definition page_evaluate {A} (js : W -> A * W * list event) : Task W A :=
  fun s =>
    match evaluate_gate b (world s) with
    | (Raise e, w1) => (Raise e, mkTaskState w1 (trace s) (context s))
    | (Return _, w1) =>
        let '(a, w2, evs) := js w1 in
        (Return a, mkTaskState w2 (trace s ++ evs) (context s))
    end.

(** [() => document.body.scrollHeight] *)
Definition js_scrollHeight (w : W) : Z * W * list event :=
  let h := dom_scrollHeight b w in (h, w, [EvReadScrollHeight h]).

(** [() => window.scrollBy(0, document.body.scrollHeight)] *)
Definition js_scrollBy_scrollHeight (w : W) : unit * W * list event :=
  let h := dom_scrollHeight b w in
  (tt, dom_scrollBy b 0 h w, [EvReadScrollHeight h; EvScrollBy 0 h]).

(** The [for _ in range(max_scrolls)] loop of [scroll_to_bottom], with the
    iterations that are left and the current [last_height]. *)
Fixpoint scroll_loop (pause_time : Q) (iterations : nat) (last_height : Z) : Task W unit :=
  match iterations with
  | O => ret tt
  | S iterations' =>
      do _ <- page_evaluate js_scrollBy_scrollHeight ;
      do _ <- asyncio_sleep pause_time ;
      do new_height <- page_evaluate js_scrollHeight ;
      if (new_height =? last_height)%Z
      then ret tt
      else scroll_loop pause_time iterations' new_height
  end.

Definition scroll_to_bottom (pause_time : Q) (max_scrolls : nat) : Task W unit :=
  do last_height <- page_evaluate js_scrollHeight ;
  scroll_loop pause_time max_scrolls last_height.

(** [random.choice(USER_AGENTS)] *)
Definition random_choice (l : list string) : Task W string :=
  do i <- draw (random_below b (length l)) ;
  ret (nth (i mod length l) l "").

(** [re.sub(class, '_', url.split('//')[1])]; [None] stands for the
    [IndexError] of the subscript when [url] has no double slash. *)
Definition safe_name (url : string) : option string :=
  match nth_error (PyStr.split url "//") 1 with
  | Some rest => Some (PyStr.re_sub_class forbidden_chars "_" rest)
  | None => None
  end.

(** [f"{index+1}_{safe_name}.png"] *)
Definition artifact_filename (index : nat) (name : string) : string :=
  PyStr.str_of_nat (index + 1) +:+ "_" +:+ name +:+ ".png".

(** [os.path.join(SCREENSHOT_DIR, f"{index+1}_{safe_name}.png")] *)
Definition screenshot_path (url : string) (index : nat) : option string :=
  match safe_name url with
  | Some name => Some (PyStr.os_path_join SCREENSHOT_DIR (artifact_filename index name))
  | None => None
  end.

(** The status lines that [take_screenshot] returns. *)
Definition success_line (url : string) : string := "✅ Success: " +:+ url.
Definition failure_line (url error_message : string) : string :=
  "⚠️ Error on " +:+ url +:+ ": " +:+ error_message.

(** The [try] block. *)
Definition take_screenshot_body (url : string) (index : nat) : Task W string :=
  do user_agent <- random_choice USER_AGENTS ;
  do _ <- call (new_context b user_agent)
            (fun _ => [EvNewContext user_agent true 1920 1080 true]) ;
  do _ <- set_context TheContext ;
  do _ <- call (new_page b) (fun _ => [EvNewPage]) ;
  do _ <- call (page_route b "**/*.{png,jpg,jpeg,gif,svg,woff,woff2,ttf,mp3,mp4,avi}")
            (fun _ => [EvRoute "**/*.{png,jpg,jpeg,gif,svg,woff,woff2,ttf,mp3,mp4,avi}"]) ;
  do _ <- call (page_goto b url) (fun _ => [EvGoto url 60000 "domcontentloaded"]) ;
  do delay <- draw (random_uniform b 2 4) ;
  do _ <- asyncio_sleep delay ;
  do _ <- scroll_to_bottom default_pause_time default_max_scrolls ;
  match screenshot_path url index with
  | None => raise IndexError
  | Some path =>
      do _ <- call (page_screenshot b path) (fun _ => [EvScreenshot path true]) ;
      ret (success_line url)
  end.

(** The [except Exception as e] block: [str(e).splitlines()[0]]. *)
Definition take_screenshot_handler (url : string) (e : exception) : Task W string :=
  match PyStr.splitlines (exc_str e) with
  | [] => raise IndexError
  | error_message :: _ => ret (failure_line url error_message)
  end.

(** The [finally] block: [if context: await context.close()]. *)
Definition take_screenshot_finally : Task W unit :=
  do c <- get_context ;
  match c with
  | Some _ => call (context_close b) (fun _ => [EvContextClose])
  | None => ret tt
  end.

Definition take_screenshot (url : string) (index : nat) : Task W string :=
  try_finally
    (try_except (take_screenshot_body url index) (take_screenshot_handler url))
    take_screenshot_finally.

End Engine.

(* ===================================================================== *)
(** * Application state: file system, session, user interface *)
(* ===================================================================== *)

(** A file of the artifact store: a captured image, or an archive with the
    names of its members. *)
Inductive file : Type :=
| Picture
| Archive (members : gset string).

(** What the Streamlit front end was asked to show. *)
Inductive ui_event : Type :=
| UiInfo (text : string)
| UiSuccess (text : string)
| UiWarning (text : string)
| UiError (text : string)
| UiToast (text : string)
| UiMarkdown (text : string)
| UiProgressBar (text : string)
| UiProgress (completed total : nat) (text : string)
| UiHeader (text : string)
| UiSubheader (text : string)
| UiDownloadButton (path : string).

(** [st.session_state] with its three keys. *)
Record session_state : Type := mkSession {
  logs : list string;
  processing_complete : bool;
  zip_path : option string
}.

(** The process-wide state.  [fs] maps the path of a directory to its
    entries.  The handlers run after the start of the script has returned
    ([startup] below, which raises and ends the script when one of the two
    paths names a plain file), so the paths they meet name directories, and
    the directories hold plain files only. *)
Record app_state : Type := mkApp {
  fs : gmap string (gmap string file);
  session : session_state;
  ui : list ui_event
}.

Definition set_fs (f : gmap string (gmap string file) -> gmap string (gmap string file))
    (a : app_state) : app_state :=
  mkApp (f (fs a)) (session a) (ui a).

Definition set_session (f : session_state -> session_state) (a : app_state) : app_state :=
  mkApp (fs a) (f (session a)) (ui a).

Definition show (e : ui_event) (a : app_state) : app_state :=
  mkApp (fs a) (session a) (ui a ++ [e]).

Definition set_logs (l : list string) (ss : session_state) : session_state :=
  mkSession l (processing_complete ss) (zip_path ss).

Definition set_processing_complete (v : bool) (ss : session_state) : session_state :=
  mkSession (logs ss) v (zip_path ss).

Definition set_zip_path (v : option string) (ss : session_state) : session_state :=
  mkSession (logs ss) (processing_complete ss) v.

(** A state change that cannot raise, as an effect. *)
Definition modify {S} (f : S -> S) : Eff S unit := fun s => (Return tt, f s).

Definition FileExistsError (path : string) : exception :=
  {| exc_is_Exception := true; exc_str := "[Errno 17] File exists: '" +:+ path +:+ "'" |}.

Definition FileNotFoundError (path : string) : exception :=
  {| exc_is_Exception := true;
     exc_str := "[Errno 2] No such file or directory: '" +:+ path +:+ "'" |}.

(** [os.path.exists(directory)] *)
Definition os_path_exists (directory : string) (a : app_state) : bool :=
  match fs a !! directory with Some _ => true | None => false end.

(** [shutil.rmtree(directory)]: the directory goes with all it holds. *)
Definition shutil_rmtree (directory : string) : Eff app_state unit :=
  fun a =>
    match fs a !! directory with
    | Some _ => (Return tt, set_fs (delete directory) a)
    | None => (Raise (FileNotFoundError directory), a)
    end.

(** [os.makedirs(directory)]: a new, empty directory; raises when the path
    is there already. *)
Definition os_makedirs (directory : string) : Eff app_state unit :=
  fun a =>
    match fs a !! directory with
    | Some _ => (Raise (FileExistsError directory), a)
    | None => (Return tt, set_fs (insert directory ∅) a)
    end.

(** What a path of the working directory names when the script starts: a
    plain file, or a directory with its entries. *)
Inductive node : Type :=
| PlainFile
| Directory (entries : gmap string file).

(** [os.makedirs(directory, exist_ok=True)] on the working directory as the
    script finds it (taken to be writable): an existing directory is left
    alone, a missing one is made, and a path that names a plain file raises
    [FileExistsError], which [exist_ok] excuses for a directory only. *)
Definition os_makedirs_exist_ok (directory : string) : Eff (gmap string node) unit :=
  fun disk =>
    match disk !! directory with
    | Some (Directory _) => (Return tt, disk)
    | Some PlainFile => (Raise (FileExistsError directory), disk)
    | None => (Return tt, <[directory := Directory ∅]> disk)
    end.

(** The two [os.makedirs(..., exist_ok=True)] at the top of the script. *)
Definition startup : Eff (gmap string node) unit :=
  do _ <- os_makedirs_exist_ok SCREENSHOT_DIR ;
  os_makedirs_exist_ok ZIP_DIR.

(** The directories of a working directory: the [fs] of the state in which
    the handlers run. *)
Definition directories (disk : gmap string node) : gmap string (gmap string file) :=
  omap (fun n => match n with
                 | Directory entries => Some entries
                 | PlainFile => None
                 end) disk.

(** [any(os.scandir(directory))]: whether the directory has an entry. *)
Definition any_scandir (directory : string) : Eff app_state bool :=
  fun a =>
    match fs a !! directory with
    | Some d => (Return (negb (bool_decide (d = ∅))), a)
    | None => (Raise (FileNotFoundError directory), a)
    end.

(** [shutil.make_archive(base_name, 'zip', root_dir)]: the directory of
    [base_name] is created when it is missing, and the file
    [base_name + '.zip'] is written there (over an older one) with the
    entries of [root_dir]. *)
Definition shutil_make_archive (base_name root_dir : string) : Eff app_state string :=
  fun a =>
    match fs a !! root_dir with
    | None => (Raise (FileNotFoundError root_dir), a)
    | Some d =>
        let '(archive_dir, name) := PyStr.os_path_split base_name in
        let zips := default ∅ (fs a !! archive_dir) in
        (Return (base_name +:+ ".zip"),
         set_fs (insert archive_dir (<[name +:+ ".zip" := Archive (dom d)]> zips)) a)
    end.

(** [open(path, 'rb')]: raises when there is no such file. *)
Definition open_rb (path : string) : Eff app_state file :=
  fun a =>
    let '(directory, name) := PyStr.os_path_split path in
    match fs a !! directory with
    | Some d =>
        match d !! name with
        | Some f => (Return f, a)
        | None => (Raise (FileNotFoundError path), a)
        end
    | None => (Raise (FileNotFoundError path), a)
    end.

(** A file written at [path]; its directory is created when missing. *)
Definition write_file (path : string) (f : file) (a : app_state) : app_state :=
  let '(directory, name) := PyStr.os_path_split path in
  set_fs (fun m => <[directory := <[name := f]> (default ∅ (m !! directory))]> m) a.

(** Truth value of [st.session_state.zip_path]: [None] and the empty string
    are false. *)
Definition zip_path_set (ss : session_state) : bool :=
  match zip_path ss with
  | Some p => PyStr.truthy p
  | None => false
  end.

(** The loop body of [flush_files] for one directory. *)
Definition flush_directory (directory : string) : Eff app_state unit :=
  do _ <- (fun a => if os_path_exists directory a
                    then shutil_rmtree directory a
                    else (Return tt, a)) ;
  os_makedirs directory.

Definition flush_files : Eff app_state unit :=
  do _ <- flush_directory SCREENSHOT_DIR ;
  do _ <- flush_directory ZIP_DIR ;
  do _ <- modify (set_session (set_logs [])) ;
  do _ <- modify (set_session (set_processing_complete false)) ;
  do _ <- modify (set_session (set_zip_path None)) ;
  modify (show (UiToast "🧹 All screenshots and ZIP files have been flushed.")).

(** The output and download area of the script, run on every rerun. *)
Definition results_section : Eff app_state unit :=
  fun a =>
    if negb (processing_complete (session a)) then (Return tt, a) else
    (do _ <- modify (show (UiHeader "Results")) ;
     do _ <- (fun a1 =>
       if zip_path_set (session a1) then (Return tt, a1) else
         (do nonempty <- any_scandir SCREENSHOT_DIR ;
          if (nonempty : bool)
          then
            let zip_filename := PyStr.os_path_join ZIP_DIR "screenshots" in
            do _ <- shutil_make_archive zip_filename SCREENSHOT_DIR ;
            modify (set_session (set_zip_path (Some (zip_filename +:+ ".zip"))))
          else
            modify (show (UiWarning
              "Processing completed, but no screenshots were successfully generated."))) a1) ;
     do _ <- (fun a2 =>
       if zip_path_set (session a2)
       then (do _ <- open_rb (default "" (zip_path (session a2))) ;
             modify (show (UiDownloadButton (default "" (zip_path (session a2)))))) a2
       else (Return tt, a2)) ;
     fun a3 =>
       match logs (session a3) with
       | [] => (Return tt, a3)
       | _ :: _ =>
           (do _ <- modify (show (UiSubheader "Final Log")) ;
            modify (show (UiMarkdown
              ("```" +:+ PyStr.chr 10 +:+ PyStr.join (PyStr.chr 10) (logs (session a3))
               +:+ PyStr.chr 10 +:+ "```")))) a3
       end) a.

(* ===================================================================== *)
(** * The batch processor *)
(* ===================================================================== *)

(** What a batch meets outside itself: whether the browser launches, the
    world each task runs in (by task index; contexts are isolated), the
    order in which [asyncio.as_completed] hands the tasks back, whether
    closing the browser and leaving Playwright succeeds, and how far the
    tasks have come when the batch is abandoned.

    [asyncio.as_completed] schedules all the tasks at once and they run
    interleaved on one thread, sharing no state but the browser handle.  A
    task that is handed back has run to its end on its own world.  When
    [await future] raises, the loop is left, Playwright is shut down and
    [asyncio.run] cancels the tasks not handed back, which end where they
    stand: [reached_at_abort] gives, by task index, the number of browser
    events such a task has behind it by then (any number from none to all of
    them), and a screenshot among those is on disk although the task never
    reports. *)
Record batch_env (W : Type) : Type := mkBatchEnv {
  launch : outcome unit;
  task_world : nat -> W;
  as_completed : list (nat * string) -> list (nat * string);
  browser_close : outcome unit;
  reached_at_abort : nat -> nat
}.
Arguments launch {W} _.
Arguments task_world {W} _ _.
Arguments as_completed {W} _ _.
Arguments browser_close {W} _.
Arguments reached_at_abort {W} _ _.

(** [enumerate(l)] *)
Definition enumerate {A} (l : list A) : list (nat * A) :=
  combine (seq 0 (length l)) l.

(** The screenshots of a trace reach the file system. *)
Fixpoint persist (tr : list event) (a : app_state) : app_state :=
  match tr with
  | [] => a
  | EvScreenshot path _ :: tr' => persist tr' (write_file path Picture a)
  | _ :: tr' => persist tr' a
  end.

Section Batch.

Context {W : Type} (b : Browser W) (env : batch_env W).

(** What the tasks not yet handed back leave on disk when the batch is
    abandoned: each has done the first [reached_at_abort] events of its
    run. *)
Fixpoint abandoned (futures : list (nat * string)) (a : app_state) : app_state :=
  match futures with
  | [] => a
  | (index, url) :: futures' =>
      let ts := snd (take_screenshot b url index (start (task_world env index))) in
      abandoned futures' (persist (firstn (reached_at_abort env index) (trace ts)) a)
  end.

(** [for i, future in enumerate(asyncio.as_completed(tasks))], with the
    futures still to come and the current [i].  A task that raises makes
    [await future] raise, which ends the loop and the batch; the tasks
    still running are abandoned. *)
Fixpoint await_loop (total_tasks : nat) (i : nat) (futures : list (nat * string))
    : Eff app_state unit :=
  match futures with
  | [] => ret tt
  | (index, url) :: futures' =>
      fun a =>
        let '(r, ts) := take_screenshot b url index (start (task_world env index)) in
        let a1 := persist (trace ts) a in
        match r with
        | Raise e => (Raise e, abandoned futures' a1)
        | Return result =>
            let a2 := set_session (fun ss => set_logs (logs ss ++ [result]) ss) a1 in
            let log_output := PyStr.join (PyStr.chr 10) (logs (session a2)) in
            let a3 := show (UiMarkdown ("```" +:+ PyStr.chr 10 +:+ log_output
                                        +:+ PyStr.chr 10 +:+ "```")) a2 in
            let a4 := show (UiProgress (i + 1) total_tasks
                              ("Processed " +:+ PyStr.str_of_nat (i + 1) +:+ " of "
                               +:+ PyStr.str_of_nat total_tasks +:+ " URLs")) a3 in
            await_loop total_tasks (S i) futures' a4
        end
  end.

Definition run_batch_processor (urls : list string) : Eff app_state unit :=
  do _ <- modify (set_session (set_logs [])) ;
  do _ <- modify (show (UiInfo "🚀 Starting browser...")) ;
  do _ <- (fun a => (launch env, a)) ;
  let tasks := enumerate urls in
  let total_tasks := length tasks in
  do _ <- await_loop total_tasks 0 (as_completed env tasks) ;
  do _ <- (fun a => (browser_close env, a)) ;
  do _ <- modify (show (UiSuccess "🎉 All tasks completed!")) ;
  modify (set_session (set_processing_complete true)).

(** The branch of the script for a pressed start button, up to the rerun
    that follows the batch. *)
Definition start_processing (urls : list string) : Eff app_state unit :=
  do _ <- flush_files ;
  do _ <- modify (set_session (set_processing_complete false)) ;
  do _ <- modify (show (UiProgressBar "Starting...")) ;
  run_batch_processor urls.

End Batch.

(** The progress events of a run, as pairs of completed and total count,
    and the status lines of its log. *)
Definition progress_events (l : list ui_event) : list (nat * nat) :=
  flat_map (fun e => match e with
                     | UiProgress completed total _ => [(completed, total)]
                     | _ => []
                     end) l.

(** The paths of the screenshots of a trace. *)
Definition screenshots (tr : list event) : list string :=
  flat_map (fun e => match e with
                     | EvScreenshot path _ => [path]
                     | _ => []
                     end) tr.

(* ===================================================================== *)
(** * The input handlers *)
(* ===================================================================== *)

(** A parsed CSV file: its columns by name, a cell being a text or missing
    (NaN). *)
Definition dataframe : Type := list (string * list (option string)).

Definition df_columns (df : dataframe) : list string := map fst df.

(** [df[name]] *)
Fixpoint df_column (name : string) (df : dataframe) : option (list (option string)) :=
  match df with
  | [] => None
  | (n, cells) :: df' => if String.eqb n name then Some cells else df_column name df'
  end.

(** [series.dropna()] *)
Fixpoint dropna (cells : list (option string)) : list string :=
  match cells with
  | [] => []
  | Some v :: cells' => v :: dropna cells'
  | None :: cells' => dropna cells'
  end.

(** [series.unique()]: the values in order of first appearance. *)
Fixpoint unique_aux (seen : list string) (l : list string) : list string :=
  match l with
  | [] => []
  | x :: l' =>
      if existsb (String.eqb x) seen
      then unique_aux seen l'
      else x :: unique_aux (x :: seen) l'
  end.

Definition unique (l : list string) : list string := unique_aux [] l.

(** The upload tab: [uploaded_file] is [None] without an upload, and else
    what [pd.read_csv] made of the file.  [urls_to_process] comes in as the
    empty list. *)
Definition csv_upload_handler (uploaded_file : option (outcome dataframe))
    : Eff app_state (list string) :=
  match uploaded_file with
  | None => ret []
  | Some (Raise e) =>
      if exc_is_Exception e
      then do _ <- modify (show (UiError ("Error reading CSV file: " +:+ exc_str e))) ;
           ret []
      else raise e
  | Some (Return df) =>
      match df_column "name" df with
      | Some cells =>
          let urls_to_process := map (fun url => "https://" +:+ url) (unique (dropna cells)) in
          do _ <- modify (show (UiSuccess
                    ("Loaded " +:+ PyStr.str_of_nat (length urls_to_process)
                     +:+ " unique URLs from the CSV file."))) ;
          ret urls_to_process
      | None =>
          do _ <- modify (show (UiError "CSV file must contain a column named 'name'.")) ;
          ret []
      end
  end.

(** The loop that adds the scheme to the pasted lines. *)
Fixpoint add_scheme (lines : list string) : list string :=
  match lines with
  | [] => []
  | line :: lines' =>
      (if negb (PyStr.startswith_any line ["http://"; "https://"])
       then "https://" +:+ line
       else line) :: add_scheme lines'
  end.

(** [[line.strip() for line in url_input.split('\n') if line.strip()]] *)
Definition pasted_lines (url_input : string) : list string :=
  flat_map (fun line => if PyStr.truthy (PyStr.strip line) then [PyStr.strip line] else [])
    (PyStr.split url_input (PyStr.chr 10)).

(** The paste tab: with a non-empty text it replaces [urls_to_process]. *)
Definition paste_handler (url_input : string) (urls_to_process : list string)
    : Eff app_state (list string) :=
  if PyStr.truthy url_input then
    let lines := pasted_lines url_input in
    do lines <- (if 10 <? length lines
                 then do _ <- modify (show (UiWarning
                        "You have entered more than 10 URLs. Only the first 10 will be processed.")) ;
                      ret (firstn 10 lines)
                 else ret lines) ;
    ret (add_scheme lines)
  else ret urls_to_process.

(** The input area of the script: both tabs in turn. *)
Definition input_area (uploaded_file : option (outcome dataframe)) (url_input : string)
    : Eff app_state (list string) :=
  do urls_to_process <- csv_upload_handler uploaded_file ;
  paste_handler url_input urls_to_process.

(** Whether [url] starts with one of the two schemes. *)
Definition has_scheme (url : string) : bool :=
  PyStr.startswith_any url ["http://"; "https://"].

(* ===================================================================== *)
(** * Shapes of traces, and sample worlds *)
(* ===================================================================== *)

(** One pass of the settling loop as it shows in the trace: the scroll
    script reads the scroll height [d] and scrolls by it, the task sleeps,
    and the measuring script reads the height [h]. *)
Definition iteration_trace (pause_time : Q) (it : Z * Z) : list event :=
  [ EvReadScrollHeight (fst it); EvScrollBy 0 (fst it); EvSleep pause_time;
    EvReadScrollHeight (snd it) ].

(** The trace of a whole settling run: the first measurement [h0], then the
    passes. *)
Definition settle_trace (pause_time : Q) (h0 : Z) (its : list (Z * Z)) : list event :=
  EvReadScrollHeight h0 :: flat_map (iteration_trace pause_time) its.

(** The passes [its] go on exactly as long as the cap [cap] allows and the
    new measurement differs from the one before ([last]). *)
Fixpoint stops_at_first_repeat (cap : nat) (last : Z) (its : list (Z * Z)) {struct its} : Prop :=
  match its with
  | [] => cap = 0
  | (_, h) :: rest =>
      match cap with
      | O => False
      | S cap' => if (h =? last)%Z then rest = [] else stops_at_first_repeat cap' h rest
      end
  end.

(** The measurement that the pass after [pre] is compared with. *)
Definition reference_height (h0 : Z) (pre : list (Z * Z)) : Z :=
  List.last (map snd pre) h0.

(** [page.evaluate] never raises on this browser. *)
Definition evaluate_succeeds {W} (b : Browser W) : Prop :=
  forall w, exists w', evaluate_gate b w = (Return tt, w').

(** The heights of a pass are scroll heights of the page. *)
Definition read_from_page {W} (b : Browser W) (it : Z * Z) : Prop :=
  (exists w, fst it = dom_scrollHeight b w) /\ (exists w, snd it = dom_scrollHeight b w).

(** Reading of the specification: every scroll is by the height of the
    viewport. *)
Definition scrolls_by_viewport (viewport_height : Z) (tr : list event) : Prop :=
  forall dx dy, In (EvScrollBy dx dy) tr -> dy = viewport_height.

(** Reading of the specification: a pass that measures less than the pass
    before is the last one. *)
Definition stops_when_shrinking (h0 : Z) (its : list (Z * Z)) : Prop :=
  forall pre d h post,
    its = pre ++ (d, h) :: post ->
    (h < reference_height h0 pre)%Z ->
    post = [].

(** A page that follows a script: its current scroll height, the heights it
    will take after each wait, its scroll position, and the exception that
    creating a context for it raises, if any. *)
Record page : Type := mkPage {
  page_height : Z;
  page_upcoming : list Z;
  page_scrollY : Z;
  page_fault : option exception
}.

(** A browser in which every call goes through, but for the fault of the
    page. *)
Definition scripted_browser : Browser page :=
  {| random_below := fun _ w => (0, w);
     random_uniform := fun lo _ w => (inject_Z lo, w);
     new_context := fun _ w =>
       match page_fault w with
       | Some e => (Raise e, w)
       | None => (Return tt, w)
       end;
     new_page := fun w => (Return tt, w);
     page_route := fun _ w => (Return tt, w);
     page_goto := fun _ w => (Return tt, w);
     evaluate_gate := fun w => (Return tt, w);
     dom_scrollHeight := page_height;
     dom_innerHeight := fun _ => 1080%Z;
     dom_scrollBy := fun _ dy w =>
       mkPage (page_height w) (page_upcoming w)
         (Z.max 0 (Z.min (page_scrollY w + dy) (page_height w - 1080)))
         (page_fault w);
     elapse := fun _ w =>
       match page_upcoming w with
       | [] => w
       | h :: rest => mkPage h rest (page_scrollY w) (page_fault w)
       end;
     page_screenshot := fun _ w => (Return tt, w);
     context_close := fun w => (Return tt, w) |}.

(** A page of constant height 5000. *)
Definition tall_page : page := mkPage 5000 [] 0 None.

(** A page that shrinks from 100 to 50 during the first wait. *)
Definition shrinking_page : page := mkPage 100 [50%Z; 50%Z] 0 None.

(** An exception whose description is the empty string, such as
    [MemoryError()] or [asyncio.TimeoutError()]. *)
Definition silent_exception : exception :=
  {| exc_is_Exception := true; exc_str := "" |}.

(** A page for which no context can be created, the exception being a
    silent one. *)
Definition silent_page : page := mkPage 5000 [] 0 (Some silent_exception).

(** An environment in which the browser launches and closes and the tasks
    finish in the order of submission, each on its own page; a task not
    handed back when the batch is abandoned has not begun. *)
Definition in_order_env (pages : nat -> page) : batch_env page :=
  {| launch := Return tt;
     task_world := pages;
     as_completed := fun tasks => tasks;
     browser_close := Return tt;
     reached_at_abort := fun _ => 0 |}.

(** The same environment, but a task not handed back when the batch is
    abandoned has done all its work by then. *)
Definition racing_env (pages : nat -> page) : batch_env page :=
  {| launch := Return tt;
     task_world := pages;
     as_completed := fun tasks => tasks;
     browser_close := Return tt;
     reached_at_abort := fun _ => 1000 |}.

(** The screenshots that the tasks of a batch take, task by task. *)
Definition batch_artifacts {W} (b : Browser W) (env : batch_env W) (urls : list string)
    : list string :=
  flat_map (fun task : nat * string =>
              screenshots (trace (snd (take_screenshot b (snd task) (fst task)
                                         (start (task_world env (fst task)))))))
    (enumerate urls).

(** The state after a batch that took one screenshot. *)
Definition after_batch : app_state :=
  mkApp (<[ZIP_DIR := ∅]> (<[SCREENSHOT_DIR := {["1_a.com.png" := Picture]}]> ∅))
    (mkSession ["✅ Success: https://a.com"] true None) [].

(** Pages for a batch whose first task meets the silent exception. *)
Definition first_silent (index : nat) : page :=
  match index with
  | O => silent_page
  | S _ => tall_page
  end.

(** Every task of the list returns a status line. *)
Definition tasks_return {W} (b : Browser W) (env : batch_env W) (tasks : list (nat * string))
    : Prop :=
  forall index url,
    In (index, url) tasks ->
    exists line,
      fst (take_screenshot b url index (start (task_world env index))) = Return line.

(** The characters that the specification bans from artifact names. *)
Definition forbidden_set : list ascii :=
  [ ":"; "/"; "\"; "?"; "*"; "&"; ascii_of_nat 34; "<"; ">"; "|" ]%char.

(** A page whose context cannot be created, with an error of two lines. *)
Definition unreachable_page : page :=
  mkPage 5000 [] 0
    (Some {| exc_is_Exception := true;
             exc_str := "net::ERR_NAME_NOT_RESOLVED" +:+ PyStr.chr 10 +:+ "Call log:" |}).

(** The code [c] takes no screenshot. *)
Definition quiet {W A} (c : Task W A) : Prop :=
  forall s, screenshots (trace (snd (c s))) = screenshots (trace s).

(** The code [c] takes at most one screenshot, and that at [path]. *)
Definition shoots_at_most {W A} (c : Task W A) (path : option string) : Prop :=
  forall s,
    screenshots (trace (snd (c s))) = screenshots (trace s)
    \/ exists p, path = Some p
                 /\ screenshots (trace (snd (c s))) = screenshots (trace s) ++ [p].

Definition empty_session : session_state := mkSession [] false None.

(** The state after the start of the program: both directories exist and
    are empty. *)
Definition fresh_app : app_state :=
  mkApp (<[ZIP_DIR := ∅]> (<[SCREENSHOT_DIR := ∅]> ∅)) empty_session [].

(** Events other than the creation and the closing of a browsing context. *)
Definition not_context_event (e : event) : Prop :=
  match e with
  | EvNewContext _ _ _ _ _ => False
  | EvContextClose => False
  | _ => True
  end.

(** [context.close()] never raises on this browser. *)
Definition close_succeeds {W} (b : Browser W) : Prop :=
  forall w, exists w', context_close b w = (Return tt, w').

(** The code [c] only adds events to the trace, all of them satisfying [Q],
    and leaves the variable [context] as it is. *)
Definition appends {W A} (Q : event -> Prop) (c : Task W A) : Prop :=
  forall s, exists evs,
    trace (snd (c s)) = trace s ++ evs
    /\ Forall Q evs
    /\ context (snd (c s)) = context s.

(** The events of a task up to the settling strategy: context, page,
    request rule, navigation, settle delay. *)
Definition opening_trace (user_agent url : string) (delay : Q) : list event :=
  [ EvNewContext user_agent true 1920 1080 true;
    EvNewPage;
    EvRoute "**/*.{png,jpg,jpeg,gif,svg,woff,woff2,ttf,mp3,mp4,avi}";
    EvGoto url 60000 "domcontentloaded";
    EvSleep delay ].

(** What the task of a batch returns or raises. *)
Definition task_outcome {W} (b : Browser W) (env : batch_env W) (task : nat * string)
    : outcome string :=
  fst (take_screenshot b (snd task) (fst task) (start (task_world env (fst task)))).

(** A page that gets higher during every wait, and whose height nothing
    else changes. *)
Definition grows {W} (b : Browser W) : Prop :=
  (forall w, dom_scrollHeight b (snd (evaluate_gate b w)) = dom_scrollHeight b w)
  /\ (forall dx dy w, dom_scrollHeight b (dom_scrollBy b dx dy w) = dom_scrollHeight b w)
  /\ (forall t w, (dom_scrollHeight b w < dom_scrollHeight b (elapse b t w))%Z).

(** A browser like [scripted_browser] whose pages gain 800 in height at
    every wait. *)
Definition endless_browser : Browser page :=
  {| random_below := random_below scripted_browser;
     random_uniform := random_uniform scripted_browser;
     new_context := new_context scripted_browser;
     new_page := new_page scripted_browser;
     page_route := page_route scripted_browser;
     page_goto := page_goto scripted_browser;
     evaluate_gate := evaluate_gate scripted_browser;
     dom_scrollHeight := page_height;
     dom_innerHeight := dom_innerHeight scripted_browser;
     dom_scrollBy := dom_scrollBy scripted_browser;
     elapse := fun _ w =>
       mkPage (page_height w + 800) (page_upcoming w) (page_scrollY w) (page_fault w);
     page_screenshot := page_screenshot scripted_browser;
     context_close := context_close scripted_browser |}.

(** There is a file at [path]. *)
Definition has_file (a : app_state) (path : string) : Prop :=
  exists f, fst (open_rb path a) = Return f.

(** The artifact store is in order: both directories exist, and a
    remembered archive path names a file that is there. *)
Definition store_ok (a : app_state) : Prop :=
  is_Some (fs a !! SCREENSHOT_DIR)
  /\ is_Some (fs a !! ZIP_DIR)
  /\ (zip_path_set (session a) = true -> has_file a (default "" (zip_path (session a)))).

(** The name of a screenshot of one of the tasks of a batch. *)
Definition artifact_of (urls : list string) (name : string) : Prop :=
  exists index url safe,
    In (index, url) (enumerate urls)
    /\ safe_name url = Some safe
    /\ name = artifact_filename index safe.

(** The screenshot directory holds images of the tasks of this batch
    only, and the archive directory is empty. *)
Definition store_of_batch (urls : list string) (a : app_state) : Prop :=
  fs a !! ZIP_DIR = Some ∅
  /\ exists d, fs a !! SCREENSHOT_DIR = Some d
               /\ forall name f, d !! name = Some f -> f = Picture /\ artifact_of urls name.

(** A string without a slash. *)
Definition no_slash (s : string) : Prop :=
  ~ In "/"%char (list_ascii_of_string s).

(** The code [c] takes no screenshot in a run that raises. *)
Definition quiet_when_raising {W A} (c : Task W A) : Prop :=
  forall s e, fst (c s) = Raise e ->
              screenshots (trace (snd (c s))) = screenshots (trace s).

(** A string without line feed and carriage return. *)
Definition one_line (s : string) : Prop :=
  ~ In "010"%char (list_ascii_of_string s) /\ ~ In "013"%char (list_ascii_of_string s).

(** An address without a double slash. *)
Definition no_double_slash (url : string) : Prop :=
  forall pre post, url <> pre +:+ "//" +:+ post.

(** A string without line feed. *)
Definition no_line_feed (s : string) : Prop :=
  ~ In (ascii_of_nat 10) (list_ascii_of_string s).

(** A string made of white space only: white-space characters one after
    the other. *)
Inductive blank : string -> Prop :=
| blank_empty : blank ""
| blank_space (w s : string) : In w PyStr.whitespace -> blank s -> blank (w +:+ s).

(** A string that neither begins nor ends with a white-space character. *)
Definition trimmed (s : string) : Prop :=
  forall w, In w PyStr.whitespace ->
            String.prefix w s = false /\ forall x, s <> x +:+ w.

(** [line] is [raw] without the white space at its two ends. *)
Definition stripped_of (raw line : string) : Prop :=
  exists lead trail,
    raw = lead +:+ line +:+ trail /\ blank lead /\ blank trail /\ trimmed line.

(** The lines kept of the raw lines of a pasted text: those that are not
    white space only, in their order, each without the white space at its
    two ends. *)
Inductive kept_lines : list string -> list string -> Prop :=
| kept_nil : kept_lines [] []
| kept_drop (raw : string) (raws lines : list string) :
    blank raw -> kept_lines raws lines -> kept_lines (raw :: raws) lines
| kept_keep (raw line : string) (raws lines : list string) :
    stripped_of raw line -> line <> "" -> kept_lines raws lines ->
    kept_lines (raw :: raws) (line :: lines).

(** A line as an address: as it is when it starts with [http://] or
    [https://], and else behind [https://]. *)
Definition with_scheme (line : string) : string :=
  if String.prefix "http://" line || String.prefix "https://" line
  then line
  else "https://" +:+ line.

(* ===================================================================== *)
(** * Properties of the settling strategy *)
(* ===================================================================== *)

Section SettlingFacts.

Context {W : Type} (b : Browser W).

Lemma scroll_loop_run (pause_time : Q) (n : nat) :
  evaluate_succeeds b ->
  forall (last : Z) (s : task_state W),
  exists its s',
    scroll_loop b pause_time n last s = (Return tt, s')
    /\ trace s' = trace s ++ flat_map (iteration_trace pause_time) its
    /\ stops_at_first_repeat n last its
    /\ Forall (read_from_page b) its
    /\ context s' = context s.
Proof.
  intros Hgate. induction n as [|n IH]; intros last s.
  - exists [], s. simpl. rewrite app_nil_r. auto.
  - simpl. unfold bind at 1. unfold page_evaluate at 1.
    destruct (Hgate (world s)) as [w1 Hw1]. rewrite Hw1. simpl.
    unfold bind at 1. unfold asyncio_sleep at 1. simpl.
    unfold bind at 1. unfold page_evaluate at 1. simpl.
    match goal with |- context [evaluate_gate b ?w] =>
      destruct (Hgate w) as [w2 Hw2]; rewrite Hw2 end.
    simpl.
    set (d := dom_scrollHeight b w1).
    set (h := dom_scrollHeight b w2).
    assert (Hread : read_from_page b (d, h)) by (split; eexists; reflexivity).
    destruct (h =? last)%Z eqn:Heq.
    + eexists [(d, h)], _. unfold ret. split; [reflexivity|]. simpl.
      rewrite Heq. repeat split; auto.
      rewrite <- !app_assoc. reflexivity.
    + match goal with |- context [scroll_loop b pause_time n h ?s1] =>
        destruct (IH h s1) as (its & s' & Hrun & Htr & Hstop & Hall & Hctx) end.
      exists ((d, h) :: its), s'. split; [exact Hrun|].
      simpl in *. rewrite Heq, Htr, Hctx. repeat split; auto.
      rewrite <- !app_assoc. reflexivity.
Qed.

Lemma scroll_to_bottom_run (pause_time : Q) (max_scrolls : nat) (s : task_state W) :
  evaluate_succeeds b ->
  exists h0 its s',
    scroll_to_bottom b pause_time max_scrolls s = (Return tt, s')
    /\ trace s' = trace s ++ settle_trace pause_time h0 its
    /\ stops_at_first_repeat max_scrolls h0 its
    /\ (exists w, h0 = dom_scrollHeight b w)
    /\ Forall (read_from_page b) its
    /\ context s' = context s.
Proof.
  intros Hgate. unfold scroll_to_bottom, bind, page_evaluate.
  destruct (Hgate (world s)) as [w1 Hw1]. rewrite Hw1. simpl.
  match goal with |- context [scroll_loop b pause_time max_scrolls ?h ?s1] =>
    destruct (scroll_loop_run pause_time max_scrolls Hgate h s1)
      as (its & s' & Hrun & Htr & Hstop & Hall & Hctx) end.
  exists (dom_scrollHeight b w1), its, s'. split; [exact Hrun|].
  simpl in *. rewrite Htr, Hctx. repeat split; eauto.
  rewrite <- app_assoc. reflexivity.
Qed.

End SettlingFacts.

Lemma reference_height_cons (h0 d h : Z) (pre : list (Z * Z)) :
  reference_height h0 ((d, h) :: pre) = reference_height h pre.
Proof.
  unfold reference_height. simpl map.
  revert h. induction pre as [|[d' h'] pre IH]; intros h; [reflexivity|].
  simpl map. change (List.last (h :: h' :: map snd pre) h0)
    with (List.last (h' :: map snd pre) h0).
  rewrite IH. symmetry.
  change (List.last (h' :: map snd pre) h) with
    (match map snd pre with [] => h' | _ => List.last (map snd pre) h end).
  destruct pre as [|[d2 h2] pre]; [reflexivity|].
  simpl map. specialize (IH h').
  change (List.last (h2 :: map snd pre) h = List.last (h2 :: map snd pre) h').
  clear. revert h2. induction (map snd pre) as [|x l IHl]; intros h2; [reflexivity|].
  change (List.last (x :: l) h = List.last (x :: l) h'). apply IHl.
Qed.

Lemma stops_length (cap : nat) (last : Z) (its : list (Z * Z)) :
  stops_at_first_repeat cap last its -> length its <= cap.
Proof.
  revert cap last. induction its as [|[d h] its IH]; intros cap last H; simpl in *.
  - lia.
  - destruct cap as [|cap]; [contradiction|].
    simpl in H. destruct (h =? last)%Z.
    + subst its. simpl. lia.
    + apply IH in H. lia.
Qed.

Lemma stops_nonempty (cap : nat) (last : Z) (its : list (Z * Z)) :
  stops_at_first_repeat cap last its -> 0 < cap -> its <> [].
Proof. intros H Hcap. destruct its; simpl in H; [exfalso; lia | discriminate]. Qed.

(** A pass that measures the height of the pass before is the last. *)
Lemma stops_on_repeat (cap : nat) (last : Z) (its pre post : list (Z * Z)) (d h : Z) :
  stops_at_first_repeat cap last its ->
  its = pre ++ (d, h) :: post ->
  h = reference_height last pre ->
  post = [].
Proof.
  revert cap last its. induction pre as [|[d' h'] pre IH]; intros cap last its H -> Hh.
  - simpl in *. destruct cap as [|cap]; [contradiction|].
    unfold reference_height in Hh. simpl in Hh. subst h.
    simpl in H. rewrite Z.eqb_refl in H. exact H.
  - simpl in H. destruct cap as [|cap]; [contradiction|].
    rewrite reference_height_cons in Hh. simpl in H.
    destruct (h' =? last)%Z.
    + destruct pre; discriminate.
    + eapply IH; eauto.
Qed.

(** A pass that measures another height than the pass before is followed
    by a further pass, unless the cap is reached. *)
Lemma continues_on_change (cap : nat) (last : Z) (its pre post : list (Z * Z)) (d h : Z) :
  stops_at_first_repeat cap last its ->
  its = pre ++ (d, h) :: post ->
  h <> reference_height last pre ->
  length pre + 1 < cap ->
  post <> [].
Proof.
  revert cap last its. induction pre as [|[d' h'] pre IH]; intros cap last its H -> Hh Hcap.
  - simpl in *. destruct cap as [|cap]; [contradiction|].
    unfold reference_height in Hh. simpl in Hh. simpl in H.
    destruct (Z.eqb_spec h last); [contradiction|].
    destruct post; [|discriminate]. simpl in H. lia.
  - simpl in H. destruct cap as [|cap]; [contradiction|].
    rewrite reference_height_cons in Hh. simpl in H.
    destruct (h' =? last)%Z.
    + destruct pre; discriminate.
    + eapply IH; eauto. simpl in Hcap. lia.
Qed.

(** The loop ends before the cap only on a repeated measurement. *)
Lemma early_stop_is_repeat (cap : nat) (last : Z) (its pre : list (Z * Z)) (d h : Z) :
  stops_at_first_repeat cap last its ->
  its = pre ++ [(d, h)] ->
  length its < cap ->
  h = reference_height last pre.
Proof.
  intros H Hits Hlen.
  destruct (Z.eq_dec h (reference_height last pre)) as [|Hne]; [assumption|].
  exfalso. eapply (continues_on_change cap last its pre [] d h); eauto.
  subst its. rewrite length_app in Hlen. simpl in Hlen. lia.
Qed.

(** C4 (amended): on every page whose [page.evaluate] calls go through, the
    settling strategy records the initial scroll height and makes between
    1 and 30 passes; each pass scrolls by the scroll height of the document
    read at that moment (not by the height of the viewport), sleeps 1
    second and measures the scroll height again; a pass whose measurement
    equals the one before is the last, the loop ends before the 30th pass
    only in that way, and on a page of constant height there is exactly one
    pass. *)
Theorem settling_strategy_trace {W : Type} (b : Browser W) (s : task_state W) :
  evaluate_succeeds b ->
  exists h0 its s',
    scroll_to_bottom b default_pause_time default_max_scrolls s = (Return tt, s')
    /\ trace s' = trace s ++ settle_trace 1 h0 its
    /\ 1 <= length its <= 30
    /\ (exists w, h0 = dom_scrollHeight b w)
    /\ Forall (read_from_page b) its
    /\ (forall pre d h post,
          its = pre ++ (d, h) :: post -> h = reference_height h0 pre -> post = [])
    /\ (forall pre d h,
          its = pre ++ [(d, h)] -> length its < 30 -> h = reference_height h0 pre)
    /\ ((forall w w', dom_scrollHeight b w = dom_scrollHeight b w') -> length its = 1).
Proof.
  intros Hgate.
  destruct (scroll_to_bottom_run b default_pause_time default_max_scrolls s Hgate)
    as (h0 & its & s' & Hrun & Htr & Hstop & Hh0 & Hall & _).
  exists h0, its, s'. split; [exact Hrun|]. split; [exact Htr|].
  assert (Hne : its <> []) by (eapply stops_nonempty; [eassumption | unfold default_max_scrolls; lia]).
  split.
  { apply stops_length in Hstop. unfold default_max_scrolls in Hstop.
    destruct its; [congruence | simpl in *; lia]. }
  split; [exact Hh0|]. split; [exact Hall|].
  split; [intros pre d h post E Hh; eapply stops_on_repeat; eauto|].
  split; [intros pre d h E Hlen; eapply early_stop_is_repeat; eauto|].
  intros Hconst. destruct its as [|[d h] rest]; [congruence|].
  assert (rest = []) as ->; [|reflexivity].
  eapply (stops_on_repeat _ _ _ [] rest d h Hstop); [reflexivity|].
  unfold reference_height. simpl.
  destruct Hh0 as [w0 ->]. inversion Hall as [|? ? [_ [w2 Hw2]] _]. subst.
  simpl in Hw2. rewrite Hw2. apply Hconst.
Qed.

Lemma settling_strategy_trace_witness :
  evaluate_succeeds scripted_browser
  /\ exists h0 its s',
       scroll_to_bottom scripted_browser default_pause_time default_max_scrolls
         (start tall_page) = (Return tt, s')
       /\ trace s' = trace (start tall_page) ++ settle_trace 1 h0 its
       /\ 1 <= length its <= 30
       /\ (exists w, h0 = dom_scrollHeight scripted_browser w)
       /\ Forall (read_from_page scripted_browser) its
       /\ (forall pre d h post,
             its = pre ++ (d, h) :: post -> h = reference_height h0 pre -> post = [])
       /\ (forall pre d h,
             its = pre ++ [(d, h)] -> length its < 30 -> h = reference_height h0 pre)
       /\ ((forall w w', dom_scrollHeight scripted_browser w
                         = dom_scrollHeight scripted_browser w')
           -> length its = 1).
Proof.
  split.
  - intros w. exists w. reflexivity.
  - apply (settling_strategy_trace scripted_browser (start tall_page)).
    intros w. exists w. reflexivity.
Defined.

(** C4 as stated fails: on a page 5000 high in a viewport 1080 high, the
    one scroll of the run is by 5000, the scroll height of the document. *)
Lemma settling_scrolls_by_document_height :
  ~ scrolls_by_viewport (dom_innerHeight scripted_browser tall_page)
      (trace (snd (scroll_to_bottom scripted_browser
                     default_pause_time default_max_scrolls (start tall_page)))).
Proof.
  intros H. specialize (H 0%Z 5000%Z).
  assert (E : 5000%Z = 1080%Z); [|discriminate E].
  apply H. vm_compute. tauto.
Qed.

(** C5 (amended): a pass that measures a smaller height than the pass
    before does not end the settling loop: unless it is the 30th pass, a
    further pass follows; before the cap the loop ends only on a pass whose
    measurement equals the one before. *)
Theorem settling_continues_when_shrinking {W : Type} (b : Browser W) (s : task_state W) :
  evaluate_succeeds b ->
  exists h0 its s',
    scroll_to_bottom b default_pause_time default_max_scrolls s = (Return tt, s')
    /\ trace s' = trace s ++ settle_trace 1 h0 its
    /\ (forall pre d h post,
          its = pre ++ (d, h) :: post ->
          (h < reference_height h0 pre)%Z ->
          length pre + 1 < 30 ->
          post <> [])
    /\ (forall pre d h,
          its = pre ++ [(d, h)] -> length its < 30 -> h = reference_height h0 pre).
Proof.
  intros Hgate.
  destruct (scroll_to_bottom_run b default_pause_time default_max_scrolls s Hgate)
    as (h0 & its & s' & Hrun & Htr & Hstop & _).
  exists h0, its, s'. split; [exact Hrun|]. split; [exact Htr|]. split.
  - intros pre d h post E Hlt Hcap.
    eapply continues_on_change; eauto. lia.
  - intros pre d h E Hlen. eapply early_stop_is_repeat; eauto.
Qed.

Lemma settling_continues_when_shrinking_witness :
  evaluate_succeeds scripted_browser
  /\ exists h0 its s',
       scroll_to_bottom scripted_browser default_pause_time default_max_scrolls
         (start shrinking_page) = (Return tt, s')
       /\ trace s' = trace (start shrinking_page) ++ settle_trace 1 h0 its
       /\ (forall pre d h post,
             its = pre ++ (d, h) :: post ->
             (h < reference_height h0 pre)%Z ->
             length pre + 1 < 30 ->
             post <> [])
       /\ (forall pre d h,
             its = pre ++ [(d, h)] -> length its < 30 -> h = reference_height h0 pre).
Proof.
  split.
  - intros w. exists w. reflexivity.
  - apply (settling_continues_when_shrinking scripted_browser (start shrinking_page)).
    intros w. exists w. reflexivity.
Defined.

(** C5 as stated fails: the page shrinks from 100 to 50 during the first
    pass, and a second pass follows all the same. *)
Lemma settling_does_not_stop_when_shrinking :
  ~ (forall h0 its,
       trace (snd (scroll_to_bottom scripted_browser
                     default_pause_time default_max_scrolls (start shrinking_page)))
       = settle_trace 1 h0 its ->
       stops_when_shrinking h0 its).
Proof.
  intros H.
  specialize (H 100%Z [(100%Z, 50%Z); (50%Z, 50%Z)] eq_refl).
  specialize (H [] 100%Z 50%Z [(50%Z, 50%Z)] eq_refl).
  assert (E : [(50%Z, 50%Z)] = @nil (Z * Z)); [|discriminate E].
  apply H. unfold reference_height. simpl. lia.
Qed.

(* ===================================================================== *)
(** * Properties of strings and artifact names *)
(* ===================================================================== *)

Lemma prefix_app (p s : string) :
  String.prefix p s = true -> exists r, s = p +:+ r.
Proof.
  revert s. induction p as [|a p IH]; intros s H.
  - exists s. reflexivity.
  - destruct s as [|c s]; [discriminate|]. simpl in H.
    destruct (ascii_dec a c) as [->|]; [|discriminate].
    destruct (IH s H) as [r ->]. exists r. reflexivity.
Qed.

Lemma prefix_empty (s : string) : String.prefix "" s = true.
Proof. destruct s; reflexivity. Qed.

Lemma split_aux_nonempty (sep : string) (skip : nat) (s : string) :
  PyStr.split_aux sep skip s <> [].
Proof.
  revert skip. induction s as [|c s IH]; intros skip; simpl; [discriminate|].
  destruct skip; [|apply IH].
  match goal with |- context [if ?c then _ else _] => destruct c end; [discriminate|].
  destruct (PyStr.split_aux sep 0 s); discriminate.
Qed.

(** An address with one of the two schemes has a second piece around its
    double slash. *)
Lemma has_scheme_split (url : string) :
  has_scheme url = true ->
  exists rest, nth_error (PyStr.split url "//") 1 = Some rest.
Proof.
  unfold has_scheme, PyStr.startswith_any, PyStr.startswith. simpl.
  rewrite orb_false_r. intros H. apply orb_true_iff in H.
  destruct H as [H|H]; apply prefix_app in H; destruct H as [r ->];
    unfold PyStr.split; simpl; rewrite prefix_empty;
    change ("" +:+ r) with r;
    (destruct (PyStr.split_aux "//" 0 r) as [|x xs] eqn:E;
     [exfalso; exact (split_aux_nonempty _ _ _ E) | exists x; reflexivity]).
Qed.

Lemma in_class_app (c : ascii) (x y : string) :
  In c (list_ascii_of_string (x +:+ y)) ->
  In c (list_ascii_of_string x) \/ In c (list_ascii_of_string y).
Proof.
  induction x as [|a x IH]; simpl; [auto|].
  intros [->|H]; [auto|]. destruct (IH H); auto.
Qed.

(** After the substitution no character of the class is left, provided the
    replacement has none. *)
Lemma re_sub_class_clean (cls repl s : string) (c : ascii) :
  (forall d, In d (list_ascii_of_string repl) -> PyStr.in_class d cls = false) ->
  In c (list_ascii_of_string (PyStr.re_sub_class cls repl s)) ->
  PyStr.in_class c cls = false.
Proof.
  intros Hrepl. induction s as [|a s IH]; simpl; [contradiction|].
  intros H. apply in_class_app in H. destruct H as [H|H]; [|auto].
  destruct (PyStr.in_class a cls) eqn:E; [auto|].
  simpl in H. destruct H as [<-|[]]. exact E.
Qed.

Lemma digits_underscore_inj (d1 d2 : uint) (x y : string) :
  NilEmpty.string_of_uint d1 +:+ String "_" x
  = NilEmpty.string_of_uint d2 +:+ String "_" y ->
  d1 = d2.
Proof.
  revert d2. induction d1; intros d2 H; destruct d2; simpl in H;
    try discriminate H; try reflexivity;
    injection H as H; f_equal; auto.
Qed.

Lemma artifact_filename_inj (i j : nat) (n1 n2 : string) :
  artifact_filename i n1 = artifact_filename j n2 -> i = j.
Proof.
  unfold artifact_filename, PyStr.str_of_nat. intros H.
  apply digits_underscore_inj in H. apply Unsigned.to_uint_inj in H. lia.
Qed.

Lemma artifact_filename_relative (i : nat) (n : string) :
  PyStr.startswith (artifact_filename i n) "/" = false.
Proof.
  unfold artifact_filename, PyStr.str_of_nat, PyStr.startswith.
  destruct (Nat.to_uint (i + 1)); reflexivity.
Qed.

Lemma os_path_join_screenshots (name : string) :
  PyStr.startswith name "/" = false ->
  PyStr.os_path_join SCREENSHOT_DIR name = "screenshots/" +:+ name.
Proof. intros H. unfold PyStr.os_path_join. rewrite H. reflexivity. Qed.

(** Tasks with different indices have different artifact paths. *)
Lemma screenshot_path_distinct (url1 url2 : string) (i j : nat) (p1 p2 : string) :
  screenshot_path url1 i = Some p1 ->
  screenshot_path url2 j = Some p2 ->
  i <> j ->
  p1 <> p2.
Proof.
  unfold screenshot_path. intros H1 H2 Hij E.
  destruct (safe_name url1) as [n1|]; [|discriminate].
  destruct (safe_name url2) as [n2|]; [|discriminate].
  injection H1 as <-. injection H2 as <-.
  rewrite !os_path_join_screenshots in E by apply artifact_filename_relative.
  simpl in E. injection E as E. apply artifact_filename_inj in E. contradiction.
Qed.

Lemma splitlines_nonempty (s : string) :
  s <> "" -> exists l ls, PyStr.splitlines s = l :: ls.
Proof.
  destruct s as [|c s]; [congruence|]. intros _. unfold PyStr.splitlines.
  change (PyStr.splitlines_aux 0 (String c s)) with
    (match PyStr.match_len PyStr.line_boundaries (String c s) with
     | S k => "" :: PyStr.splitlines_aux k s
     | O => match PyStr.splitlines_aux 0 s with
            | [] => [String c ""]
            | l :: ls => String c l :: ls
            end
     end).
  destruct (PyStr.match_len PyStr.line_boundaries (String c s)); [|eauto].
  destruct (PyStr.splitlines_aux 0 s); eauto.
Qed.

(* ===================================================================== *)
(** * Properties of the capture task *)
(* ===================================================================== *)

Lemma screenshots_app (l1 l2 : list event) :
  screenshots (l1 ++ l2) = screenshots l1 ++ screenshots l2.
Proof. apply flat_map_app. Qed.

Section TaskFacts.

Context {W : Type} (b : Browser W).

Lemma quiet_ret {A} (a : A) : quiet (ret a : Task W A).
Proof. intros s. reflexivity. Qed.

Lemma quiet_raise {A} (e : exception) : quiet (raise e : Task W A).
Proof. intros s. reflexivity. Qed.

Lemma quiet_bind {A B} (c : Task W A) (k : A -> Task W B) :
  quiet c -> (forall a, quiet (k a)) -> quiet (bind c k).
Proof.
  intros Hc Hk s. unfold bind. specialize (Hc s).
  destruct (c s) as [[a|e] s1]; simpl in *; [|exact Hc].
  rewrite Hk. exact Hc.
Qed.

Lemma quiet_call {A} (f : W -> outcome A * W) (evs : A -> list event) :
  (forall a, screenshots (evs a) = []) -> quiet (call f evs).
Proof.
  intros Hevs s. unfold call. destruct (f (world s)) as [[a|e] w']; simpl; [|reflexivity].
  rewrite screenshots_app, Hevs. apply app_nil_r.
Qed.

Lemma quiet_draw {A} (f : W -> A * W) : quiet (draw f).
Proof. intros s. unfold draw. destruct (f (world s)). reflexivity. Qed.

Lemma quiet_sleep (t : Q) : quiet (asyncio_sleep b t).
Proof.
  intros s. unfold asyncio_sleep. simpl. rewrite screenshots_app. apply app_nil_r.
Qed.

Lemma quiet_page_evaluate {A} (js : W -> A * W * list event) :
  (forall w, screenshots (snd (js w)) = []) -> quiet (page_evaluate b js).
Proof.
  intros Hjs s. unfold page_evaluate.
  destruct (evaluate_gate b (world s)) as [[[]|e] w1]; [|reflexivity].
  specialize (Hjs w1). destruct (js w1) as [[a w2] evs]. simpl in *.
  rewrite screenshots_app, Hjs. apply app_nil_r.
Qed.

Lemma quiet_scroll_loop (pause_time : Q) (n : nat) (last : Z) :
  quiet (scroll_loop b pause_time n last).
Proof.
  revert last. induction n as [|n IH]; intros last; simpl.
  - apply quiet_ret.
  - apply quiet_bind; [apply quiet_page_evaluate; reflexivity|]. intros _.
    apply quiet_bind; [apply quiet_sleep|]. intros _.
    apply quiet_bind; [apply quiet_page_evaluate; reflexivity|]. intros h.
    destruct (h =? last)%Z; [apply quiet_ret | apply IH].
Qed.

Lemma quiet_scroll_to_bottom (pause_time : Q) (max_scrolls : nat) :
  quiet (scroll_to_bottom b pause_time max_scrolls).
Proof.
  apply quiet_bind; [apply quiet_page_evaluate; reflexivity|]. intros h.
  apply quiet_scroll_loop.
Qed.

Lemma quiet_handler (url : string) (e : exception) :
  quiet (take_screenshot_handler url e : Task W string).
Proof.
  unfold take_screenshot_handler.
  destruct (PyStr.splitlines (exc_str e)); [apply quiet_raise | apply quiet_ret].
Qed.

Lemma quiet_finally : quiet (take_screenshot_finally b).
Proof.
  apply quiet_bind; [intros s; reflexivity|]. intros [c|].
  - apply quiet_call. reflexivity.
  - apply quiet_ret.
Qed.

Lemma shoots_quiet {A} (c : Task W A) (path : option string) :
  quiet c -> shoots_at_most c path.
Proof. intros H s. left. apply H. Qed.

Lemma shoots_bind_quiet {A B} (c : Task W A) (k : A -> Task W B) (path : option string) :
  quiet c -> (forall a, shoots_at_most (k a) path) -> shoots_at_most (bind c k) path.
Proof.
  intros Hc Hk s. unfold bind. specialize (Hc s).
  destruct (c s) as [[a|e] s1]; simpl in *; [|left; exact Hc].
  rewrite <- Hc. apply Hk.
Qed.

Lemma shoots_body (url : string) (index : nat) :
  shoots_at_most (take_screenshot_body b url index) (screenshot_path url index).
Proof.
  unfold take_screenshot_body.
  apply shoots_bind_quiet.
  { apply quiet_bind; [apply quiet_draw | intros; apply quiet_ret]. }
  intros user_agent.
  apply shoots_bind_quiet; [apply quiet_call; reflexivity|]. intros _.
  apply shoots_bind_quiet; [intros s; reflexivity|]. intros _.
  apply shoots_bind_quiet; [apply quiet_call; reflexivity|]. intros _.
  apply shoots_bind_quiet; [apply quiet_call; reflexivity|]. intros _.
  apply shoots_bind_quiet; [apply quiet_call; reflexivity|]. intros _.
  apply shoots_bind_quiet; [apply quiet_draw|]. intros delay.
  apply shoots_bind_quiet; [apply quiet_sleep|]. intros _.
  apply shoots_bind_quiet; [apply quiet_scroll_to_bottom|]. intros _.
  destruct (screenshot_path url index) as [path|]; [|apply shoots_quiet, quiet_raise].
  intros s. unfold bind, call.
  destruct (page_screenshot b path (world s)) as [[[]|e] w']; simpl.
  - right. exists path. split; [reflexivity|]. apply screenshots_app.
  - left. reflexivity.
Qed.

(** A task takes at most one screenshot, at the path made of its own
    index and address. *)
Lemma shoots_take_screenshot (url : string) (index : nat) :
  shoots_at_most (take_screenshot b url index) (screenshot_path url index).
Proof.
  intros s. unfold take_screenshot, try_finally, try_except.
  pose proof (shoots_body url index s) as Hbody.
  destruct (take_screenshot_body b url index s) as [[line|e] s1]; simpl in Hbody.
  - pose proof (quiet_finally s1) as Hfin.
    destruct (take_screenshot_finally b s1) as [[[]|e] s2]; simpl in *;
      rewrite Hfin; exact Hbody.
  - assert (Hmid : exists r s2,
              (if exc_is_Exception e then take_screenshot_handler url e s1 else (Raise e, s1))
              = (r, s2)
              /\ screenshots (trace s2) = screenshots (trace s1)).
    { destruct (exc_is_Exception e).
      - pose proof (quiet_handler url e s1) as Hh.
        destruct (take_screenshot_handler url e s1) as [r s2]. eauto.
      - eauto. }
    destruct Hmid as (r & s2 & -> & Hs2).
    pose proof (quiet_finally s2) as Hfin.
    destruct (take_screenshot_finally b s2) as [[[]|e'] s3]; simpl in *;
      rewrite Hfin, Hs2; exact Hbody.
Qed.

(** An exception of the [try] block that [except Exception] catches and
    whose description has a first line becomes a failure line, when closing
    the context goes through. *)
Lemma take_screenshot_catches (url : string) (index : nat) (s s1 : task_state W)
    (e : exception) (l : string) (ls : list string) :
  take_screenshot_body b url index s = (Raise e, s1) ->
  exc_is_Exception e = true ->
  PyStr.splitlines (exc_str e) = l :: ls ->
  fst (take_screenshot_finally b s1) = Return tt ->
  fst (take_screenshot b url index s) = Return (failure_line url l).
Proof.
  intros Hbody Hexc Hlines Hfin.
  unfold take_screenshot, try_finally, try_except.
  rewrite Hbody, Hexc. unfold take_screenshot_handler. rewrite Hlines.
  unfold ret. destruct (take_screenshot_finally b s1) as [[[]|e'] s2]; simpl in *;
    [reflexivity | discriminate].
Qed.

End TaskFacts.

(** [take_screenshot] on an exception with a description: the failure line
    carries its first line. *)
Example take_screenshot_unreachable (url : string) (index : nat) :
  fst (take_screenshot scripted_browser url index (start unreachable_page))
  = Return (failure_line url "net::ERR_NAME_NOT_RESOLVED").
Proof. reflexivity. Qed.

(** The silent exception at the creation of the context leaves the task as
    an [IndexError], whatever the address. *)
Example take_screenshot_on_silent_page (url : string) (index : nat) :
  fst (take_screenshot scripted_browser url index (start silent_page)) = Raise IndexError.
Proof. reflexivity. Qed.

(** C1: when the [try] block raises an instance of [Exception] whose
    description is the empty string, no failure line is produced:
    [str(e).splitlines()] is the empty list, its subscript raises
    [IndexError] inside the handler, and an exception leaves
    [take_screenshot] (that [IndexError], unless closing the context raises
    in its turn). *)
Theorem take_screenshot_silent_exception_escapes {W : Type} (b : Browser W)
    (url : string) (index : nat) (s s1 : task_state W) (e : exception) :
  take_screenshot_body b url index s = (Raise e, s1) ->
  exc_is_Exception e = true ->
  exc_str e = "" ->
  exists e',
    fst (take_screenshot b url index s) = Raise e'
    /\ (fst (take_screenshot_finally b s1) = Return tt -> e' = IndexError).
Proof.
  intros Hbody Hexc Hstr.
  unfold take_screenshot, try_finally, try_except.
  rewrite Hbody, Hexc. unfold take_screenshot_handler. rewrite Hstr.
  change (PyStr.splitlines "") with (@nil string). unfold raise.
  destruct (take_screenshot_finally b s1) as [[[]|e'] s2]; simpl.
  - exists IndexError. auto.
  - exists e'. split; [reflexivity | discriminate].
Qed.

Lemma take_screenshot_silent_exception_escapes_witness :
  take_screenshot_body scripted_browser "https://a.com" 0 (start silent_page)
  = (Raise silent_exception, start silent_page)
  /\ exc_is_Exception silent_exception = true
  /\ exc_str silent_exception = ""
  /\ exists e',
       fst (take_screenshot scripted_browser "https://a.com" 0 (start silent_page)) = Raise e'
       /\ (fst (take_screenshot_finally scripted_browser (start silent_page)) = Return tt ->
           e' = IndexError).
Proof.
  split; [reflexivity|]. split; [reflexivity|]. split; [reflexivity|].
  apply (take_screenshot_silent_exception_escapes scripted_browser "https://a.com" 0
           (start silent_page) (start silent_page) silent_exception);
    reflexivity.
Defined.

Lemma forbidden_set_in_class (c : ascii) :
  In c forbidden_set -> PyStr.in_class c forbidden_chars = true.
Proof.
  unfold forbidden_set. simpl.
  intros H. repeat (destruct H as [<-|H]; [reflexivity|]). contradiction.
Qed.

(** C7: for every address that starts with one of the two schemes, the
    sanitized name exists and holds none of the characters colon, slash,
    backslash, question mark, star, ampersand, double quote, less, greater
    and bar. *)
Theorem safe_name_has_no_forbidden_character (url : string) :
  has_scheme url = true ->
  exists name,
    safe_name url = Some name
    /\ forall c, In c (list_ascii_of_string name) -> ~ In c forbidden_set.
Proof.
  intros H. destruct (has_scheme_split url H) as [rest Hrest].
  unfold safe_name. rewrite Hrest. eexists. split; [reflexivity|].
  intros c Hc Hbad. apply forbidden_set_in_class in Hbad.
  apply re_sub_class_clean in Hc; [congruence|].
  intros d [<-|[]]. reflexivity.
Qed.

Lemma safe_name_has_no_forbidden_character_witness :
  has_scheme "https://a.com/x?y=1&z" = true
  /\ exists name,
       safe_name "https://a.com/x?y=1&z" = Some name
       /\ forall c, In c (list_ascii_of_string name) -> ~ In c forbidden_set.
Proof.
  split.
  - reflexivity.
  - apply (safe_name_has_no_forbidden_character "https://a.com/x?y=1&z"). reflexivity.
Defined.

Lemma map_fst_combine_seq {A} (l : list A) (n : nat) :
  map fst (combine (seq n (length l)) l) = seq n (length l).
Proof.
  revert n. induction l as [|x l IH]; intros n; simpl; [reflexivity|].
  f_equal. apply IH.
Qed.

Lemma enumerate_indices {A} (l : list A) :
  map fst (enumerate l) = seq 0 (length l).
Proof. apply map_fst_combine_seq. Qed.

Lemma enumerate_length {A} (l : list A) : length (enumerate l) = length l.
Proof. rewrite <- (length_map fst), enumerate_indices. apply length_seq. Qed.

(** Lists of at most one path each, the paths being those of tasks with
    different indices, make a list without repetition. *)
Lemma NoDup_flat_map_tasks (f : nat * string -> list string) (l : list (nat * string)) :
  List.NoDup (map fst l) ->
  (forall t, In t l ->
     f t = [] \/ exists p, screenshot_path (snd t) (fst t) = Some p /\ f t = [p]) ->
  List.NoDup (flat_map f l).
Proof.
  induction l as [|t l IH]; intros Hnd Hf; simpl; [constructor|].
  inversion Hnd as [|? ? Hnotin Hnd']; subst.
  assert (IHl : List.NoDup (flat_map f l)) by (apply IH; [assumption | intros; apply Hf; simpl; auto]).
  destruct (Hf t (or_introl eq_refl)) as [->|(p & Hp & ->)]; [exact IHl|].
  simpl. constructor; [|exact IHl].
  intros Hin. apply in_flat_map in Hin. destruct Hin as (t' & Ht' & Hin).
  destruct (Hf t' (or_intror Ht')) as [E|(p' & Hp' & E)]; rewrite E in Hin; simpl in Hin;
    [contradiction|].
  destruct Hin as [<-|[]].
  assert (Hne : fst t <> fst t').
  { intros E'. apply Hnotin. rewrite E'. apply in_map. exact Ht'. }
  exact (screenshot_path_distinct _ _ _ _ _ _ Hp Hp' Hne eq_refl).
Qed.

(** C6: in every batch the paths of the screenshots that its tasks take
    are pairwise distinct; two pasted lines with the same address make two
    tasks, two status lines and the two files [1_a.com.png] and
    [2_a.com.png]. *)
Theorem artifact_filenames_distinct :
  (forall (W : Type) (b : Browser W) (env : batch_env W) (urls : list string),
      List.NoDup (batch_artifacts b env urls))
  /\ (let url_input := "a.com" +:+ PyStr.chr 10 +:+ "a.com" in
      let urls := ["https://a.com"; "https://a.com"] in
      let env := in_order_env (fun _ => tall_page) in
      let run := run_batch_processor scripted_browser env urls fresh_app in
      fst (input_area None url_input fresh_app) = Return urls
      /\ length (enumerate urls) = 2
      /\ fst run = Return tt
      /\ logs (session (snd run)) = [success_line "https://a.com"; success_line "https://a.com"]
      /\ batch_artifacts scripted_browser env urls
         = ["screenshots/1_a.com.png"; "screenshots/2_a.com.png"]
      /\ fs (snd run) !! SCREENSHOT_DIR
         = Some (<["1_a.com.png" := Picture]> (<["2_a.com.png" := Picture]> ∅))).
Proof.
  split.
  - intros W b env urls. unfold batch_artifacts.
    apply NoDup_flat_map_tasks.
    + rewrite enumerate_indices. apply seq_NoDup.
    + intros [index url] _. simpl.
      destruct (shoots_take_screenshot b url index (start (task_world env index)))
        as [H|(p & Hp & H)]; simpl in H; [left; exact H | right; eauto].
  - repeat split; vm_compute; reflexivity.
Qed.

(* ===================================================================== *)
(** * Properties of the batch processor *)
(* ===================================================================== *)

Lemma write_file_session (path : string) (f : file) (a : app_state) :
  session (write_file path f a) = session a /\ ui (write_file path f a) = ui a.
Proof. unfold write_file. destruct (PyStr.os_path_split path). split; reflexivity. Qed.

Lemma persist_session (tr : list event) (a : app_state) :
  session (persist tr a) = session a /\ ui (persist tr a) = ui a.
Proof.
  revert a. induction tr as [|e tr IH]; intros a; simpl; [auto|].
  destruct e; try apply IH.
  destruct (IH (write_file path Picture a)) as [-> ->]. apply write_file_session.
Qed.

Lemma abandoned_session {W : Type} (b : Browser W) (env : batch_env W)
    (futures : list (nat * string)) (a : app_state) :
  session (abandoned b env futures a) = session a
  /\ ui (abandoned b env futures a) = ui a.
Proof.
  revert a. induction futures as [|[index url] futures IH]; intros a; simpl; [auto|].
  match goal with |- context [abandoned b env futures ?a1] =>
    destruct (IH a1) as [-> ->] end.
  apply persist_session.
Qed.

Lemma progress_events_app (l1 l2 : list ui_event) :
  progress_events (l1 ++ l2) = progress_events l1 ++ progress_events l2.
Proof. apply flat_map_app. Qed.

Section BatchFacts.

Context {W : Type} (b : Browser W) (env : batch_env W).

(** When every awaited task returns, the loop appends one status line
    and shows one progress event per task, counting on from [i + 1]. *)
Lemma await_loop_all_return (total_tasks : nat) (futures : list (nat * string)) :
  tasks_return b env futures ->
  forall (i : nat) (a : app_state),
  exists a',
    await_loop b env total_tasks i futures a = (Return tt, a')
    /\ length (logs (session a')) = length (logs (session a)) + length futures
    /\ progress_events (ui a')
       = progress_events (ui a)
         ++ map (fun k => (k, total_tasks)) (seq (i + 1) (length futures))
    /\ processing_complete (session a') = processing_complete (session a)
    /\ zip_path (session a') = zip_path (session a).
Proof.
  induction futures as [|[index url] futures IH]; intros Hret i a.
  - exists a. simpl. rewrite app_nil_r. repeat split; lia.
  - destruct (Hret index url (or_introl eq_refl)) as [line Hline].
    simpl. destruct (take_screenshot b url index (start (task_world env index)))
      as [r ts]. simpl in Hline. subst r.
    match goal with |- context [await_loop b env total_tasks (S i) futures ?a4] =>
      destruct (IH (fun i' u' H => Hret i' u' (or_intror H)) (S i) a4)
        as (a' & Hrun & Hlen & Hprog & Hpc & Hzip) end.
    exists a'. split; [exact Hrun|].
    destruct (persist_session (trace ts) a) as [Hs Hu].
    simpl in *. rewrite Hs, Hu in *.
    rewrite Hlen, Hprog, Hpc, Hzip. repeat split.
    + rewrite length_app. simpl. lia.
    + rewrite !progress_events_app. simpl. rewrite <- !app_assoc. simpl.
      replace (S i + 1) with (S (i + 1)) by lia. reflexivity.
Qed.

(** A batch that launches, whose tasks all return and whose browser
    closes, leaves one status line per address and the progress events
    1 of N, 2 of N, ..., N of N. *)
Lemma run_batch_all_return (urls : list string) (a : app_state) :
  launch env = Return tt ->
  browser_close env = Return tt ->
  Permutation (as_completed env (enumerate urls)) (enumerate urls) ->
  tasks_return b env (enumerate urls) ->
  exists a',
    run_batch_processor b env urls a = (Return tt, a')
    /\ length (logs (session a')) = length urls
    /\ progress_events (ui a')
       = progress_events (ui a)
         ++ map (fun k => (k, length urls)) (seq 1 (length urls))
    /\ processing_complete (session a') = true.
Proof.
  intros Hlaunch Hclose Hperm Hret.
  assert (Hret' : tasks_return b env (as_completed env (enumerate urls))).
  { intros index url Hin. apply Hret. eapply Permutation_in; eassumption. }
  unfold run_batch_processor, bind, modify. rewrite Hlaunch.
  match goal with |- context [await_loop b env ?t 0 ?f ?a0] =>
    destruct (await_loop_all_return t f Hret' 0 a0)
      as (a' & Hrun & Hlen & Hprog & Hpc & Hzip); rewrite Hrun end.
  rewrite Hclose. eexists. split; [reflexivity|].
  apply Permutation_length in Hperm. rewrite enumerate_length in *.
  simpl in *. rewrite progress_events_app, Hprog, progress_events_app, Hperm, Hlen.
  simpl. rewrite !app_nil_r. repeat split. lia.
Qed.

End BatchFacts.

(** C2: with two addresses of which the first meets an exception without
    description, [await future] raises the [IndexError] that left the task:
    the batch ends with no status line and no progress event, not with two
    of each. *)
Theorem run_batch_silent_exception_aborts :
  let urls := ["https://a.com"; "https://b.com"] in
  let run := run_batch_processor scripted_browser (in_order_env first_silent) urls fresh_app in
  fst run = Raise IndexError
  /\ logs (session (snd run)) = []
  /\ progress_events (ui (snd run)) = []
  /\ processing_complete (session (snd run)) = false.
Proof. repeat split; vm_compute; reflexivity. Qed.

(** The same two addresses on pages that load: two status lines, and the
    progress events 1 of 2 and 2 of 2. *)
Example run_batch_two_pages :
  let urls := ["https://a.com"; "https://b.com"] in
  let run := run_batch_processor scripted_browser (in_order_env (fun _ => tall_page))
               urls fresh_app in
  fst run = Return tt
  /\ length (logs (session (snd run))) = 2
  /\ progress_events (ui (snd run)) = [(1, 2); (2, 2)].
Proof. repeat split; vm_compute; reflexivity. Qed.

(* ===================================================================== *)
(** * Properties of the input handlers *)
(* ===================================================================== *)

Lemma has_scheme_https (s : string) : has_scheme ("https://" +:+ s) = true.
Proof.
  unfold has_scheme, PyStr.startswith_any, PyStr.startswith. simpl.
  rewrite prefix_empty. reflexivity.
Qed.

(** Pasted lines all leave [add_scheme] with a scheme, and a line that has
    one already is kept as it is. *)
Lemma add_scheme_spec (lines : list string) :
  Forall (fun url => has_scheme url = true) (add_scheme lines)
  /\ Forall2 (fun line url => if has_scheme line then url = line
                              else url = "https://" +:+ line)
       lines (add_scheme lines).
Proof.
  induction lines as [|line lines [IH1 IH2]]; [split; constructor|].
  change (add_scheme (line :: lines))
    with ((if negb (has_scheme line) then "https://" +:+ line else line)
          :: add_scheme lines).
  destruct (has_scheme line) eqn:E; simpl negb; cbv iota.
  - split; constructor; auto. rewrite E. reflexivity.
  - split; constructor; auto using has_scheme_https. rewrite E. reflexivity.
Qed.

(** Addresses read from a CSV file all carry the scheme that was put in
    front of them. *)
Lemma csv_urls_have_scheme (cells : list string) :
  Forall (fun url => has_scheme url = true) (map (fun url => "https://" +:+ url) cells).
Proof. apply Forall_map. apply Forall_forall. intros; apply has_scheme_https. Qed.

(** C3: a value of the CSV column that already starts with a scheme is not
    passed through unchanged: the upload handler puts [https://] in front of
    every value, while the paste handler leaves the same text as it is. *)
Theorem csv_upload_prefixes_every_value :
  fst (csv_upload_handler (Some (Return [("name", [Some "https://a.com"])])) fresh_app)
  = Return ["https://https://a.com"]
  /\ fst (paste_handler "https://a.com" [] fresh_app) = Return ["https://a.com"]
  /\ fst (paste_handler "a.com" [] fresh_app) = Return ["https://a.com"].
Proof. repeat split; vm_compute; reflexivity. Qed.

Lemma existsb_eqb_In (x : string) (l : list string) :
  existsb (String.eqb x) l = true <-> In x l.
Proof.
  rewrite existsb_exists. split.
  - intros (y & Hy & E). apply String.eqb_eq in E. subst. exact Hy.
  - intros H. exists x. split; [exact H | apply String.eqb_refl].
Qed.

Lemma unique_aux_spec (l seen : list string) :
  List.NoDup (unique_aux seen l)
  /\ forall x, In x (unique_aux seen l) <-> In x l /\ ~ In x seen.
Proof.
  revert seen. induction l as [|y l IH]; intros seen; simpl.
  - split; [constructor | intros x; tauto].
  - destruct (existsb (String.eqb y) seen) eqn:E.
    + apply existsb_eqb_In in E. destruct (IH seen) as [Hnd Hin].
      split; [exact Hnd|]. intros x. rewrite Hin. split; [tauto|].
      intros [[<-|H] Hx]; [contradiction | tauto].
    + assert (Hy : ~ In y seen).
      { intros H. apply existsb_eqb_In in H. congruence. }
      destruct (IH (y :: seen)) as [Hnd Hin]. split.
      * constructor; [|exact Hnd]. rewrite Hin. simpl. tauto.
      * intros x. simpl. rewrite Hin. simpl.
        destruct (string_dec y x) as [->|Hne]; tauto.
Qed.

Lemma unique_spec (l : list string) :
  List.NoDup (unique l) /\ forall x, In x (unique l) <-> In x l.
Proof.
  destruct (unique_aux_spec l []) as [Hnd Hin]. split; [exact Hnd|].
  intros x. unfold unique. rewrite Hin. simpl. tauto.
Qed.

Lemma dropna_spec (cells : list (option string)) (v : string) :
  In v (dropna cells) <-> In (Some v) cells.
Proof.
  induction cells as [|[w|] cells IH]; simpl; [tauto| |].
  - rewrite IH. split; intros [H|H]; auto; left; congruence.
  - rewrite IH. split; [auto|]. intros [H|H]; [discriminate | exact H].
Qed.

Lemma append_inj (p x y : string) : p +:+ x = p +:+ y -> x = y.
Proof. induction p as [|a p IH]; simpl; intros H; [exact H|]. injection H as H. auto. Qed.

Lemma NoDup_map_prefix (p : string) (l : list string) :
  List.NoDup l -> List.NoDup (map (fun x => p +:+ x) l).
Proof.
  induction 1 as [|x l Hx Hnd IH]; simpl; constructor; [|exact IH].
  rewrite in_map_iff. intros (y & E & Hy). apply append_inj in E. subst. contradiction.
Qed.

(** C10: the addresses taken from the [name] column of an uploaded CSV
    file (nothing being pasted) are its values without the missing ones and
    without repetition, each with [https://] in front: every value of the
    column gives exactly one address and so one capture task; a file with
    [a.com] twice gives one task and, on a page that loads, one status
    line; the same two lines pasted give two addresses. *)
Theorem csv_upload_drops_duplicates (df : dataframe) (cells : list (option string))
    (a : app_state) :
  df_column "name" df = Some cells ->
  exists urls,
    fst (input_area (Some (Return df)) "" a) = Return urls
    /\ urls = map (fun url => "https://" +:+ url) (unique (dropna cells))
    /\ List.NoDup urls
    /\ (forall v, In (Some v) cells <-> In ("https://" +:+ v) urls)
    /\ length (enumerate urls) = length urls
    /\ fst (input_area (Some (Return [("name", [Some "a.com"; None; Some "a.com"])])) "" a)
       = Return ["https://a.com"]
    /\ fst (input_area None ("a.com" +:+ PyStr.chr 10 +:+ "a.com") a)
       = Return ["https://a.com"; "https://a.com"]
    /\ logs (session (snd (run_batch_processor scripted_browser
                              (in_order_env (fun _ => tall_page))
                              ["https://a.com"] fresh_app)))
       = [success_line "https://a.com"].
Proof.
  intros Hcol. eexists. split.
  { unfold input_area, csv_upload_handler, bind, modify. rewrite Hcol. reflexivity. }
  destruct (unique_spec (dropna cells)) as [Hnd Hin].
  split; [reflexivity|]. split; [apply NoDup_map_prefix, Hnd|]. split.
  { intros v. rewrite in_map_iff, <- dropna_spec, <- Hin. split.
    - intros H. exists v. auto.
    - intros (y & E & Hy). apply append_inj in E. subst. exact Hy. }
  split; [apply enumerate_length|]. split; [reflexivity|]. split; [reflexivity|].
  vm_compute. reflexivity.
Qed.

Lemma csv_upload_drops_duplicates_witness :
  df_column "name" [("name", [Some "b.org"; Some "a.com"; None; Some "b.org"])]
  = Some [Some "b.org"; Some "a.com"; None; Some "b.org"]
  /\ exists urls,
       fst (input_area
              (Some (Return [("name", [Some "b.org"; Some "a.com"; None; Some "b.org"])]))
              "" fresh_app) = Return urls
       /\ urls = map (fun url => "https://" +:+ url)
                   (unique (dropna [Some "b.org"; Some "a.com"; None; Some "b.org"]))
       /\ List.NoDup urls
       /\ (forall v, In (Some v) [Some "b.org"; Some "a.com"; None; Some "b.org"]
                     <-> In ("https://" +:+ v) urls)
       /\ length (enumerate urls) = length urls
       /\ fst (input_area (Some (Return [("name", [Some "a.com"; None; Some "a.com"])]))
                 "" fresh_app)
          = Return ["https://a.com"]
       /\ fst (input_area None ("a.com" +:+ PyStr.chr 10 +:+ "a.com") fresh_app)
          = Return ["https://a.com"; "https://a.com"]
       /\ logs (session (snd (run_batch_processor scripted_browser
                                 (in_order_env (fun _ => tall_page))
                                 ["https://a.com"] fresh_app)))
          = [success_line "https://a.com"].
Proof.
  split.
  - reflexivity.
  - apply (csv_upload_drops_duplicates
             [("name", [Some "b.org"; Some "a.com"; None; Some "b.org"])]
             [Some "b.org"; Some "a.com"; None; Some "b.org"] fresh_app).
    reflexivity.
Defined.

(* ===================================================================== *)
(** * Properties of the artifact store *)
(* ===================================================================== *)

(** Whatever was at [directory], the loop body of [flush_files] leaves an
    empty directory there and raises nothing. *)
Lemma flush_directory_run (directory : string) (a : app_state) :
  flush_directory directory a = (Return tt, set_fs (insert directory ∅) a).
Proof.
  unfold flush_directory, bind, os_path_exists, shutil_rmtree, os_makedirs.
  destruct (fs a !! directory) as [d|] eqn:E.
  - simpl. rewrite lookup_delete_eq. unfold set_fs. simpl.
    rewrite insert_delete_eq. reflexivity.
  - rewrite E. reflexivity.
Qed.

Lemma flush_files_run (a : app_state) :
  flush_files a
  = (Return tt,
     mkApp (<[ZIP_DIR := ∅]> (<[SCREENSHOT_DIR := ∅]> (fs a)))
       (mkSession [] false None)
       (ui a ++ [UiToast "🧹 All screenshots and ZIP files have been flushed."])).
Proof.
  unfold flush_files, bind. rewrite !flush_directory_run. reflexivity.
Qed.


Lemma write_file_keeps_directories (path : string) (f : file) (a : app_state)
    (directory : string) :
  is_Some (fs a !! directory) -> is_Some (fs (write_file path f a) !! directory).
Proof.
  unfold write_file. destruct (PyStr.os_path_split path) as [dir name]. simpl.
  intros H. destruct (decide (dir = directory)) as [->|Hne].
  - rewrite lookup_insert_eq. eauto.
  - rewrite lookup_insert_ne by exact Hne. exact H.
Qed.

Lemma persist_keeps_directories (tr : list event) (a : app_state) (directory : string) :
  is_Some (fs a !! directory) -> is_Some (fs (persist tr a) !! directory).
Proof.
  revert a. induction tr as [|e tr IH]; intros a H; simpl; [exact H|].
  destruct e; try (apply IH; exact H).
  apply IH. apply write_file_keeps_directories. exact H.
Qed.

Lemma abandoned_keeps_directories {W : Type} (b : Browser W) (env : batch_env W)
    (futures : list (nat * string)) (a : app_state) (directory : string) :
  is_Some (fs a !! directory) -> is_Some (fs (abandoned b env futures a) !! directory).
Proof.
  revert a. induction futures as [|[index url] futures IH]; intros a H; simpl; [exact H|].
  apply IH. apply persist_keeps_directories. exact H.
Qed.

(** However the loop over the finished tasks ends, it keeps the
    directories, the archive path and the completion flag. *)
Lemma await_loop_preserves {W : Type} (b : Browser W) (env : batch_env W)
    (total_tasks : nat) (futures : list (nat * string)) :
  forall (i : nat) (a : app_state),
    let a' := snd (await_loop b env total_tasks i futures a) in
    zip_path (session a') = zip_path (session a)
    /\ processing_complete (session a') = processing_complete (session a)
    /\ forall directory, is_Some (fs a !! directory) -> is_Some (fs a' !! directory).
Proof.
  induction futures as [|[index url] futures IH]; intros i a; simpl; [auto|].
  destruct (take_screenshot b url index (start (task_world env index))) as [[line|e] ts].
  - match goal with |- context [await_loop b env total_tasks (S i) futures ?a4] =>
      destruct (IH (S i) a4) as (Hzip & Hpc & Hfs) end.
    destruct (persist_session (trace ts) a) as [Hs Hu].
    split; [etransitivity; [exact Hzip|]; simpl; rewrite Hs; reflexivity|].
    split; [etransitivity; [exact Hpc|]; simpl; rewrite Hs; reflexivity|].
    intros directory H. apply Hfs. simpl. apply persist_keeps_directories. exact H.
  - simpl.
    destruct (abandoned_session b env futures (persist (trace ts) a)) as [-> _].
    destruct (persist_session (trace ts) a) as [-> _]. repeat split.
    intros directory H. apply abandoned_keeps_directories.
    apply persist_keeps_directories. exact H.
Qed.

(** A batch started from the start button that runs to its end leaves the
    state in which the results section is entered: processing complete, no
    archive path remembered, the screenshot directory in place. *)
Lemma start_processing_ready {W : Type} (b : Browser W) (env : batch_env W)
    (urls : list string) (a a' : app_state) :
  start_processing b env urls a = (Return tt, a') ->
  processing_complete (session a') = true
  /\ zip_path (session a') = None
  /\ is_Some (fs a' !! SCREENSHOT_DIR).
Proof.
  unfold start_processing, bind at 1. rewrite flush_files_run.
  unfold bind, modify, run_batch_processor, bind, modify. simpl.
  destruct (launch env) as [[]|e]; [|discriminate].
  match goal with |- context [await_loop b env ?t 0 ?f ?a0] =>
    pose proof (await_loop_preserves b env t f 0 a0) as Hloop;
    destruct (await_loop b env t 0 f a0) as [[[]|e] a1] end; [|discriminate].
  destruct (browser_close env) as [[]|e]; [|discriminate].
  intros H. injection H as <-. simpl in *.
  destruct Hloop as (Hzip & _ & Hfs). repeat split; [exact Hzip|].
  apply Hfs. rewrite lookup_insert_ne by discriminate. rewrite lookup_insert_eq. eauto.
Qed.

Lemma open_rb_state (path : string) (a : app_state) :
  snd (open_rb path a) = a.
Proof.
  unfold open_rb. destruct (PyStr.os_path_split path) as [directory name].
  destruct (fs a !! directory) as [d|]; [|reflexivity].
  destruct (d !! name); reflexivity.
Qed.

(** With an archive path remembered, the results section touches neither
    the file system nor the session, whatever the directories hold. *)
Lemma results_section_reuses (a : app_state) :
  zip_path_set (session a) = true ->
  fs (snd (results_section a)) = fs a
  /\ session (snd (results_section a)) = session a.
Proof.
  intros Hzip. unfold results_section.
  destruct (processing_complete (session a)); simpl; [|auto].
  unfold bind, modify. simpl. rewrite Hzip. simpl. rewrite Hzip.
  pose proof (open_rb_state (default "" (zip_path (session a)))
                (show (UiHeader "Results") a)) as Hopen.
  destruct (open_rb (default "" (zip_path (session a))) (show (UiHeader "Results") a))
    as [[f|e] a']; simpl in Hopen; subst a'; simpl; [|auto].
  destruct (logs (session a)); simpl; auto.
Qed.

Lemma reruns_reuse (n : nat) (a : app_state) :
  zip_path_set (session a) = true ->
  fs (Nat.iter n (fun a' => snd (results_section a')) a) = fs a
  /\ session (Nat.iter n (fun a' => snd (results_section a')) a) = session a.
Proof.
  intros Hzip. induction n as [|n [IHfs IHss]]; simpl; [auto|].
  destruct (results_section_reuses (Nat.iter n (fun a' => snd (results_section a')) a))
    as [Hfs Hss]; [rewrite IHss; exact Hzip|].
  rewrite Hfs, Hss. auto.
Qed.

(** C9: after a batch (processing complete, no archive path remembered),
    the results section packs a non-empty screenshot directory into
    [zip_files/screenshots.zip], remembers that path, offers it for download
    and shows no warning, and any number of reruns after that leave the file
    system and the remembered path as they are.  With an empty screenshot
    directory it returns without raising, writes nothing, remembers nothing
    and shows the warning.  And no archive is made while a path is
    remembered: in every state that remembers a non-empty path, whatever its
    directories hold by then, the results section leaves the file system
    and the session as they are. *)
Theorem archive_created_once (a : app_state) (d : gmap string file) :
  processing_complete (session a) = true ->
  zip_path (session a) = None ->
  fs a !! SCREENSHOT_DIR = Some d ->
  exists a1 shown,
    results_section a = (Return tt, a1)
    /\ ui a1 = ui a ++ shown
    /\ (d <> ∅ ->
        fs a1 = <[ZIP_DIR := <["screenshots.zip" := Archive (dom d)]>
                               (default ∅ (fs a !! ZIP_DIR))]> (fs a)
        /\ zip_path (session a1) = Some "zip_files/screenshots.zip"
        /\ In (UiDownloadButton "zip_files/screenshots.zip") shown
        /\ (forall text, ~ In (UiWarning text) shown)
        /\ forall n,
             fs (Nat.iter n (fun a' => snd (results_section a')) a1) = fs a1
             /\ zip_path (session (Nat.iter n (fun a' => snd (results_section a')) a1))
                = Some "zip_files/screenshots.zip")
    /\ (d = ∅ ->
        fs a1 = fs a
        /\ zip_path (session a1) = None
        /\ In (UiWarning "Processing completed, but no screenshots were successfully generated.")
             shown
        /\ forall path, ~ In (UiDownloadButton path) shown)
    /\ (forall (a2 : app_state) (path : string),
          zip_path (session a2) = Some path ->
          path <> "" ->
          fs (snd (results_section a2)) = fs a2
          /\ session (snd (results_section a2)) = session a2).
Proof.
  intros Hpc Hzip Hdir.
  assert (Hany : forall (a2 : app_state) (path : string),
            zip_path (session a2) = Some path ->
            path <> "" ->
            fs (snd (results_section a2)) = fs a2
            /\ session (snd (results_section a2)) = session a2).
  { intros a2 path Hz Hpath. apply results_section_reuses.
    unfold zip_path_set. rewrite Hz. destruct path; [congruence | reflexivity]. }
  unfold results_section. rewrite Hpc. simpl.
  unfold bind at 1. unfold modify at 1.
  unfold bind at 1. unfold zip_path_set at 1. simpl. rewrite Hzip.
  unfold bind at 1. unfold any_scandir at 1. simpl. rewrite Hdir.
  destruct (decide (d = ∅)) as [->|Hne].
  - rewrite bool_decide_eq_true_2 by reflexivity. simpl.
    unfold modify at 1. unfold bind at 1. unfold zip_path_set. simpl. rewrite Hzip.
    destruct (logs (session a)) eqn:Hlogs; simpl; rewrite ?Hlogs.
    + eexists _, _. split; [reflexivity|]. simpl.
      rewrite <- app_assoc. split; [reflexivity|]. split; [congruence|].
      split; [|exact Hany]. intros _.
      repeat split; auto; simpl; [tauto|].
      intros path [H|[H|[]]]; discriminate.
    + eexists _, _. split; [reflexivity|]. simpl.
      rewrite <- !app_assoc. split; [reflexivity|]. split; [congruence|].
      split; [|exact Hany]. intros _.
      repeat split; auto; simpl; [tauto|].
      intros path [H|[H|[H|[H|[]]]]]; discriminate.
  - rewrite bool_decide_eq_false_2 by exact Hne. simpl.
    unfold bind at 1. unfold shutil_make_archive at 1. simpl. rewrite Hdir.
    change (PyStr.os_path_split (PyStr.os_path_join ZIP_DIR "screenshots"))
      with ("zip_files", "screenshots").
    simpl. unfold modify at 1. unfold bind at 1. unfold zip_path_set. simpl.
    unfold bind at 1. unfold open_rb at 1.
    change (PyStr.os_path_split _) with ("zip_files", "screenshots.zip").
    simpl. rewrite lookup_insert_eq, lookup_insert_eq.
    unfold modify at 1. simpl.
    assert (Hreuse : forall a2 : app_state,
              zip_path (session a2) = Some "zip_files/screenshots.zip" ->
              forall n,
                fs (Nat.iter n (fun a' => snd (results_section a')) a2) = fs a2
                /\ zip_path (session (Nat.iter n (fun a' => snd (results_section a')) a2))
                   = Some "zip_files/screenshots.zip").
    { intros a2 Hz n.
      assert (Hset : zip_path_set (session a2) = true)
        by (unfold zip_path_set; rewrite Hz; reflexivity).
      destruct (reruns_reuse n a2 Hset) as [H1 H2]. rewrite H1, H2. auto. }
    destruct (logs (session a)) eqn:Hlogs; simpl; rewrite ?Hlogs.
    + eexists _, _. split; [reflexivity|]. simpl.
      rewrite <- app_assoc. split; [reflexivity|].
      split; [|split; [contradiction | exact Hany]]. intros _.
      split; [reflexivity|]. split; [reflexivity|]. split; [simpl; tauto|].
      split; [intros text [H|[H|[]]]; discriminate|].
      apply Hreuse. reflexivity.
    + eexists _, _. split; [reflexivity|]. simpl.
      rewrite <- !app_assoc. split; [reflexivity|].
      split; [|split; [contradiction | exact Hany]]. intros _.
      split; [reflexivity|]. split; [reflexivity|]. split; [simpl; tauto|].
      split; [intros text [H|[H|[H|[H|[]]]]]; discriminate|].
      apply Hreuse. reflexivity.
Qed.

Lemma archive_created_once_witness :
  processing_complete (session after_batch) = true
  /\ zip_path (session after_batch) = None
  /\ fs after_batch !! SCREENSHOT_DIR = Some {["1_a.com.png" := Picture]}
  /\ exists a1 shown,
       results_section after_batch = (Return tt, a1)
       /\ ui a1 = ui after_batch ++ shown
       /\ (({["1_a.com.png" := Picture]} : gmap string file) <> ∅ ->
           fs a1 = <[ZIP_DIR := <["screenshots.zip" :=
                                    Archive (dom ({["1_a.com.png" := Picture]}
                                                  : gmap string file))]>
                                  (default ∅ (fs after_batch !! ZIP_DIR))]> (fs after_batch)
           /\ zip_path (session a1) = Some "zip_files/screenshots.zip"
           /\ In (UiDownloadButton "zip_files/screenshots.zip") shown
           /\ (forall text, ~ In (UiWarning text) shown)
           /\ forall n,
                fs (Nat.iter n (fun a' => snd (results_section a')) a1) = fs a1
                /\ zip_path (session (Nat.iter n (fun a' => snd (results_section a')) a1))
                   = Some "zip_files/screenshots.zip")
       /\ (({["1_a.com.png" := Picture]} : gmap string file) = ∅ ->
           fs a1 = fs after_batch
           /\ zip_path (session a1) = None
           /\ In (UiWarning
                    "Processing completed, but no screenshots were successfully generated.")
                shown
           /\ forall path, ~ In (UiDownloadButton path) shown)
       /\ (forall (a2 : app_state) (path : string),
             zip_path (session a2) = Some path ->
             path <> "" ->
             fs (snd (results_section a2)) = fs a2
             /\ session (snd (results_section a2)) = session a2).
Proof.
  split; [reflexivity|]. split; [reflexivity|]. split; [reflexivity|].
  apply (archive_created_once after_batch {["1_a.com.png" := Picture]});
    reflexivity.
Defined.

(** A rerun in a state that remembers the archive while a new image lies
    in the screenshot directory: the archive keeps its one member. *)
Example rerun_keeps_archive :
  let a2 := mkApp (<[ZIP_DIR := {["screenshots.zip" := Archive {["1_a.com.png"]}]}]>
                     (<[SCREENSHOT_DIR := {["1_a.com.png" := Picture;
                                            "2_b.com.png" := Picture]}]> ∅))
              (mkSession [] true (Some "zip_files/screenshots.zip")) [] in
  fst (results_section a2) = Return tt
  /\ fs (snd (results_section a2)) = fs a2.
Proof.
  split; [vm_compute; reflexivity|].
  apply results_section_reuses. reflexivity.
Qed.

(* ===================================================================== *)
(** * Further properties of the capture task *)
(* ===================================================================== *)

Lemma bind_returns {S A B : Type} (c : Eff S A) (k : A -> Eff S B) (s s' : S) (x : B) :
  bind c k s = (Return x, s') ->
  exists a s1, c s = (Return a, s1) /\ k a s1 = (Return x, s').
Proof.
  unfold bind. destruct (c s) as [[a|e] s1]; [eauto | discriminate].
Qed.

Lemma call_returns {W A : Type} (f : W -> outcome A * W) (evs : A -> list event)
    (s s' : task_state W) (a : A) :
  call f evs s = (Return a, s') ->
  trace s' = trace s ++ evs a /\ context s' = context s.
Proof.
  unfold call. destruct (f (world s)) as [[a'|e] w']; [|discriminate].
  intros H. injection H as <- <-. auto.
Qed.

Lemma draw_returns {W A : Type} (f : W -> A * W) (s s' : task_state W) (r : outcome A) :
  draw f s = (r, s') -> trace s' = trace s /\ context s' = context s.
Proof.
  unfold draw. destruct (f (world s)). intros H. injection H as _ <-. auto.
Qed.

Section TaskTraces.

Context {W : Type} (b : Browser W).

(** A settling loop that returns leaves the passes in the trace, whatever
    the page did. *)
Lemma scroll_loop_returns (pause_time : Q) (n : nat) :
  forall (last : Z) (s s' : task_state W),
    scroll_loop b pause_time n last s = (Return tt, s') ->
    exists its,
      trace s' = trace s ++ flat_map (iteration_trace pause_time) its
      /\ stops_at_first_repeat n last its
      /\ context s' = context s.
Proof.
  induction n as [|n IH]; intros last s s' H.
  - simpl in H. injection H as <-. exists []. simpl. rewrite app_nil_r. auto.
  - simpl in H. unfold bind at 1 in H. unfold page_evaluate at 1 in H.
    destruct (evaluate_gate b (world s)) as [[[]|e] w1]; [|discriminate]. simpl in H.
    unfold bind at 1 in H. unfold asyncio_sleep at 1 in H. simpl in H.
    unfold bind at 1 in H. unfold page_evaluate at 1 in H. simpl in H.
    match type of H with context [evaluate_gate b ?w] =>
      destruct (evaluate_gate b w) as [[[]|e] w2] end; [|discriminate].
    simpl in H.
    set (d := dom_scrollHeight b w1) in *.
    set (h := dom_scrollHeight b w2) in *.
    destruct (h =? last)%Z eqn:Heq.
    + injection H as <-. exists [(d, h)]. simpl. rewrite Heq.
      rewrite <- !app_assoc. auto.
    + apply IH in H. destruct H as (its & Htr & Hstop & Hctx).
      exists ((d, h) :: its). simpl in *. rewrite Heq, Htr, Hctx.
      rewrite <- !app_assoc. auto.
Qed.

Lemma scroll_to_bottom_returns (pause_time : Q) (max_scrolls : nat) (s s' : task_state W) :
  scroll_to_bottom b pause_time max_scrolls s = (Return tt, s') ->
  exists h0 its,
    trace s' = trace s ++ settle_trace pause_time h0 its
    /\ stops_at_first_repeat max_scrolls h0 its
    /\ context s' = context s.
Proof.
  unfold scroll_to_bottom, bind, page_evaluate.
  destruct (evaluate_gate b (world s)) as [[[]|e] w1]; [|discriminate]. simpl.
  intros H. apply scroll_loop_returns in H. destruct H as (its & Htr & Hstop & Hctx).
  exists (dom_scrollHeight b w1), its. simpl in *. rewrite Htr, Hctx.
  rewrite <- app_assoc. auto.
Qed.

Lemma random_choice_returns (l : list string) (s s' : task_state W) (x : string) :
  l <> [] ->
  random_choice b l s = (Return x, s') ->
  In x l /\ trace s' = trace s /\ context s' = context s.
Proof.
  intros Hl H. unfold random_choice in H. apply bind_returns in H.
  destruct H as (i & s1 & Hdraw & Hret). apply draw_returns in Hdraw.
  injection Hret as <- <-. split; [|exact Hdraw].
  apply nth_In. apply Nat.mod_upper_bound. destruct l; [congruence | simpl; lia].
Qed.

(** A [try] block that returns has gone through every step, in order. *)
Lemma body_returns (url : string) (index : nat) (s s1 : task_state W) (line : string) :
  take_screenshot_body b url index s = (Return line, s1) ->
  line = success_line url
  /\ context s1 = Some TheContext
  /\ exists user_agent delay h0 its path,
       In user_agent USER_AGENTS
       /\ screenshot_path url index = Some path
       /\ stops_at_first_repeat default_max_scrolls h0 its
       /\ trace s1 = trace s ++ opening_trace user_agent url delay
                     ++ settle_trace default_pause_time h0 its
                     ++ [EvScreenshot path true].
Proof.
  unfold take_screenshot_body. intros H.
  apply bind_returns in H. destruct H as (ua & sa & Hua & H).
  apply random_choice_returns in Hua; [|discriminate]. destruct Hua as (Hin & Ta & Ca).
  apply bind_returns in H. destruct H as ([] & sb & Hb & H).
  apply call_returns in Hb. destruct Hb as (Tb & Cb).
  apply bind_returns in H. destruct H as ([] & sc & Hc & H).
  injection Hc as <-.
  apply bind_returns in H. destruct H as ([] & sd & Hd & H).
  apply call_returns in Hd. destruct Hd as (Td & Cd).
  apply bind_returns in H. destruct H as ([] & se & He & H).
  apply call_returns in He. destruct He as (Te & Ce).
  apply bind_returns in H. destruct H as ([] & sf & Hf & H).
  apply call_returns in Hf. destruct Hf as (Tf & Cf).
  apply bind_returns in H. destruct H as (delay & sg & Hg & H).
  apply draw_returns in Hg. destruct Hg as (Tg & Cg).
  apply bind_returns in H. destruct H as ([] & sh & Hh & H).
  injection Hh as <-.
  apply bind_returns in H. destruct H as ([] & si & Hi & H).
  apply scroll_to_bottom_returns in Hi. destruct Hi as (h0 & its & Ti & Hstop & Ci).
  destruct (screenshot_path url index) as [path|]; [|discriminate].
  apply bind_returns in H. destruct H as ([] & sj & Hj & H).
  apply call_returns in Hj. destruct Hj as (Tj & Cj).
  injection H as <- <-.
  split; [reflexivity|]. split.
  { rewrite Cj, Ci. simpl. rewrite Cg, Cf, Ce, Cd. reflexivity. }
  exists ua, delay, h0, its, path.
  split; [exact Hin|]. split; [reflexivity|]. split; [exact Hstop|].
  rewrite Tj, Ti. simpl trace. rewrite Tg, Tf, Te, Td. simpl trace. rewrite Tb, Ta.
  unfold opening_trace. rewrite <- !app_assoc. reflexivity.
Qed.

End TaskTraces.

Lemma success_not_failure (url l : string) : success_line url <> failure_line url l.
Proof. unfold success_line, failure_line. intros H. inversion H. Qed.

Lemma match_len_line_feed (s : string) :
  PyStr.match_len PyStr.line_boundaries (String "010" s) <> 0.
Proof. destruct s; vm_compute; discriminate. Qed.

Lemma match_len_carriage_return (s : string) :
  PyStr.match_len PyStr.line_boundaries (String "013" s) <> 0.
Proof.
  destruct s as [|c s]; [vm_compute; discriminate|].
  unfold PyStr.match_len, PyStr.line_boundaries.
  destruct (String.prefix (PyStr.chr 13 +:+ PyStr.chr 10) (String "013" (String c s)));
    [vm_compute; discriminate|].
  vm_compute. discriminate.
Qed.

Lemma splitlines_aux_step (c : ascii) (s : string) :
  PyStr.splitlines_aux 0 (String c s)
  = match PyStr.match_len PyStr.line_boundaries (String c s) with
    | S k => "" :: PyStr.splitlines_aux k s
    | O => match PyStr.splitlines_aux 0 s with
           | [] => [String c ""]
           | l :: ls => String c l :: ls
           end
    end.
Proof. reflexivity. Qed.

(** The first line that [splitlines] gives is a prefix of the text and
    holds no line feed and no carriage return. *)
Lemma splitlines_first_line (s l : string) (ls : list string) :
  PyStr.splitlines s = l :: ls ->
  String.prefix l s = true /\ one_line l.
Proof.
  unfold PyStr.splitlines. revert l ls.
  induction s as [|c s IH]; intros l ls H; [discriminate|].
  rewrite splitlines_aux_step in H.
  destruct (PyStr.match_len PyStr.line_boundaries (String c s)) eqn:E.
  - assert (Hc : c <> "010"%char /\ c <> "013"%char).
    { split; intros ->; [apply (match_len_line_feed s) | apply (match_len_carriage_return s)];
        exact E. }
    destruct (PyStr.splitlines_aux 0 s) as [|l' ls'] eqn:E'.
    + injection H as <- <-. split.
      * simpl. destruct (ascii_dec c c); [apply prefix_empty | congruence].
      * unfold one_line. simpl. intuition congruence.
    + injection H as <- <-. destruct (IH l' ls' eq_refl) as [Hp [H1 H2]]. split.
      * simpl. destruct (ascii_dec c c); [exact Hp | congruence].
      * unfold one_line. simpl. intuition congruence.
  - injection H as <- _. split; [reflexivity|]. unfold one_line. simpl. tauto.
Qed.

Lemma splitlines_empty (s : string) : PyStr.splitlines s = [] -> s = "".
Proof.
  intros H. destruct (string_dec s "") as [|Hne]; [assumption|].
  destruct (splitlines_nonempty s Hne) as (l & ls & E). congruence.
Qed.

Lemma no_double_slash_split (url : string) :
  no_double_slash url -> nth_error (PyStr.split url "//") 1 = None.
Proof.
  unfold PyStr.split. intros H.
  assert (Hone : exists x, PyStr.split_aux "//" 0 url = [x]); [|destruct Hone as [x ->]; reflexivity].
  induction url as [|c url IH]; [exists ""; reflexivity|].
  change (PyStr.split_aux "//" 0 (String c url))
    with (if String.prefix "//" (String c url)
          then "" :: PyStr.split_aux "//" (String.length "//" - 1) url
          else match PyStr.split_aux "//" 0 url with
               | [] => [String c ""]
               | p :: ps => String c p :: ps
               end).
  destruct (String.prefix "//" (String c url)) eqn:E.
  - apply prefix_app in E. destruct E as [r E]. exfalso. apply (H "" r). exact E.
  - destruct IH as [x ->]; [|eauto].
    intros pre post E'. apply (H (String c pre) post). rewrite E'. reflexivity.
Qed.

Section TaskOutcomes.

Context {W : Type} (b : Browser W).

Lemma handler_state (url : string) (e : exception) (s : task_state W) :
  snd (take_screenshot_handler url e s) = s.
Proof.
  unfold take_screenshot_handler. destruct (PyStr.splitlines (exc_str e)); reflexivity.
Qed.

Lemma finally_trace (s : task_state W) :
  match context s with
  | None => take_screenshot_finally b s = (Return tt, s)
  | Some _ =>
      (exists s', take_screenshot_finally b s = (Return tt, s')
                  /\ trace s' = trace s ++ [EvContextClose])
      \/ (exists e s', take_screenshot_finally b s = (Raise e, s') /\ trace s' = trace s)
  end.
Proof.
  unfold take_screenshot_finally, bind, get_context, call. simpl.
  destruct (context s); [|reflexivity].
  destruct (context_close b (world s)) as [[[]|e] w']; [left | right]; eauto.
Qed.

Lemma quiet_when_raising_bind {A B} (c : Task W A) (k : A -> Task W B) :
  quiet c -> (forall a, quiet_when_raising (k a)) -> quiet_when_raising (bind c k).
Proof.
  intros Hc Hk s e. unfold bind. specialize (Hc s).
  destruct (c s) as [[a|e'] s1]; simpl in *; [|intros _; exact Hc].
  intros H. rewrite <- Hc. eapply Hk. exact H.
Qed.

Lemma quiet_when_raising_quiet {A} (c : Task W A) : quiet c -> quiet_when_raising c.
Proof. intros H s e _. apply H. Qed.

(** A [try] block that raises has taken no screenshot. *)
Lemma body_raises_quiet (url : string) (index : nat) :
  quiet_when_raising (take_screenshot_body b url index).
Proof.
  unfold take_screenshot_body.
  apply quiet_when_raising_bind.
  { apply quiet_bind; [apply quiet_draw | intros; apply quiet_ret]. }
  intros user_agent.
  apply quiet_when_raising_bind; [apply quiet_call; reflexivity|]. intros _.
  apply quiet_when_raising_bind; [intros s; reflexivity|]. intros _.
  apply quiet_when_raising_bind; [apply quiet_call; reflexivity|]. intros _.
  apply quiet_when_raising_bind; [apply quiet_call; reflexivity|]. intros _.
  apply quiet_when_raising_bind; [apply quiet_call; reflexivity|]. intros _.
  apply quiet_when_raising_bind; [apply quiet_draw|]. intros delay.
  apply quiet_when_raising_bind; [apply quiet_sleep|]. intros _.
  apply quiet_when_raising_bind; [apply quiet_scroll_to_bottom|]. intros _.
  destruct (screenshot_path url index) as [path|];
    [|apply quiet_when_raising_quiet, quiet_raise].
  intros s e. unfold bind, call.
  destruct (page_screenshot b path (world s)) as [[[]|e'] w']; simpl;
    [discriminate | reflexivity].
Qed.

End TaskOutcomes.

Section AppendsFacts.

Context {W : Type} (b : Browser W) (P : event -> Prop).

Lemma appends_ret {A} (a : A) : appends P (ret a : Task W A).
Proof. intros s. exists []. simpl. rewrite app_nil_r. auto. Qed.

Lemma appends_raise {A} (e : exception) : appends P (raise e : Task W A).
Proof. intros s. exists []. simpl. rewrite app_nil_r. auto. Qed.

Lemma appends_bind {A B} (c : Task W A) (k : A -> Task W B) :
  appends P c -> (forall a, appends P (k a)) -> appends P (bind c k).
Proof.
  intros Hc Hk s. unfold bind. destruct (Hc s) as (evs & Htr & HQ & Hctx).
  destruct (c s) as [[a|e] s1]; simpl in *; [|eauto].
  destruct (Hk a s1) as (evs' & Htr' & HQ' & Hctx').
  exists (evs ++ evs'). rewrite Htr', Htr, Hctx', Hctx, app_assoc.
  split; [reflexivity|]. split; [apply Forall_app; auto | reflexivity].
Qed.

Lemma appends_call {A} (f : W -> outcome A * W) (evs : A -> list event) :
  (forall a, Forall P (evs a)) -> appends P (call f evs).
Proof.
  intros Hevs s. unfold call. destruct (f (world s)) as [[a|e] w']; simpl.
  - exists (evs a). auto.
  - exists []. rewrite app_nil_r. auto.
Qed.

Lemma appends_draw {A} (f : W -> A * W) : appends P (draw f).
Proof.
  intros s. unfold draw. destruct (f (world s)). exists []. simpl.
  rewrite app_nil_r. auto.
Qed.

Lemma appends_sleep (t : Q) : P (EvSleep t) -> appends P (asyncio_sleep b t).
Proof. intros H s. exists [EvSleep t]. simpl. auto. Qed.

Lemma appends_page_evaluate {A} (js : W -> A * W * list event) :
  (forall w, Forall P (snd (js w))) -> appends P (page_evaluate b js).
Proof.
  intros Hjs s. unfold page_evaluate.
  destruct (evaluate_gate b (world s)) as [[[]|e] w1].
  - specialize (Hjs w1). destruct (js w1) as [[a w2] evs]. simpl in *. exists evs. auto.
  - exists []. simpl. rewrite app_nil_r. auto.
Qed.

Lemma appends_scroll_to_bottom (pause_time : Q) (max_scrolls : nat) :
  (forall t, P (EvSleep t)) -> (forall h, P (EvReadScrollHeight h)) ->
  (forall dx dy, P (EvScrollBy dx dy)) ->
  appends P (scroll_to_bottom b pause_time max_scrolls).
Proof.
  intros Hsleep Hread Hscroll.
  assert (Hloop : forall n last, appends P (scroll_loop b pause_time n last)).
  { induction n as [|n IH]; intros last; simpl; [apply appends_ret|].
    apply appends_bind; [apply appends_page_evaluate; intros w; simpl; auto|]. intros _.
    apply appends_bind; [apply appends_sleep; auto|]. intros _.
    apply appends_bind; [apply appends_page_evaluate; intros w; simpl; auto|]. intros h.
    destruct (h =? last)%Z; [apply appends_ret | apply IH]. }
  apply appends_bind; [apply appends_page_evaluate; intros w; simpl; auto|].
  intros h. apply Hloop.
Qed.

End AppendsFacts.

Section TaskContext.

Context {W : Type} (b : Browser W).

(** The [try] block either fails before a context exists and leaves no
    event, or creates one context and nothing that opens or closes another. *)
Lemma body_context (url : string) (index : nat) (s s1 : task_state W) (r : outcome string) :
  take_screenshot_body b url index s = (r, s1) ->
  (context s1 = context s /\ trace s1 = trace s)
  \/ (context s1 = Some TheContext
      /\ exists user_agent middle,
           In user_agent USER_AGENTS
           /\ Forall not_context_event middle
           /\ trace s1 = trace s ++ EvNewContext user_agent true 1920 1080 true :: middle).
Proof.
  unfold take_screenshot_body. unfold bind at 1.
  destruct (random_choice b USER_AGENTS s) as [[ua|e] sa] eqn:Hua.
  2: { unfold random_choice, bind, draw in Hua.
       destruct (random_below b (length USER_AGENTS) (world s)). discriminate. }
  apply random_choice_returns in Hua; [|discriminate]. destruct Hua as (Hin & Ta & Ca).
  unfold bind at 1. unfold call at 1.
  destruct (new_context b ua (world sa)) as [[[]|e] w1]; simpl.
  2: { intros H. injection H as _ <-. left. auto. }
  unfold bind at 1. unfold set_context at 1. simpl. intros H.
  match type of H with context [bind ?c ?k ?st] =>
    assert (Happ : appends not_context_event (bind c k));
      [|destruct (Happ st) as (evs & Htr & Hev & Hctx)]
  end.
  { apply appends_bind; [apply appends_call; intros; repeat constructor|]. intros _.
    apply appends_bind; [apply appends_call; intros; repeat constructor|]. intros _.
    apply appends_bind; [apply appends_call; intros; repeat constructor|]. intros _.
    apply appends_bind; [apply appends_draw|]. intros delay.
    apply appends_bind; [apply appends_sleep; exact I|]. intros _.
    apply appends_bind;
      [apply appends_scroll_to_bottom; intros; exact I|]. intros _.
    destruct (screenshot_path url index) as [path|]; [|apply appends_raise].
    apply appends_bind; [apply appends_call; intros; repeat constructor|]. intros _.
    apply appends_ret. }
  rewrite H in Htr, Hctx. simpl in Htr, Hctx.
  right. split; [exact Hctx|].
  exists ua, evs. rewrite Htr, Ta, <- app_assoc. auto.
Qed.

End TaskContext.

(** X1: when closing a context never raises, a task either leaves no
    event at all (no context could be created) or its trace starts with the
    creation of one context (viewport 1920 by 1080, one of the three user
    agents), ends with the closing of it, and neither creates nor closes a
    context in between: whatever the outcome, returned line or exception. *)
Theorem context_created_once_and_closed {W : Type} (b : Browser W)
    (url : string) (index : nat) (w : W) :
  close_succeeds b ->
  let s' := snd (take_screenshot b url index (start w)) in
  trace s' = []
  \/ exists user_agent middle,
       In user_agent USER_AGENTS
       /\ Forall not_context_event middle
       /\ trace s' = EvNewContext user_agent true 1920 1080 true :: middle ++ [EvContextClose].
Proof.
  intros Hclose. unfold take_screenshot, try_finally, try_except.
  destruct (take_screenshot_body b url index (start w)) as [r s1] eqn:Hrun.
  pose proof (body_context b url index (start w) s1 r Hrun) as Hbody. simpl in Hbody.
  assert (Hmid : exists r' s2,
            match r with
            | Return a => (Return a, s1)
            | Raise e => if exc_is_Exception e then take_screenshot_handler url e s1
                         else (Raise e, s1)
            end = (r', s2) /\ s2 = s1).
  { destruct r as [a|e]; [eauto|]. destruct (exc_is_Exception e); [|eauto].
    pose proof (handler_state (W := W) url e s1) as Hh.
    destruct (take_screenshot_handler url e s1) as [r' s2]. eauto. }
  destruct Hmid as (r' & s2 & -> & ->).
  pose proof (finally_trace b s1) as Hfin.
  destruct Hbody as [[Hctx Htr]|[Hctx (ua & middle & Hin & Hmid & Htr)]]; rewrite Hctx in Hfin.
  - simpl in Hfin. rewrite Hfin. simpl. left. exact Htr.
  - destruct Hfin as [(s' & -> & Htr')|(e & s' & Hraise & _)].
    + simpl. right. exists ua, middle. rewrite Htr', Htr. auto.
    + exfalso. unfold take_screenshot_finally, bind, get_context, call in Hraise.
      simpl in Hraise. rewrite Hctx in Hraise.
      destruct (Hclose (world s1)) as [w' Hw]. rewrite Hw in Hraise. discriminate.
Qed.

Lemma scripted_close_succeeds : close_succeeds scripted_browser.
Proof. intros w. exists w. reflexivity. Qed.

Lemma context_created_once_and_closed_witness :
  close_succeeds scripted_browser
  /\ let s' := snd (take_screenshot scripted_browser "https://a.com" 0 (start tall_page)) in
     trace s' = []
     \/ exists user_agent middle,
          In user_agent USER_AGENTS
          /\ Forall not_context_event middle
          /\ trace s' = EvNewContext user_agent true 1920 1080 true
                        :: middle ++ [EvContextClose].
Proof.
  split.
  - intros w. exists w. reflexivity.
  - apply (context_created_once_and_closed scripted_browser "https://a.com" 0 tall_page).
    intros w. exists w. reflexivity.
Defined.

(** X2: a task that returns the success line has gone through the whole
    pipeline in order: one context, a page, the request rule, navigation to
    the address with the 60000 ms timeout, the settle delay, the settling
    strategy with 1 to 30 passes, one full-page screenshot at the path made
    of its index and address, and the closing of the context. *)
Theorem success_means_full_capture {W : Type} (b : Browser W) (url : string) (index : nat)
    (s s' : task_state W) :
  take_screenshot b url index s = (Return (success_line url), s') ->
  exists user_agent delay h0 its path,
    In user_agent USER_AGENTS
    /\ screenshot_path url index = Some path
    /\ 1 <= length its <= 30
    /\ trace s' = trace s ++ opening_trace user_agent url delay
                  ++ settle_trace 1 h0 its
                  ++ [EvScreenshot path true; EvContextClose].
Proof.
  unfold take_screenshot, try_finally, try_except.
  destruct (take_screenshot_body b url index s) as [[line|e] s1] eqn:Hbody.
  - apply body_returns in Hbody.
    destruct Hbody as (_ & Hctx & ua & delay & h0 & its & path & Hin & Hpath & Hstop & Htr).
    pose proof (finally_trace b s1) as Hfin. rewrite Hctx in Hfin.
    destruct Hfin as [(s2 & -> & Htr2)|(e & s2 & -> & _)]; [|discriminate].
    intros H. injection H as _ <-.
    exists ua, delay, h0, its, path. split; [exact Hin|]. split; [exact Hpath|]. split.
    { pose proof (stops_length _ _ _ Hstop) as Hlen.
      pose proof (stops_nonempty _ _ _ Hstop) as Hne.
      unfold default_max_scrolls in *.
      destruct its; [exfalso; apply Hne; [lia | reflexivity] | simpl in *; lia]. }
    rewrite Htr2, Htr. rewrite <- !app_assoc. reflexivity.
  - intros H.
    assert (Hline : exists l s2, (if exc_is_Exception e
                                  then take_screenshot_handler url e s1
                                  else (Raise e, s1)) = (Return (failure_line url l), s2)).
    { destruct (exc_is_Exception e).
      - unfold take_screenshot_handler in *.
        destruct (PyStr.splitlines (exc_str e)) as [|l ls]; [|eauto].
        unfold raise in H. destruct (take_screenshot_finally b s1) as [[[]|e'] s2];
          discriminate.
      - destruct (take_screenshot_finally b s1) as [[[]|e'] s2]; discriminate. }
    destruct Hline as (l & s2 & Hline). rewrite Hline in H.
    destruct (take_screenshot_finally b s2) as [[[]|e'] s3]; [|discriminate].
    assert (E : success_line url = failure_line url l)
      by (apply (f_equal fst) in H; simpl in H; congruence).
    exfalso. exact (success_not_failure url l E).
Qed.

Lemma success_means_full_capture_witness :
  take_screenshot scripted_browser "https://a.com" 0 (start tall_page)
  = (Return (success_line "https://a.com"),
     snd (take_screenshot scripted_browser "https://a.com" 0 (start tall_page)))
  /\ exists user_agent delay h0 its path,
       In user_agent USER_AGENTS
       /\ screenshot_path "https://a.com" 0 = Some path
       /\ 1 <= length its <= 30
       /\ trace (snd (take_screenshot scripted_browser "https://a.com" 0 (start tall_page)))
          = trace (start tall_page) ++ opening_trace user_agent "https://a.com" delay
            ++ settle_trace 1 h0 its
            ++ [EvScreenshot path true; EvContextClose].
Proof.
  split.
  - reflexivity.
  - apply (success_means_full_capture scripted_browser "https://a.com" 0 (start tall_page)).
    reflexivity.
Defined.

Lemma settle_trace_no_screenshot (pause_time : Q) (h0 : Z) (its : list (Z * Z)) :
  screenshots (settle_trace pause_time h0 its) = [].
Proof.
  unfold settle_trace. simpl. induction its as [|it its IH]; [reflexivity|].
  simpl. exact IH.
Qed.

(** What a returned line says about the run that returned it. *)
Lemma returned_line_cases {W : Type} (b : Browser W) (url : string) (index : nat)
    (s s' : task_state W) (line : string) :
  take_screenshot b url index s = (Return line, s') ->
  (line = success_line url
   /\ exists path, screenshot_path url index = Some path
                   /\ screenshots (trace s') = screenshots (trace s) ++ [path])
  \/ (exists e s1 l rest,
        take_screenshot_body b url index s = (Raise e, s1)
        /\ exc_is_Exception e = true
        /\ PyStr.splitlines (exc_str e) = l :: rest
        /\ line = failure_line url l
        /\ one_line l
        /\ screenshots (trace s') = screenshots (trace s)).
Proof.
  unfold take_screenshot, try_finally, try_except.
  destruct (take_screenshot_body b url index s) as [[line0|e] s1] eqn:Hbody.
  - pose proof (quiet_finally b s1) as Hfin.
    destruct (take_screenshot_finally b s1) as [[[]|e'] s2]; [|discriminate].
    intros H. injection H as <- <-. simpl in Hfin.
    apply body_returns in Hbody.
    destruct Hbody as (-> & _ & ua & delay & h0 & its & path & _ & Hpath & _ & Htr).
    left. split; [reflexivity|]. exists path. split; [exact Hpath|].
    rewrite Hfin, Htr. rewrite !screenshots_app.
    rewrite settle_trace_no_screenshot. reflexivity.
  - pose proof (body_raises_quiet b url index s e) as Hq. rewrite Hbody in Hq.
    specialize (Hq eq_refl). simpl in Hq.
    destruct (exc_is_Exception e) eqn:Hexc.
    + unfold take_screenshot_handler.
      destruct (PyStr.splitlines (exc_str e)) as [|l rest] eqn:Hlines.
      * unfold raise. destruct (take_screenshot_finally b s1) as [[[]|e'] s2]; discriminate.
      * unfold ret. pose proof (quiet_finally b s1) as Hfin.
        destruct (take_screenshot_finally b s1) as [[[]|e'] s2]; [|discriminate].
        intros H. injection H as <- <-. simpl in Hfin.
        right. exists e, s1, l, rest. repeat split; auto;
          try (apply (splitlines_first_line _ _ _ Hlines)).
        rewrite Hfin. exact Hq.
    + destruct (take_screenshot_finally b s1) as [[[]|e'] s2]; discriminate.
Qed.

(** X3: a line that a task returns tells whether there is an artifact:
    it is the success line, and then exactly one screenshot was taken, at
    the path of the task; or it is the failure line with the first line
    (free of line breaks) of the description of the exception that the
    [try] block raised, and then no screenshot was taken. *)
Theorem returned_line_tells_artifact {W : Type} (b : Browser W) (url : string) (index : nat)
    (s s' : task_state W) (line : string) :
  take_screenshot b url index s = (Return line, s') ->
  (line = success_line url
   /\ exists path, screenshot_path url index = Some path
                   /\ screenshots (trace s') = screenshots (trace s) ++ [path])
  \/ (exists e s1 l rest,
        take_screenshot_body b url index s = (Raise e, s1)
        /\ exc_is_Exception e = true
        /\ PyStr.splitlines (exc_str e) = l :: rest
        /\ line = failure_line url l
        /\ one_line l
        /\ screenshots (trace s') = screenshots (trace s)).
Proof. apply returned_line_cases. Qed.

Lemma returned_line_tells_artifact_witness :
  take_screenshot scripted_browser "https://a.com" 0 (start unreachable_page)
  = (Return (failure_line "https://a.com" "net::ERR_NAME_NOT_RESOLVED"),
     start unreachable_page)
  /\ ((failure_line "https://a.com" "net::ERR_NAME_NOT_RESOLVED" = success_line "https://a.com"
       /\ exists path, screenshot_path "https://a.com" 0 = Some path
                       /\ screenshots (trace (start unreachable_page))
                          = screenshots (trace (start unreachable_page)) ++ [path])
      \/ (exists e s1 l rest,
            take_screenshot_body scripted_browser "https://a.com" 0 (start unreachable_page)
            = (Raise e, s1)
            /\ exc_is_Exception e = true
            /\ PyStr.splitlines (exc_str e) = l :: rest
            /\ failure_line "https://a.com" "net::ERR_NAME_NOT_RESOLVED"
               = failure_line "https://a.com" l
            /\ one_line l
            /\ screenshots (trace (start unreachable_page))
               = screenshots (trace (start unreachable_page)))).
Proof.
  split.
  - reflexivity.
  - apply (returned_line_tells_artifact scripted_browser "https://a.com" 0
             (start unreachable_page) (start unreachable_page)).
    reflexivity.
Defined.

(** X4: when the [try] block raises an instance of [Exception] whose
    description is not empty, and closing the context does not raise, the
    task returns the failure line of its address; the message in it is a
    prefix of the description without line feed or carriage return, and no
    screenshot was taken. *)
Theorem described_exception_becomes_failure_line {W : Type} (b : Browser W)
    (url : string) (index : nat) (s s1 : task_state W) (e : exception) :
  take_screenshot_body b url index s = (Raise e, s1) ->
  exc_is_Exception e = true ->
  exc_str e <> "" ->
  close_succeeds b ->
  exists l,
    fst (take_screenshot b url index s) = Return (failure_line url l)
    /\ String.prefix l (exc_str e) = true
    /\ one_line l
    /\ screenshots (trace (snd (take_screenshot b url index s))) = screenshots (trace s).
Proof.
  intros Hbody Hexc Hstr Hclose.
  destruct (splitlines_nonempty _ Hstr) as (l & ls & Hlines).
  destruct (splitlines_first_line _ _ _ Hlines) as [Hprefix Hone].
  pose proof (body_raises_quiet b url index s e) as Hq. rewrite Hbody in Hq.
  specialize (Hq eq_refl). simpl in Hq.
  exists l. unfold take_screenshot, try_finally, try_except.
  rewrite Hbody, Hexc. unfold take_screenshot_handler. rewrite Hlines. unfold ret.
  pose proof (quiet_finally b s1) as Hfin.
  pose proof (finally_trace b s1) as Hft.
  destruct (take_screenshot_finally b s1) as [[[]|e'] s2] eqn:E; simpl in *.
  - rewrite Hfin. auto.
  - exfalso. destruct (context s1).
    + unfold take_screenshot_finally, bind, get_context, call in E. simpl in E.
      destruct (context s1); [|discriminate].
      destruct (Hclose (world s1)) as [w' Hw]. rewrite Hw in E. discriminate.
    + congruence.
Qed.

Lemma described_exception_becomes_failure_line_witness :
  take_screenshot_body scripted_browser "https://a.com" 0 (start unreachable_page)
  = (Raise {| exc_is_Exception := true;
              exc_str := "net::ERR_NAME_NOT_RESOLVED" +:+ PyStr.chr 10 +:+ "Call log:" |},
     start unreachable_page)
  /\ close_succeeds scripted_browser
  /\ exists l,
       fst (take_screenshot scripted_browser "https://a.com" 0 (start unreachable_page))
       = Return (failure_line "https://a.com" l)
       /\ String.prefix l ("net::ERR_NAME_NOT_RESOLVED" +:+ PyStr.chr 10 +:+ "Call log:") = true
       /\ one_line l
       /\ screenshots (trace (snd (take_screenshot scripted_browser "https://a.com" 0
                                     (start unreachable_page))))
          = screenshots (trace (start unreachable_page)).
Proof.
  split; [reflexivity|]. split; [intros w; exists w; reflexivity|].
  apply (described_exception_becomes_failure_line scripted_browser "https://a.com" 0
           (start unreachable_page) (start unreachable_page)
           {| exc_is_Exception := true;
              exc_str := "net::ERR_NAME_NOT_RESOLVED" +:+ PyStr.chr 10 +:+ "Call log:" |}).
  - reflexivity.
  - reflexivity.
  - discriminate.
  - intros w. exists w. reflexivity.
Defined.

(** X5: an exception leaves a task in three ways only: closing the context
    raised it; or the [try] block raised it and it is no instance of
    [Exception]; or the [try] block raised an instance of [Exception] with
    an empty description, and what leaves is the [IndexError] of the
    handler. *)
Theorem task_raises_in_three_ways {W : Type} (b : Browser W) (url : string) (index : nat)
    (s s' : task_state W) (e' : exception) :
  take_screenshot b url index s = (Raise e', s') ->
  exists r s1,
    take_screenshot_body b url index s = (r, s1)
    /\ (fst (take_screenshot_finally b s1) = Raise e'
        \/ (r = Raise e' /\ exc_is_Exception e' = false)
        \/ (exists e, r = Raise e /\ exc_is_Exception e = true /\ exc_str e = ""
                      /\ e' = IndexError)).
Proof.
  unfold take_screenshot, try_finally, try_except.
  destruct (take_screenshot_body b url index s) as [[line|e] s1] eqn:Hbody; intros H.
  - exists (Return line), s1. split; [reflexivity|].
    destruct (take_screenshot_finally b s1) as [[[]|e2] s2]; [discriminate|].
    injection H as He _. subst e'. auto.
  - exists (Raise e), s1. split; [reflexivity|].
    destruct (exc_is_Exception e) eqn:Hexc.
    + unfold take_screenshot_handler in H.
      destruct (PyStr.splitlines (exc_str e)) as [|l rest] eqn:Hlines.
      * unfold raise in H. destruct (take_screenshot_finally b s1) as [[[]|e2] s2];
          injection H as He _; subst e'; [|auto].
        right. right. exists e. repeat split; auto. apply splitlines_empty. exact Hlines.
      * unfold ret in H. destruct (take_screenshot_finally b s1) as [[[]|e2] s2];
          [discriminate|]. injection H as He _. subst e'. auto.
    + destruct (take_screenshot_finally b s1) as [[[]|e2] s2];
        injection H as He _; subst e'; auto.
Qed.

Lemma task_raises_in_three_ways_witness :
  take_screenshot scripted_browser "https://a.com" 0 (start silent_page)
  = (Raise IndexError, start silent_page)
  /\ exists r s1,
       take_screenshot_body scripted_browser "https://a.com" 0 (start silent_page) = (r, s1)
       /\ (fst (take_screenshot_finally scripted_browser s1) = Raise IndexError
           \/ (r = Raise IndexError /\ exc_is_Exception IndexError = false)
           \/ (exists e, r = Raise e /\ exc_is_Exception e = true /\ exc_str e = ""
                         /\ IndexError = IndexError)).
Proof.
  split.
  - reflexivity.
  - apply (task_raises_in_three_ways scripted_browser "https://a.com" 0
             (start silent_page) (start silent_page) IndexError).
    reflexivity.
Defined.

(** X6: an address without a double slash is never captured: the task
    takes no screenshot, and a line that it returns is a failure line, even
    when the browser loads the page. *)
Theorem address_without_double_slash_fails {W : Type} (b : Browser W)
    (url : string) (index : nat) (s : task_state W) :
  no_double_slash url ->
  screenshots (trace (snd (take_screenshot b url index s))) = screenshots (trace s)
  /\ forall line,
       fst (take_screenshot b url index s) = Return line ->
       exists l, line = failure_line url l.
Proof.
  intros Hurl.
  assert (Hpath : screenshot_path url index = None).
  { unfold screenshot_path, safe_name. rewrite (no_double_slash_split url Hurl). reflexivity. }
  split.
  - destruct (shoots_take_screenshot b url index s) as [H|(p & Hp & _)]; [exact H|].
    congruence.
  - intros line Hline.
    destruct (take_screenshot b url index s) as [r s'] eqn:Hrun. simpl in Hline. subst r.
    destruct (returned_line_cases b url index s s' line Hrun)
      as [(_ & path & Hp & _)|(e & s1 & l & rest & _ & _ & _ & -> & _)];
      [congruence | eauto].
Qed.

Lemma address_without_double_slash_fails_witness :
  no_double_slash "about:blank"
  /\ screenshots (trace (snd (take_screenshot scripted_browser "about:blank" 0
                                (start tall_page))))
     = screenshots (trace (start tall_page))
  /\ forall line,
       fst (take_screenshot scripted_browser "about:blank" 0 (start tall_page)) = Return line ->
       exists l, line = failure_line "about:blank" l.
Proof.
  assert (H : no_double_slash "about:blank").
  { intros pre post H.
    do 11 (destruct pre as [|? pre]; [discriminate H | injection H as _ H]).
    destruct pre; discriminate H. }
  split; [exact H|].
  apply (address_without_double_slash_fails scripted_browser "about:blank" 0 (start tall_page)).
  exact H.
Defined.

(** On a page that loads, the address [about:blank] gives the failure line
    of the subscript. *)
Example about_blank_line :
  fst (take_screenshot scripted_browser "about:blank" 0 (start tall_page))
  = Return (failure_line "about:blank" "list index out of range").
Proof. reflexivity. Qed.

(* ===================================================================== *)
(** * Further properties of the batch processor *)
(* ===================================================================== *)

Section BatchRuns.

Context {W : Type} (b : Browser W) (env : batch_env W).

(** Every run of the loop over the finished tasks: the lines it adds are the
    lines returned by the first tasks handed back, one progress event goes
    with each, and it ends early only at a task that raises. *)
Lemma await_loop_run (total_tasks : nat) (futures : list (nat * string)) :
  forall (i : nat) (a : app_state),
  exists lines,
    let run := await_loop b env total_tasks i futures a in
    logs (session (snd run)) = logs (session a) ++ lines
    /\ length lines <= length futures
    /\ Forall2 (fun task line => task_outcome b env task = Return line)
         (firstn (length lines) futures) lines
    /\ progress_events (ui (snd run))
       = progress_events (ui a)
         ++ map (fun k => (k, total_tasks)) (seq (i + 1) (length lines))
    /\ (fst run = Return tt -> length lines = length futures)
    /\ (forall e, fst run = Raise e ->
          exists task, nth_error futures (length lines) = Some task
                       /\ task_outcome b env task = Raise e).
Proof.
  induction futures as [|[index url] futures IH]; intros i a.
  - exists []. simpl. rewrite !app_nil_r. repeat split; auto. discriminate.
  - simpl.
    destruct (take_screenshot b url index (start (task_world env index)))
      as [[line|e] ts] eqn:Htask.
    + match goal with |- context [await_loop b env total_tasks (S i) futures ?a4] =>
        set (A4 := a4)
      end.
      destruct (IH (S i) A4) as (lines & Hlogs & Hlen & Hall & Hprog & Hret & Hraise).
      destruct (persist_session (trace ts) a) as [Hs Hu].
      assert (HlogsA : logs (session A4) = logs (session a) ++ [line])
        by (subst A4; simpl; rewrite Hs; reflexivity).
      assert (HuiA : progress_events (ui A4)
                     = progress_events (ui a) ++ [(i + 1, total_tasks)]).
      { subst A4. simpl. rewrite !progress_events_app, Hu. simpl.
        rewrite app_nil_r. reflexivity. }
      exists (line :: lines). cbv zeta in *.
      rewrite Hlogs, Hprog, HlogsA, HuiA. rewrite <- !app_assoc.
      split; [reflexivity|]. split; [simpl; lia|]. split.
      { simpl. constructor; [|exact Hall]. unfold task_outcome. simpl.
        rewrite Htask. reflexivity. }
      split.
      { simpl. replace (S i + 1) with (S (i + 1)) by lia. reflexivity. }
      split; [intros H; simpl; rewrite (Hret H); reflexivity | exact Hraise].
    + exists []. simpl.
      destruct (abandoned_session b env futures (persist (trace ts) a)) as [-> ->].
      destruct (persist_session (trace ts) a) as [-> ->].
      rewrite !app_nil_r. repeat split; auto; try lia; try discriminate.
      intros e' H. injection H as <-. exists (index, url). split; [reflexivity|].
      unfold task_outcome. simpl. rewrite Htask. reflexivity.
Qed.

End BatchRuns.

(** X7: when the browser launches and closes, every task is handed back
    once and every task returns, the batch returns; the log then holds the
    lines of the tasks in the order in which they finished, each the success
    line or a failure line of its own address; the progress events count
    1 of N to N of N; and processing is marked complete.  Lines of an
    earlier batch are gone. *)
Theorem batch_logs_in_completion_order {W : Type} (b : Browser W) (env : batch_env W)
    (urls : list string) (a : app_state) :
  launch env = Return tt ->
  browser_close env = Return tt ->
  Permutation (as_completed env (enumerate urls)) (enumerate urls) ->
  tasks_return b env (enumerate urls) ->
  exists a',
    run_batch_processor b env urls a = (Return tt, a')
    /\ Forall2 (fun task line =>
                  task_outcome b env task = Return line
                  /\ (line = success_line (snd task)
                      \/ exists l, line = failure_line (snd task) l))
         (as_completed env (enumerate urls)) (logs (session a'))
    /\ progress_events (ui a')
       = progress_events (ui a) ++ map (fun k => (k, length urls)) (seq 1 (length urls))
    /\ processing_complete (session a') = true.
Proof.
  intros Hlaunch Hclose Hperm Hret.
  unfold run_batch_processor, bind, modify. rewrite Hlaunch.
  match goal with |- context [await_loop b env ?t 0 ?f ?a0] =>
    destruct (await_loop_run b env t f 0 a0)
      as (lines & Hlogs & Hlen & Hall & Hprog & Hdone & Hraise);
    destruct (await_loop b env t 0 f a0) as [[[]|e] a1] eqn:Hrun
  end.
  2: { exfalso. destruct (Hraise e eq_refl) as ([index url] & Hnth & Hout).
       apply nth_error_In in Hnth. eapply Permutation_in in Hnth; [|exact Hperm].
       destruct (Hret index url Hnth) as [line Hline].
       unfold task_outcome in Hout. simpl in Hout. congruence. }
  rewrite Hclose. eexists. split; [reflexivity|].
  specialize (Hdone eq_refl). simpl in *.
  rewrite Hdone, firstn_all in Hall.
  rewrite Hlogs. simpl. split.
  { clear - Hall. induction Hall as [|[index url] line tasks lines Hout _ IH];
      constructor; [|exact IH].
    split; [exact Hout|]. unfold task_outcome in Hout. simpl in *.
    destruct (take_screenshot b url index (start (task_world env index))) as [r s'] eqn:Hrun.
    simpl in Hout. subst r.
    destruct (returned_line_cases b url index _ s' line Hrun)
      as [(-> & _)|(e & s1 & l & rest & _ & _ & _ & -> & _)]; eauto. }
  apply Permutation_length in Hperm. rewrite enumerate_length in *.
  rewrite progress_events_app, Hprog, progress_events_app, Hdone, Hperm.
  simpl. rewrite !app_nil_r. auto.
Qed.

Lemma batch_logs_in_completion_order_witness :
  launch (in_order_env (fun _ => tall_page)) = Return tt
  /\ browser_close (in_order_env (fun _ => tall_page)) = Return tt
  /\ Permutation (as_completed (in_order_env (fun _ => tall_page))
                    (enumerate ["https://a.com"; "https://b.com"]))
       (enumerate ["https://a.com"; "https://b.com"])
  /\ exists a',
       run_batch_processor scripted_browser (in_order_env (fun _ => tall_page))
         ["https://a.com"; "https://b.com"] fresh_app = (Return tt, a')
       /\ Forall2 (fun task line =>
                     task_outcome scripted_browser (in_order_env (fun _ => tall_page)) task
                     = Return line
                     /\ (line = success_line (snd task)
                         \/ exists l, line = failure_line (snd task) l))
            (as_completed (in_order_env (fun _ => tall_page))
               (enumerate ["https://a.com"; "https://b.com"]))
            (logs (session a'))
       /\ progress_events (ui a')
          = progress_events (ui fresh_app)
            ++ map (fun k => (k, length ["https://a.com"; "https://b.com"]))
                 (seq 1 (length ["https://a.com"; "https://b.com"]))
       /\ processing_complete (session a') = true.
Proof.
  split; [reflexivity|]. split; [reflexivity|]. split; [apply Permutation_refl|].
  apply (batch_logs_in_completion_order scripted_browser (in_order_env (fun _ => tall_page))
           ["https://a.com"; "https://b.com"] fresh_app).
  - reflexivity.
  - reflexivity.
  - apply Permutation_refl.
  - intros index url Hin. eexists.
    simpl in Hin. destruct Hin as [H|[H|[]]]; injection H as <- <-; reflexivity.
Defined.

(** X8: in every batch in which each task is handed back once, whatever
    the browser does: the log ends with m lines for some m up to the number
    of addresses, the progress events count 1 of N to m of N, and the archive
    path is left alone; a batch that returns has m = N and marks processing
    complete; a batch that raises (launch failure, a task that raises,
    failure to close) leaves the completion flag as it was. *)
Theorem batch_counts_in_every_run {W : Type} (b : Browser W) (env : batch_env W)
    (urls : list string) (a : app_state) :
  Permutation (as_completed env (enumerate urls)) (enumerate urls) ->
  let run := run_batch_processor b env urls a in
  exists m,
    m <= length urls
    /\ length (logs (session (snd run))) = m
    /\ progress_events (ui (snd run))
       = progress_events (ui a) ++ map (fun k => (k, length urls)) (seq 1 m)
    /\ zip_path (session (snd run)) = zip_path (session a)
    /\ (fst run = Return tt ->
        m = length urls /\ processing_complete (session (snd run)) = true)
    /\ (forall e, fst run = Raise e ->
        processing_complete (session (snd run)) = processing_complete (session a)).
Proof.
  intros Hperm. apply Permutation_length in Hperm. rewrite enumerate_length in Hperm.
  unfold run_batch_processor, bind, modify. cbv zeta.
  destruct (launch env) as [[]|e0].
  2: { exists 0. simpl. rewrite progress_events_app. simpl. rewrite app_nil_r.
       repeat split; auto; try lia; discriminate. }
  match goal with |- context [await_loop b env ?t 0 ?f ?a0] =>
    destruct (await_loop_run b env t f 0 a0)
      as (lines & Hlogs & Hlen & _ & Hprog & Hdone & _);
    pose proof (await_loop_preserves b env t f 0 a0) as (Hzip & Hpc & _);
    destruct (await_loop b env t 0 f a0) as [[[]|e] a1]
  end; simpl in *.
  - specialize (Hdone eq_refl). rewrite enumerate_length in *.
    destruct (browser_close env) as [[]|e]; simpl;
      exists (length lines); rewrite ?progress_events_app, Hprog, Hlogs, progress_events_app;
      simpl; rewrite ?app_nil_r; repeat split; auto; try lia; try discriminate.
  - rewrite enumerate_length in *.
    exists (length lines). rewrite Hprog, Hlogs, progress_events_app.
    simpl. rewrite ?app_nil_r. repeat split; auto; try lia; discriminate.
Qed.

Lemma batch_counts_in_every_run_witness :
  Permutation (as_completed (in_order_env first_silent)
                 (enumerate ["https://a.com"; "https://b.com"]))
    (enumerate ["https://a.com"; "https://b.com"])
  /\ let run := run_batch_processor scripted_browser (in_order_env first_silent)
                  ["https://a.com"; "https://b.com"] fresh_app in
     exists m,
       m <= length ["https://a.com"; "https://b.com"]
       /\ length (logs (session (snd run))) = m
       /\ progress_events (ui (snd run))
          = progress_events (ui fresh_app)
            ++ map (fun k => (k, length ["https://a.com"; "https://b.com"])) (seq 1 m)
       /\ zip_path (session (snd run)) = zip_path (session fresh_app)
       /\ (fst run = Return tt ->
           m = length ["https://a.com"; "https://b.com"]
           /\ processing_complete (session (snd run)) = true)
       /\ (forall e, fst run = Raise e ->
           processing_complete (session (snd run))
           = processing_complete (session fresh_app)).
Proof.
  split; [apply Permutation_refl|].
  apply (batch_counts_in_every_run scripted_browser (in_order_env first_silent)
           ["https://a.com"; "https://b.com"] fresh_app).
  apply Permutation_refl.
Defined.

(* ===================================================================== *)
(** * Further properties of the artifact store *)
(* ===================================================================== *)

Lemma no_slash_app (x y : string) : no_slash x -> no_slash y -> no_slash (x +:+ y).
Proof.
  unfold no_slash. intros Hx Hy H. apply in_class_app in H. tauto.
Qed.

Lemma no_slash_digits (d : uint) : no_slash (NilEmpty.string_of_uint d).
Proof.
  unfold no_slash. induction d; simpl; intros H; try contradiction;
    destruct H as [H|H]; try discriminate H; auto.
Qed.

Lemma no_slash_safe_name (url name : string) :
  safe_name url = Some name -> no_slash name.
Proof.
  unfold safe_name. destruct (nth_error (PyStr.split url "//") 1) as [rest|]; [|discriminate].
  intros H. injection H as <-. intros Hin.
  apply re_sub_class_clean in Hin; [discriminate Hin|].
  intros d [<-|[]]. reflexivity.
Qed.

Lemma no_slash_artifact_filename (index : nat) (name : string) :
  no_slash name -> no_slash (artifact_filename index name).
Proof.
  intros H. unfold artifact_filename, PyStr.str_of_nat.
  apply no_slash_app; [apply no_slash_digits|].
  apply (no_slash_app "_"); [intros [E|[]]; discriminate E|].
  apply no_slash_app; [exact H|].
  intros [E|[E|[E|[E|[]]]]]; discriminate E.
Qed.

Lemma cut_last_slash_none (x : string) :
  no_slash x -> PyStr.cut_last_slash x = None.
Proof.
  unfold no_slash. induction x as [|c x IH]; simpl; [reflexivity|].
  intros H. rewrite IH by tauto.
  destruct (Ascii.eqb_spec c "/"); [|reflexivity]. subst. tauto.
Qed.

Lemma cut_last_slash_app (p x : string) :
  no_slash x -> PyStr.cut_last_slash (p +:+ String "/" x) = Some (p, x).
Proof.
  intros H. induction p as [|c p IH]; simpl.
  - rewrite (cut_last_slash_none x H). reflexivity.
  - rewrite IH. reflexivity.
Qed.

(** The path of a screenshot splits into the screenshot directory and the
    file name of the task. *)
Lemma screenshot_path_split (url : string) (index : nat) (path : string) :
  screenshot_path url index = Some path ->
  exists name,
    safe_name url = Some name
    /\ PyStr.os_path_split path = (SCREENSHOT_DIR, artifact_filename index name).
Proof.
  unfold screenshot_path. destruct (safe_name url) as [name|] eqn:Hname; [|discriminate].
  intros H. injection H as <-. exists name. split; [reflexivity|].
  rewrite os_path_join_screenshots by apply artifact_filename_relative.
  unfold PyStr.os_path_split.
  change ("screenshots/" +:+ artifact_filename index name)
    with ("screenshots" +:+ String "/" (artifact_filename index name)).
  rewrite cut_last_slash_app
    by (apply no_slash_artifact_filename; eapply no_slash_safe_name; eassumption).
  reflexivity.
Qed.

Lemma persist_screenshots (tr : list event) (a : app_state) :
  persist tr a = fold_left (fun a' path => write_file path Picture a') (screenshots tr) a.
Proof.
  revert a. induction tr as [|e tr IH]; intros a; [reflexivity|].
  destruct e; simpl; apply IH.
Qed.

Lemma store_of_batch_write (urls : list string) (a : app_state) (index : nat)
    (url path : string) :
  In (index, url) (enumerate urls) ->
  screenshot_path url index = Some path ->
  store_of_batch urls a ->
  store_of_batch urls (write_file path Picture a).
Proof.
  intros Hin Hpath (Hzip & d & Hd & Hnames).
  destruct (screenshot_path_split url index path Hpath) as (name & Hname & Hsplit).
  unfold store_of_batch, write_file. rewrite Hsplit. simpl. split.
  - rewrite lookup_insert_ne by discriminate. exact Hzip.
  - rewrite lookup_insert_eq, Hd. simpl. eexists. split; [reflexivity|].
    intros n f Hn. destruct (decide (n = artifact_filename index name)) as [->|Hne].
    + rewrite lookup_insert_eq in Hn. injection Hn as <-. split; [reflexivity|].
      exists index, url, name. auto.
    + rewrite lookup_insert_ne in Hn by congruence. eauto.
Qed.

Lemma store_of_batch_task {W : Type} (b : Browser W) (urls : list string) (a : app_state)
    (index : nat) (url : string) (w : W) :
  In (index, url) (enumerate urls) ->
  store_of_batch urls a ->
  store_of_batch urls
    (persist (trace (snd (take_screenshot b url index (start w)))) a).
Proof.
  intros Hin Hstore. rewrite persist_screenshots.
  destruct (shoots_take_screenshot b url index (start w)) as [H|(p & Hp & H)];
    simpl in H; rewrite H; simpl; [exact Hstore|].
  eapply store_of_batch_write; eassumption.
Qed.

(** The screenshots among the first events of a trace that holds at most
    one: none, or that one. *)
Lemma screenshots_firstn (k : nat) (tr : list event) (paths : list string) :
  screenshots tr = paths ->
  length paths <= 1 ->
  screenshots (firstn k tr) = [] \/ screenshots (firstn k tr) = paths.
Proof.
  intros Htr Hlen.
  rewrite <- (firstn_skipn k tr), screenshots_app in Htr.
  destruct (screenshots (firstn k tr)) as [|p l]; [left; reflexivity|right].
  subst paths. simpl in Hlen. rewrite length_app in Hlen.
  destruct l; [|simpl in Hlen; lia].
  destruct (screenshots (skipn k tr)); [reflexivity|simpl in Hlen; lia].
Qed.

(** A task that is cut short writes nothing but its own image. *)
Lemma store_of_batch_cut {W : Type} (b : Browser W) (urls : list string) (a : app_state)
    (index : nat) (url : string) (w : W) (k : nat) :
  In (index, url) (enumerate urls) ->
  store_of_batch urls a ->
  store_of_batch urls
    (persist (firstn k (trace (snd (take_screenshot b url index (start w))))) a).
Proof.
  intros Hin Hstore. rewrite persist_screenshots.
  destruct (shoots_take_screenshot b url index (start w)) as [H|(p & Hp & H)];
    simpl in H.
  - destruct (screenshots_firstn k _ [] H) as [Hk|Hk]; [simpl; lia| |];
      rewrite Hk; exact Hstore.
  - destruct (screenshots_firstn k _ [p] H) as [Hk|Hk]; [simpl; lia| |];
      rewrite Hk; simpl; [exact Hstore|].
    eapply store_of_batch_write; eassumption.
Qed.

Lemma abandoned_store {W : Type} (b : Browser W) (env : batch_env W) (urls : list string)
    (futures : list (nat * string)) :
  (forall task, In task futures -> In task (enumerate urls)) ->
  forall a : app_state,
    store_of_batch urls a ->
    store_of_batch urls (abandoned b env futures a).
Proof.
  induction futures as [|[index url] futures IH]; intros Hin a Hstore; [exact Hstore|].
  simpl. apply IH; [intros task H; apply Hin; right; exact H|].
  apply store_of_batch_cut; [apply Hin; left; reflexivity | exact Hstore].
Qed.

Lemma await_loop_store {W : Type} (b : Browser W) (env : batch_env W) (urls : list string)
    (total_tasks : nat) (futures : list (nat * string)) :
  (forall task, In task futures -> In task (enumerate urls)) ->
  forall (i : nat) (a : app_state),
    store_of_batch urls a ->
    store_of_batch urls (snd (await_loop b env total_tasks i futures a)).
Proof.
  induction futures as [|[index url] futures IH]; intros Hin i a Hstore; [exact Hstore|].
  simpl.
  pose proof (store_of_batch_task b urls a index url (task_world env index)
                (Hin _ (or_introl eq_refl)) Hstore) as Htask.
  destruct (take_screenshot b url index (start (task_world env index))) as [[line|e] ts];
    simpl in *.
  - apply IH; [intros task H; apply Hin; right; exact H|]. exact Htask.
  - apply abandoned_store; [intros task H; apply Hin; right; exact H|]. exact Htask.
Qed.

(** The store after the branch of the start button. *)
Lemma start_processing_store {W : Type} (b : Browser W)
    (env : batch_env W) (urls : list string) (a : app_state) :
  Permutation (as_completed env (enumerate urls)) (enumerate urls) ->
  store_of_batch urls (snd (start_processing b env urls a)).
Proof.
  intros Hperm.
  unfold start_processing, bind at 1. rewrite flush_files_run.
  unfold bind, modify, run_batch_processor, bind, modify. simpl.
  match goal with |- context [await_loop b env ?t 0 ?f ?a0] =>
    assert (Hstart : store_of_batch urls a0);
      [|pose proof (await_loop_store b env urls t f
                      (fun task H => Permutation_in task Hperm H) 0 a0 Hstart) as Hloop]
  end.
  { split; simpl.
    - apply lookup_insert_eq.
    - exists ∅. split.
      + rewrite lookup_insert_ne by discriminate. apply lookup_insert_eq.
      + intros name f H. rewrite lookup_empty in H. discriminate. }
  destruct (launch env) as [[]|e]; simpl.
  2: { split; simpl.
       - apply lookup_insert_eq.
       - exists ∅. split.
         + rewrite lookup_insert_ne by discriminate. apply lookup_insert_eq.
         + intros name f H. rewrite lookup_empty in H. discriminate. }
  match goal with |- context [await_loop b env ?t 0 ?f ?a0] =>
    destruct (await_loop b env t 0 f a0) as [[[]|e] a1]
  end; simpl in *; [|exact Hloop].
  destruct (browser_close env) as [[]|e]; simpl; exact Hloop.
Qed.



(** A batch abandoned at its first task while the second has taken its
    picture: the picture of the second task is on disk, the picture of the
    earlier batch is gone, and no status line is logged. *)
Example abandoned_batch_keeps_picture :
  let run := start_processing scripted_browser (racing_env first_silent)
               ["https://a.com"; "https://b.com"] after_batch in
  fst run = Raise IndexError
  /\ fs (snd run) !! SCREENSHOT_DIR = Some {["2_b.com.png" := Picture]}
  /\ fs (snd run) !! ZIP_DIR = Some ∅
  /\ logs (session (snd run)) = [].
Proof. repeat split; vm_compute; reflexivity. Qed.

(** The same batch when the second task has not begun: nothing on disk. *)
Example abandoned_batch_without_picture :
  let run := start_processing scripted_browser (in_order_env first_silent)
               ["https://a.com"; "https://b.com"] after_batch in
  fst run = Raise IndexError
  /\ fs (snd run) !! SCREENSHOT_DIR = Some ∅
  /\ fs (snd run) !! ZIP_DIR = Some ∅.
Proof. repeat split; vm_compute; reflexivity. Qed.

(** The results section on a state without remembered archive path. *)
Lemma results_section_first_run (a : app_state) (d : gmap string file) :
  processing_complete (session a) = true ->
  zip_path_set (session a) = false ->
  fs a !! SCREENSHOT_DIR = Some d ->
  exists a1,
    results_section a = (Return tt, a1)
    /\ fs a1 = (if decide (d = ∅) then fs a
                else <[ZIP_DIR := <["screenshots.zip" := Archive (dom d)]>
                                    (default ∅ (fs a !! ZIP_DIR))]> (fs a))
    /\ zip_path (session a1) = (if decide (d = ∅) then zip_path (session a)
                                else Some "zip_files/screenshots.zip")
    /\ processing_complete (session a1) = true.
Proof.
  intros Hpc Hzip Hdir.
  unfold results_section. rewrite Hpc. simpl.
  unfold bind at 1. unfold modify at 1.
  unfold bind at 1. simpl. rewrite Hzip.
  unfold bind at 1. unfold any_scandir at 1. simpl. rewrite Hdir.
  destruct (decide (d = ∅)) as [->|Hne].
  - rewrite bool_decide_eq_true_2 by reflexivity. simpl.
    unfold modify at 1. unfold bind at 1. simpl. rewrite Hzip.
    destruct (logs (session a)) eqn:Hlogs; simpl; rewrite ?Hlogs;
      eexists; (split; [reflexivity|]); simpl; auto.
  - rewrite bool_decide_eq_false_2 by exact Hne. simpl.
    unfold bind at 1. unfold shutil_make_archive at 1. simpl. rewrite Hdir.
    change (PyStr.os_path_split (PyStr.os_path_join ZIP_DIR "screenshots"))
      with ("zip_files", "screenshots").
    simpl. unfold modify at 1. unfold bind at 1. unfold zip_path_set. simpl.
    unfold bind at 1. unfold open_rb at 1.
    change (PyStr.os_path_split _) with ("zip_files", "screenshots.zip").
    simpl. rewrite lookup_insert_eq, lookup_insert_eq.
    unfold modify at 1. simpl.
    destruct (logs (session a)) eqn:Hlogs; simpl; rewrite ?Hlogs;
      eexists; (split; [reflexivity|]); simpl; auto.
Qed.

Lemma has_file_same_fs (a a' : app_state) (path : string) :
  fs a' = fs a -> has_file a path -> has_file a' path.
Proof.
  unfold has_file, open_rb. intros ->. destruct (PyStr.os_path_split path) as [dir name].
  destruct (fs a !! dir) as [d|]; [|auto]. destruct (d !! name); auto.
Qed.

(** With an archive path remembered and its file in place, the results
    section returns. *)
Lemma results_section_rerun_returns (a : app_state) :
  zip_path_set (session a) = true ->
  has_file a (default "" (zip_path (session a))) ->
  fst (results_section a) = Return tt.
Proof.
  intros Hzip Hfile. unfold results_section.
  destruct (processing_complete (session a)); simpl; [|reflexivity].
  unfold bind, modify. simpl. rewrite Hzip. simpl. rewrite Hzip.
  pose proof (open_rb_state (default "" (zip_path (session a)))
                (show (UiHeader "Results") a)) as Hopen.
  destruct (has_file_same_fs a (show (UiHeader "Results") a) _ eq_refl Hfile)
    as [f Hsame].
  destruct (open_rb (default "" (zip_path (session a))) (show (UiHeader "Results") a))
    as [[f'|e] a']; simpl in *; [|discriminate]. subst a'. simpl.
  destruct (logs (session a)); reflexivity.
Qed.

(** X10: in a store that is in order (both directories exist, a
    remembered archive path names a file that is there) the results section
    never raises, and the three operations on the store keep it in order:
    the results section, flush, and the branch of the start button with
    whatever batch. *)
Theorem store_stays_in_order (a : app_state) :
  store_ok a ->
  (exists a1, results_section a = (Return tt, a1) /\ store_ok a1)
  /\ store_ok (snd (flush_files a))
  /\ forall (W : Type) (b : Browser W) (env : batch_env W) (urls : list string),
       store_ok (snd (start_processing b env urls a)).
Proof.
  intros (Hshots & Hzips & Hfile). split; [|split].
  - destruct (zip_path_set (session a)) eqn:Hzip.
    + pose proof (results_section_rerun_returns a Hzip (Hfile eq_refl)) as Hret.
      destruct (results_section_reuses a Hzip) as [Hfs Hss].
      destruct (results_section a) as [r a1]. simpl in *. subst r.
      exists a1. split; [reflexivity|]. unfold store_ok. rewrite Hfs, Hss.
      repeat split; auto. intros _. eapply has_file_same_fs; eauto.
    + destruct (processing_complete (session a)) eqn:Hpc.
      * destruct Hshots as [d Hd].
        destruct (results_section_first_run a d Hpc Hzip Hd) as (a1 & Hrun & Hfs & Hz & _).
        exists a1. split; [exact Hrun|]. unfold store_ok. rewrite Hfs.
        destruct (decide (d = ∅)) as [->|Hne].
        -- rewrite Hd. repeat split; eauto.
           unfold zip_path_set in *. rewrite Hz. rewrite Hzip. discriminate.
        -- rewrite lookup_insert_ne by discriminate. rewrite lookup_insert_eq, Hd.
           repeat split; eauto. intros _. rewrite Hz. simpl.
           unfold has_file, open_rb.
           change (PyStr.os_path_split "zip_files/screenshots.zip")
             with ("zip_files", "screenshots.zip").
           rewrite Hfs. rewrite lookup_insert_eq, lookup_insert_eq. eauto.
      * exists a. unfold results_section. rewrite Hpc. simpl. split; [reflexivity|].
        unfold store_ok. rewrite Hzip. repeat split; auto; discriminate.
  - rewrite flush_files_run. unfold store_ok. simpl. split; [|split].
    + rewrite lookup_insert_ne by discriminate. rewrite lookup_insert_eq. eauto.
    + rewrite lookup_insert_eq. eauto.
    + discriminate.
  - intros W b env urls.
    unfold start_processing, bind at 1. rewrite flush_files_run.
    unfold bind, modify, run_batch_processor, bind, modify. simpl.
    assert (Hdone : forall a0 : app_state,
              is_Some (fs a0 !! SCREENSHOT_DIR) -> is_Some (fs a0 !! ZIP_DIR) ->
              zip_path (session a0) = None -> store_ok a0).
    { intros a0 H1 H2 H3. unfold store_ok, zip_path_set. rewrite H3.
      repeat split; auto; discriminate. }
    destruct (launch env) as [[]|e]; simpl.
    2: { apply Hdone; simpl; auto.
         - rewrite lookup_insert_ne by discriminate. rewrite lookup_insert_eq. eauto.
         - rewrite lookup_insert_eq. eauto. }
    match goal with |- context [await_loop b env ?t 0 ?f ?a0] =>
      pose proof (await_loop_preserves b env t f 0 a0) as (Hz & _ & Hdirs);
      destruct (await_loop b env t 0 f a0) as [[[]|e] a1]
    end; simpl in *.
    + assert (H1 : is_Some (fs a1 !! SCREENSHOT_DIR)).
      { apply Hdirs. rewrite lookup_insert_ne by discriminate.
        rewrite lookup_insert_eq. eauto. }
      assert (H2 : is_Some (fs a1 !! ZIP_DIR)).
      { apply Hdirs. rewrite lookup_insert_eq. eauto. }
      destruct (browser_close env) as [[]|e]; simpl; apply Hdone; simpl; auto.
    + apply Hdone; auto.
      * apply Hdirs. rewrite lookup_insert_ne by discriminate.
        rewrite lookup_insert_eq. eauto.
      * apply Hdirs. rewrite lookup_insert_eq. eauto.
Qed.

Lemma store_stays_in_order_witness :
  store_ok after_batch
  /\ (exists a1, results_section after_batch = (Return tt, a1) /\ store_ok a1)
  /\ store_ok (snd (flush_files after_batch))
  /\ forall (W : Type) (b : Browser W) (env : batch_env W) (urls : list string),
       store_ok (snd (start_processing b env urls after_batch)).
Proof.
  assert (H : store_ok after_batch).
  { unfold store_ok. split; [|split].
    - exists {["1_a.com.png" := Picture]}. reflexivity.
    - exists ∅. reflexivity.
    - discriminate. }
  split; [exact H|]. apply (store_stays_in_order after_batch). exact H.
Defined.

(** X11: when the branch of the start button returns, the results section
    that follows returns too; if the batch left screenshots, it writes the
    one archive [screenshots.zip] into the empty archive directory, with
    exactly the screenshots of this batch as members, and remembers its
    path; if it left none, it writes nothing and remembers nothing. *)
Theorem archive_holds_this_batch {W : Type} (b : Browser W) (env : batch_env W)
    (urls : list string) (a a' : app_state) :
  Permutation (as_completed env (enumerate urls)) (enumerate urls) ->
  start_processing b env urls a = (Return tt, a') ->
  exists d a1,
    fs a' !! SCREENSHOT_DIR = Some d
    /\ results_section a' = (Return tt, a1)
    /\ (forall name, name ∈ dom d -> artifact_of urls name)
    /\ (d <> ∅ ->
        fs a1 !! ZIP_DIR = Some {["screenshots.zip" := Archive (dom d)]}
        /\ zip_path (session a1) = Some "zip_files/screenshots.zip")
    /\ (d = ∅ -> fs a1 = fs a' /\ zip_path (session a1) = None).
Proof.
  intros Hperm Hrun.
  destruct (start_processing_ready b env urls a a' Hrun) as (Hpc & Hzip & _).
  pose proof (start_processing_store b env urls a Hperm) as Hstore.
  rewrite Hrun in Hstore. simpl in Hstore. destruct Hstore as (Hzips & d & Hd & Hnames).
  assert (Hunset : zip_path_set (session a') = false)
    by (unfold zip_path_set; rewrite Hzip; reflexivity).
  destruct (results_section_first_run a' d Hpc Hunset Hd) as (a1 & Hres & Hfs & Hz & _).
  exists d, a1. split; [exact Hd|]. split; [exact Hres|]. split.
  { intros name Hin. apply elem_of_dom in Hin. destruct Hin as [f Hf].
    exact (proj2 (Hnames name f Hf)). }
  destruct (decide (d = ∅)) as [->|Hne].
  - split; [congruence|]. intros _. rewrite Hz, Hzip. auto.
  - split; [|contradiction]. intros _. rewrite Hfs, Hz, Hzips. simpl.
    rewrite lookup_insert_eq. rewrite insert_empty. auto.
Qed.

Lemma archive_holds_this_batch_witness :
  Permutation (as_completed (in_order_env (fun _ => tall_page))
                 (enumerate ["https://a.com"]))
    (enumerate ["https://a.com"])
  /\ start_processing scripted_browser (in_order_env (fun _ => tall_page))
       ["https://a.com"] fresh_app
     = (Return tt,
        snd (start_processing scripted_browser (in_order_env (fun _ => tall_page))
               ["https://a.com"] fresh_app))
  /\ exists d a1,
       fs (snd (start_processing scripted_browser (in_order_env (fun _ => tall_page))
                  ["https://a.com"] fresh_app)) !! SCREENSHOT_DIR = Some d
       /\ results_section
            (snd (start_processing scripted_browser (in_order_env (fun _ => tall_page))
                    ["https://a.com"] fresh_app)) = (Return tt, a1)
       /\ (forall name, name ∈ dom d -> artifact_of ["https://a.com"] name)
       /\ (d <> ∅ ->
           fs a1 !! ZIP_DIR = Some {["screenshots.zip" := Archive (dom d)]}
           /\ zip_path (session a1) = Some "zip_files/screenshots.zip")
       /\ (d = ∅ ->
           fs a1 = fs (snd (start_processing scripted_browser
                              (in_order_env (fun _ => tall_page))
                              ["https://a.com"] fresh_app))
           /\ zip_path (session a1) = None).
Proof.
  split; [apply Permutation_refl|]. split; [vm_compute; reflexivity|].
  apply (archive_holds_this_batch scripted_browser (in_order_env (fun _ => tall_page))
           ["https://a.com"] fresh_app).
  - apply Permutation_refl.
  - vm_compute. reflexivity.
Defined.

(* ===================================================================== *)
(** * Further properties of the input area *)
(* ===================================================================== *)

Lemma append_cons (c : ascii) (x y : string) : String c x +:+ y = String c (x +:+ y).
Proof. reflexivity. Qed.

Lemma append_nil_r (s : string) : s +:+ "" = s.
Proof. induction s as [|c s IH]; [reflexivity|]. rewrite append_cons, IH. reflexivity. Qed.

Lemma append_assoc (x y z : string) : (x +:+ y) +:+ z = x +:+ (y +:+ z).
Proof.
  induction x as [|c x IH]; [reflexivity|]. rewrite !append_cons, IH. reflexivity.
Qed.

Lemma length_append (x y : string) :
  String.length (x +:+ y) = String.length x + String.length y.
Proof.
  induction x as [|c x IH]; [reflexivity|]. rewrite append_cons. simpl.
  rewrite IH. reflexivity.
Qed.

Lemma prefix_append (p r : string) : String.prefix p (p +:+ r) = true.
Proof.
  induction p as [|c p IH]; [apply prefix_empty|]. rewrite append_cons. simpl.
  destruct (ascii_dec c c); [exact IH | congruence].
Qed.

Lemma whitespace_nonempty (w : string) : In w PyStr.whitespace -> w <> "".
Proof.
  intros H E. subst w. vm_compute in H.
  repeat (destruct H as [H|H]; [discriminate|]). exact H.
Qed.

Lemma match_len_zero (pats : list string) (s : string) :
  (forall p, In p pats -> p <> "") ->
  PyStr.match_len pats s = 0 ->
  forall p, In p pats -> String.prefix p s = false.
Proof.
  induction pats as [|q pats IH]; intros Hne H p Hin; [destruct Hin|].
  simpl in H. destruct (String.prefix q s) eqn:E.
  - exfalso. apply (Hne q (or_introl eq_refl)). destruct q; [reflexivity|discriminate].
  - destruct Hin as [<-|Hin]; [exact E|].
    apply IH; auto. intros p' Hp'. apply Hne. right. exact Hp'.
Qed.

Lemma match_len_pos (pats : list string) (s : string) (k : nat) :
  PyStr.match_len pats s = S k ->
  exists w t, In w pats /\ s = w +:+ t /\ String.length w = S k.
Proof.
  induction pats as [|q pats IH]; intros H; [discriminate|].
  simpl in H. destruct (String.prefix q s) eqn:E.
  - destruct (prefix_app q s E) as [t ->]. exists q, t. simpl. auto.
  - destruct (IH H) as (w & t & Hw & Hs & Hl). exists w, t. simpl. auto.
Qed.

Lemma match_len_whitespace_app (w t : string) :
  In w PyStr.whitespace ->
  PyStr.match_len PyStr.whitespace (w +:+ t) = String.length w.
Proof.
  intros H. vm_compute in H.
  repeat (destruct H as [<-|H];
          [destruct t; vm_compute; reflexivity|]).
  destruct H.
Qed.

Lemma lstrip_aux_step (c : ascii) (s : string) :
  PyStr.lstrip_aux 0 (String c s)
  = match PyStr.match_len PyStr.whitespace (String c s) with
    | S k => PyStr.lstrip_aux k s
    | O => String c s
    end.
Proof. reflexivity. Qed.

Lemma lstrip_aux_skip (w t : string) :
  PyStr.lstrip_aux (String.length w) (w +:+ t) = PyStr.lstrip_aux 0 t.
Proof.
  induction w as [|c w IH]; [reflexivity|]. rewrite append_cons. exact IH.
Qed.

(** Leading white space goes. *)
Lemma lstrip_space (w t : string) :
  In w PyStr.whitespace -> PyStr.lstrip (w +:+ t) = PyStr.lstrip t.
Proof.
  intros H. pose proof (match_len_whitespace_app w t H) as Hlen.
  pose proof (whitespace_nonempty w H) as Hne.
  destruct w as [|c w]; [congruence|].
  unfold PyStr.lstrip. rewrite append_cons in *. rewrite lstrip_aux_step, Hlen.
  simpl String.length. apply lstrip_aux_skip.
Qed.

Lemma lstrip_spec (s : string) :
  exists lead,
    s = lead +:+ PyStr.lstrip s
    /\ blank lead
    /\ PyStr.match_len PyStr.whitespace (PyStr.lstrip s) = 0.
Proof.
  remember (String.length s) as n eqn:Hn. revert s Hn.
  induction n as [n IH] using lt_wf_ind. intros s Hn.
  destruct s as [|c s].
  - exists "". split; [reflexivity|]. split; [constructor | reflexivity].
  - destruct (PyStr.match_len PyStr.whitespace (String c s)) as [|k] eqn:E.
    + exists "". unfold PyStr.lstrip. rewrite lstrip_aux_step, E.
      split; [reflexivity|]. split; [constructor | exact E].
    + destruct (match_len_pos _ _ _ E) as (w & t & Hw & Hs & Hl).
      rewrite Hs. rewrite (lstrip_space w t Hw).
      destruct (IH (String.length t)) with (s := t) as (lead & Ht & Hb & Hm);
        [|reflexivity|].
      { subst n. rewrite Hs, length_append. lia. }
      exists (w +:+ lead). rewrite append_assoc, <- Ht.
      split; [reflexivity|]. split; [constructor; assumption | exact Hm].
Qed.

Lemma blank_lstrip (s : string) : blank s -> PyStr.lstrip s = "".
Proof.
  induction 1 as [|w s Hw Hs IH]; [reflexivity|]. rewrite lstrip_space by exact Hw. exact IH.
Qed.

Lemma lstrip_blank (s : string) : PyStr.lstrip s = "" -> blank s.
Proof.
  intros H. destruct (lstrip_spec s) as (lead & Hs & Hb & _).
  rewrite H, append_nil_r in Hs. subst. exact Hb.
Qed.

Lemma all_space_blank (s : string) : PyStr.all_space s = true <-> blank s.
Proof.
  unfold PyStr.all_space. split.
  - intros H. apply lstrip_blank. destruct (PyStr.lstrip s); [reflexivity|discriminate].
  - intros H. rewrite (blank_lstrip s H). reflexivity.
Qed.

Lemma blank_app (x y : string) : blank x -> blank y -> blank (x +:+ y).
Proof.
  induction 1 as [|w s Hw Hs IH]; intros Hy; [exact Hy|].
  rewrite append_assoc. constructor; auto.
Qed.

Lemma rstrip_step (c : ascii) (s : string) :
  PyStr.rstrip (String c s)
  = if PyStr.all_space (String c s) then "" else String c (PyStr.rstrip s).
Proof. reflexivity. Qed.

Lemma rstrip_spec (x : string) :
  exists trail, x = PyStr.rstrip x +:+ trail /\ blank trail.
Proof.
  induction x as [|c x (trail & Hx & Hb)]; [exists ""; split; [reflexivity|constructor]|].
  rewrite rstrip_step. destruct (PyStr.all_space (String c x)) eqn:E.
  - exists (String c x). split; [reflexivity|]. apply all_space_blank. exact E.
  - exists trail. rewrite append_cons, <- Hx. auto.
Qed.

Lemma rstrip_blank (x : string) : blank x -> PyStr.rstrip x = "".
Proof.
  intros H. destruct x as [|c x]; [reflexivity|].
  rewrite rstrip_step. apply all_space_blank in H. rewrite H. reflexivity.
Qed.

Lemma rstrip_suffix (y z x : string) :
  PyStr.rstrip x = y +:+ z -> exists rest, x = y +:+ rest /\ PyStr.rstrip rest = z.
Proof.
  revert x. induction y as [|c y IH]; intros x H; [exists x; auto|].
  destruct x as [|d x]; [discriminate|].
  rewrite rstrip_step, append_cons in H.
  destruct (PyStr.all_space (String d x)); [discriminate|].
  injection H as -> H. destruct (IH x H) as (rest & -> & Hr).
  exists rest. auto.
Qed.

(** What [rstrip] leaves does not end with white space. *)
Lemma rstrip_no_space_end (x y w : string) :
  In w PyStr.whitespace -> PyStr.rstrip x <> y +:+ w.
Proof.
  intros Hw H. destruct (rstrip_suffix y w x H) as (rest & _ & Hr).
  destruct (rstrip_spec rest) as (trail & Hrest & Hb).
  rewrite Hr in Hrest.
  assert (Hblank : blank rest) by (rewrite Hrest; constructor; assumption).
  rewrite (rstrip_blank rest Hblank) in Hr.
  apply (whitespace_nonempty w Hw). congruence.
Qed.

Lemma strip_spec (raw : string) : stripped_of raw (PyStr.strip raw).
Proof.
  unfold PyStr.strip.
  destruct (lstrip_spec raw) as (lead & Hraw & Hlead & Hm).
  destruct (rstrip_spec (PyStr.lstrip raw)) as (trail & Hx & Htrail).
  exists lead, trail. split; [rewrite <- Hx; exact Hraw|].
  split; [exact Hlead|]. split; [exact Htrail|].
  intros w Hw. split; [|intros x; apply rstrip_no_space_end; exact Hw].
  destruct (String.prefix w (PyStr.rstrip (PyStr.lstrip raw))) eqn:E; [|reflexivity].
  apply prefix_app in E. destruct E as [r E].
  pose proof (match_len_zero _ _ whitespace_nonempty Hm w Hw) as Hp.
  rewrite Hx, E, append_assoc, prefix_append in Hp. discriminate.
Qed.

Lemma strip_blank (raw : string) : PyStr.strip raw = "" <-> blank raw.
Proof.
  unfold PyStr.strip. split.
  - intros H. destruct (lstrip_spec raw) as (lead & Hraw & Hlead & _).
    destruct (rstrip_spec (PyStr.lstrip raw)) as (trail & Hx & Htrail).
    rewrite H in Hx. change ("" +:+ trail) with trail in Hx.
    rewrite Hraw, Hx. apply blank_app; assumption.
  - intros H. rewrite (blank_lstrip raw H). reflexivity.
Qed.

Lemma split_line_feed_step (c : ascii) (s : string) :
  PyStr.split (String c s) (PyStr.chr 10)
  = if Ascii.eqb c (ascii_of_nat 10)
    then "" :: PyStr.split s (PyStr.chr 10)
    else match PyStr.split s (PyStr.chr 10) with
         | [] => [String c ""]
         | p :: ps => String c p :: ps
         end.
Proof.
  unfold PyStr.split.
  change (PyStr.split_aux (PyStr.chr 10) 0 (String c s))
    with (if (if ascii_dec (ascii_of_nat 10) c then String.prefix "" s else false)
          then "" :: PyStr.split_aux (PyStr.chr 10) 0 s
          else match PyStr.split_aux (PyStr.chr 10) 0 s with
               | [] => [String c ""]
               | p :: ps => String c p :: ps
               end).
  destruct (ascii_dec (ascii_of_nat 10) c) as [<-|Hne].
  - rewrite prefix_empty. reflexivity.
  - destruct (Ascii.eqb_spec c (ascii_of_nat 10)) as [E|_]; [congruence|]. reflexivity.
Qed.

(** The pieces that [split] cuts at the line feeds give the text back when
    joined with line feeds, and hold no line feed themselves. *)
Lemma split_line_feed (s : string) :
  PyStr.join (PyStr.chr 10) (PyStr.split s (PyStr.chr 10)) = s
  /\ PyStr.split s (PyStr.chr 10) <> []
  /\ Forall no_line_feed (PyStr.split s (PyStr.chr 10)).
Proof.
  induction s as [|c s (Hjoin & Hne & Hall)].
  - split; [reflexivity|]. split; [discriminate|]. repeat constructor. intros [].
  - rewrite split_line_feed_step.
    destruct (PyStr.split s (PyStr.chr 10)) as [|p ps] eqn:E; [congruence|].
    destruct (Ascii.eqb_spec c (ascii_of_nat 10)) as [->|Hc].
    + split; [|split; [discriminate|]].
      * change (PyStr.join (PyStr.chr 10) ("" :: p :: ps))
          with (String (ascii_of_nat 10) (PyStr.join (PyStr.chr 10) (p :: ps))).
        rewrite Hjoin. reflexivity.
      * constructor; [intros []|exact Hall].
    + split; [|split; [discriminate|]].
      * destruct ps as [|q ps].
        -- simpl in *. congruence.
        -- change (PyStr.join (PyStr.chr 10) (String c p :: q :: ps))
             with (String c (PyStr.join (PyStr.chr 10) (p :: q :: ps))).
           rewrite Hjoin. reflexivity.
      * inversion Hall as [|? ? Hp Hps]; subst. constructor; [|exact Hps].
        unfold no_line_feed in *. simpl. intros [H|H]; [congruence|contradiction].
Qed.

(** The lines that the paste handler keeps. *)
Lemma kept_lines_flat_map (raws : list string) :
  kept_lines raws
    (flat_map (fun line => if PyStr.truthy (PyStr.strip line) then [PyStr.strip line] else [])
       raws).
Proof.
  induction raws as [|raw raws IH]; [constructor|]. simpl.
  destruct (PyStr.strip raw) as [|c line] eqn:E; simpl.
  - apply kept_drop; [apply strip_blank; exact E | exact IH].
  - apply kept_keep; [rewrite <- E; apply strip_spec | discriminate | exact IH].
Qed.

Lemma whitespace_line_feed (w : string) :
  In w PyStr.whitespace -> w = PyStr.chr 10 \/ no_line_feed w.
Proof.
  intros H. vm_compute in H.
  repeat (destruct H as [<-|H];
          [first [left; reflexivity
                 | right; unfold no_line_feed; simpl; intuition discriminate]|]).
  destruct H.
Qed.

Lemma split_app_no_line_feed (w s : string) :
  no_line_feed w ->
  PyStr.split (w +:+ s) (PyStr.chr 10)
  = match PyStr.split s (PyStr.chr 10) with
    | [] => [w]
    | p :: ps => (w +:+ p) :: ps
    end.
Proof.
  unfold no_line_feed. induction w as [|c w IH]; intros H.
  - change ("" +:+ s) with s. destruct (PyStr.split s (PyStr.chr 10)) eqn:E; [|reflexivity].
    exfalso. exact (split_aux_nonempty _ _ _ E).
  - rewrite append_cons, split_line_feed_step. simpl in H.
    destruct (Ascii.eqb_spec c (ascii_of_nat 10)) as [->|Hc]; [tauto|].
    rewrite IH by tauto.
    destruct (PyStr.split s (PyStr.chr 10)); reflexivity.
Qed.

(** Every line of a text of white space is white space. *)
Lemma blank_lines (s : string) : blank s -> Forall blank (PyStr.split s (PyStr.chr 10)).
Proof.
  induction 1 as [|w s Hw Hs IH]; [repeat constructor|].
  destruct (whitespace_line_feed w Hw) as [->|Hn].
  - change (PyStr.chr 10 +:+ s) with (String (ascii_of_nat 10) s).
    rewrite split_line_feed_step. simpl. constructor; [constructor | exact IH].
  - rewrite split_app_no_line_feed by exact Hn.
    destruct (PyStr.split s (PyStr.chr 10)) as [|p ps]; [repeat constructor|].
    + rewrite <- (append_nil_r w). constructor; [exact Hw | constructor].
    + inversion IH; subst. constructor; [constructor; assumption | assumption].
Qed.

Lemma flat_map_blank (raws : list string) :
  Forall blank raws ->
  flat_map (fun line => if PyStr.truthy (PyStr.strip line) then [PyStr.strip line] else [])
    raws = [].
Proof.
  induction 1 as [|raw raws Hraw Hraws IH]; [reflexivity|]. simpl.
  rewrite (proj2 (strip_blank raw) Hraw). exact IH.
Qed.

Lemma add_scheme_map (lines : list string) : add_scheme lines = map with_scheme lines.
Proof.
  induction lines as [|line lines IH]; [reflexivity|].
  change (add_scheme (line :: lines))
    with ((if negb (has_scheme line) then "https://" +:+ line else line)
          :: add_scheme lines).
  rewrite IH. simpl map. f_equal.
  unfold with_scheme, has_scheme, PyStr.startswith_any, PyStr.startswith. simpl existsb.
  rewrite orb_false_r.
  destruct (String.prefix "http://" line || String.prefix "https://" line); reflexivity.
Qed.

(** The lines that the paste handler takes from a text are the kept lines
    of the pieces between its line feeds. *)
Lemma pasted_lines_kept (url_input : string) :
  exists raws,
    PyStr.join (PyStr.chr 10) raws = url_input
    /\ raws <> []
    /\ Forall no_line_feed raws
    /\ kept_lines raws (pasted_lines url_input).
Proof.
  exists (PyStr.split url_input (PyStr.chr 10)).
  destruct (split_line_feed url_input) as (H1 & H2 & H3).
  split; [exact H1|]. split; [exact H2|]. split; [exact H3|].
  apply kept_lines_flat_map.
Qed.

(** A text of white space only gives no line. *)
Lemma pasted_lines_blank (url_input : string) :
  blank url_input -> pasted_lines url_input = [].
Proof. intros H. apply flat_map_blank, blank_lines, H. Qed.

Lemma add_scheme_length (lines : list string) : length (add_scheme lines) = length lines.
Proof. induction lines as [|line lines IH]; simpl; [reflexivity | rewrite IH; reflexivity]. Qed.

(** The paste handler never raises; what it returns for a text. *)
Lemma paste_handler_run (url_input : string) (urls_to_process : list string) (a : app_state) :
  exists a',
    paste_handler url_input urls_to_process a
    = (Return (if PyStr.truthy url_input
               then add_scheme (firstn 10 (pasted_lines url_input))
               else urls_to_process), a')
    /\ fs a' = fs a /\ session a' = session a
    /\ ui a' = ui a ++
               (if PyStr.truthy url_input && (10 <? length (pasted_lines url_input))
                then [UiWarning
                        "You have entered more than 10 URLs. Only the first 10 will be processed."]
                else []).
Proof.
  unfold paste_handler. destruct (PyStr.truthy url_input); simpl.
  - unfold bind. destruct (10 <? length (pasted_lines url_input)) eqn:E; simpl.
    + eexists. split; [reflexivity|]. auto.
    + apply Nat.ltb_ge in E. rewrite firstn_all2 by exact E.
      eexists. split; [reflexivity|]. simpl. rewrite app_nil_r. auto.
  - exists a. rewrite app_nil_r. auto.
Qed.

(** X12: the paste handler never raises and never hands on more than 10
    addresses.  A non-empty text is cut at its line feeds into raw lines;
    the lines kept are the raw lines that are not white space only, in
    their order, each without the white space at its two ends; the addresses
    are the first 10 of them, each behind [https://] unless it starts with
    [http://] or [https://]; the warning is shown exactly when more than 10
    lines were kept; file system and session are not touched. *)
Theorem paste_handler_caps_at_ten (url_input : string) (urls_to_process : list string)
    (a : app_state) :
  url_input <> "" ->
  exists raws lines urls a',
    PyStr.join (PyStr.chr 10) raws = url_input
    /\ raws <> []
    /\ Forall no_line_feed raws
    /\ kept_lines raws lines
    /\ paste_handler url_input urls_to_process a = (Return urls, a')
    /\ urls = map with_scheme (firstn 10 lines)
    /\ length urls = Nat.min 10 (length lines)
    /\ Forall (fun url => has_scheme url = true) urls
    /\ fs a' = fs a /\ session a' = session a
    /\ (10 < length lines ->
        ui a' = ui a ++ [UiWarning
          "You have entered more than 10 URLs. Only the first 10 will be processed."])
    /\ (length lines <= 10 -> ui a' = ui a).
Proof.
  intros Htext.
  assert (Htruthy : PyStr.truthy url_input = true)
    by (destruct url_input; [congruence | reflexivity]).
  destruct (pasted_lines_kept url_input) as (raws & Hjoin & Hne & Hlf & Hkept).
  destruct (paste_handler_run url_input urls_to_process a) as (a' & Hrun & Hfs & Hss & Hui).
  rewrite Htruthy in Hrun, Hui. simpl in Hui.
  exists raws, (pasted_lines url_input). eexists _, a'.
  split; [exact Hjoin|]. split; [exact Hne|]. split; [exact Hlf|]. split; [exact Hkept|].
  split; [exact Hrun|]. split; [apply add_scheme_map|].
  split; [rewrite add_scheme_length; apply length_firstn|].
  split; [apply add_scheme_spec|]. split; [exact Hfs|]. split; [exact Hss|]. split.
  - intros H. apply Nat.ltb_lt in H. rewrite H in Hui. exact Hui.
  - intros H. apply Nat.ltb_ge in H. rewrite H, app_nil_r in Hui. exact Hui.
Qed.

Lemma paste_handler_caps_at_ten_witness :
  "a.com" +:+ PyStr.chr 10 +:+ "  " +:+ PyStr.chr 10 +:+ " b.org " <> ""
  /\ exists raws lines urls a',
       PyStr.join (PyStr.chr 10) raws
       = "a.com" +:+ PyStr.chr 10 +:+ "  " +:+ PyStr.chr 10 +:+ " b.org "
       /\ raws <> []
       /\ Forall no_line_feed raws
       /\ kept_lines raws lines
       /\ paste_handler ("a.com" +:+ PyStr.chr 10 +:+ "  " +:+ PyStr.chr 10 +:+ " b.org ")
            [] fresh_app = (Return urls, a')
       /\ urls = map with_scheme (firstn 10 lines)
       /\ length urls = Nat.min 10 (length lines)
       /\ Forall (fun url => has_scheme url = true) urls
       /\ fs a' = fs fresh_app /\ session a' = session fresh_app
       /\ (10 < length lines ->
           ui a' = ui fresh_app ++ [UiWarning
             "You have entered more than 10 URLs. Only the first 10 will be processed."])
       /\ (length lines <= 10 -> ui a' = ui fresh_app).
Proof.
  split; [discriminate|].
  apply (paste_handler_caps_at_ten
           ("a.com" +:+ PyStr.chr 10 +:+ "  " +:+ PyStr.chr 10 +:+ " b.org ") [] fresh_app).
  discriminate.
Defined.

(** Three pasted lines, the second of spaces only: two addresses. *)
Example paste_three_lines :
  fst (paste_handler ("a.com" +:+ PyStr.chr 10 +:+ "  " +:+ PyStr.chr 10 +:+ " b.org ")
         [] fresh_app)
  = Return ["https://a.com"; "https://b.org"].
Proof. reflexivity. Qed.

(** Twelve pasted lines: the first ten go on, and the warning is shown. *)
Example paste_twelve_lines :
  let text := PyStr.join (PyStr.chr 10)
                (map (fun n => PyStr.str_of_nat n +:+ ".com") (seq 1 12)) in
  let run := paste_handler text [] fresh_app in
  fst run = Return (map (fun n => "https://" +:+ PyStr.str_of_nat n +:+ ".com") (seq 1 10))
  /\ ui (snd run)
     = [UiWarning "You have entered more than 10 URLs. Only the first 10 will be processed."].
Proof. split; vm_compute; reflexivity. Qed.

(** What the upload handler returns when it returns. *)
Lemma csv_upload_handler_urls (uploaded_file : option (outcome dataframe))
    (a a' : app_state) (urls : list string) :
  csv_upload_handler uploaded_file a = (Return urls, a') ->
  (urls = [] \/ exists cells, urls = map (fun url => "https://" +:+ url) cells)
  /\ fs a' = fs a /\ session a' = session a.
Proof.
  unfold csv_upload_handler, bind, modify, ret, raise.
  destruct uploaded_file as [[df|e]|].
  - destruct (df_column "name" df) as [cells|]; intros H; injection H as <- <-; eauto.
  - destruct (exc_is_Exception e); intros H; [|discriminate]. injection H as <- <-. auto.
  - intros H. injection H as <- <-. auto.
Qed.

(** X13: every address that the input area hands on, from the upload or
    from the pasted text, starts with [http://] or [https://], and so has a
    screenshot path for every task index: the naming step of a capture task
    cannot fail on it.  The input area touches neither the file system nor
    the session. *)
Theorem input_addresses_can_be_named (uploaded_file : option (outcome dataframe))
    (url_input : string) (a a' : app_state) (urls : list string) :
  input_area uploaded_file url_input a = (Return urls, a') ->
  Forall (fun url => has_scheme url = true
                     /\ forall index, exists path, screenshot_path url index = Some path)
    urls
  /\ fs a' = fs a /\ session a' = session a.
Proof.
  unfold input_area. intros H. apply bind_returns in H.
  destruct H as (urls0 & a0 & Hcsv & Hpaste).
  apply csv_upload_handler_urls in Hcsv. destruct Hcsv as (Hurls0 & Hfs0 & Hss0).
  destruct (paste_handler_run url_input urls0 a0) as (a1 & Hrun & Hfs1 & Hss1 & _).
  rewrite Hrun in Hpaste. injection Hpaste as <- <-.
  split; [|rewrite Hfs1, Hss1; auto].
  assert (Hscheme : Forall (fun url => has_scheme url = true)
                      (if PyStr.truthy url_input
                       then add_scheme (firstn 10 (pasted_lines url_input))
                       else urls0)).
  { destruct (PyStr.truthy url_input); [apply add_scheme_spec|].
    destruct Hurls0 as [->|[cells ->]]; [constructor | apply csv_urls_have_scheme]. }
  eapply List.Forall_impl; [|exact Hscheme]. intros url Hurl. split; [exact Hurl|].
  intros index. destruct (has_scheme_split url Hurl) as [rest Hrest].
  unfold screenshot_path, safe_name. rewrite Hrest. eauto.
Qed.

Lemma input_addresses_can_be_named_witness :
  input_area (Some (Return [("name", [Some "a.com"; None; Some "http://b.org"])])) ""
    fresh_app
  = (Return ["https://a.com"; "https://http://b.org"],
     snd (input_area (Some (Return [("name", [Some "a.com"; None; Some "http://b.org"])]))
            "" fresh_app))
  /\ Forall (fun url => has_scheme url = true
                        /\ forall index, exists path, screenshot_path url index = Some path)
       ["https://a.com"; "https://http://b.org"]
  /\ fs (snd (input_area (Some (Return [("name", [Some "a.com"; None; Some "http://b.org"])]))
                "" fresh_app)) = fs fresh_app
  /\ session (snd (input_area
                     (Some (Return [("name", [Some "a.com"; None; Some "http://b.org"])]))
                     "" fresh_app)) = session fresh_app.
Proof.
  split; [reflexivity|].
  apply (input_addresses_can_be_named
           (Some (Return [("name", [Some "a.com"; None; Some "http://b.org"])])) ""
           fresh_app).
  reflexivity.
Defined.

(** X14: a non-empty pasted text replaces whatever the upload gave: the
    addresses handed on are those that the text gives without any upload,
    and a text of white space only (spaces, tabs, line feeds and the like)
    leaves no address at all, whatever was uploaded; with an empty text the
    addresses of the upload go through unchanged. *)
Theorem pasted_text_replaces_upload (uploaded_file : option (outcome dataframe))
    (url_input : string) (a a0 : app_state) (from_upload : list string) :
  csv_upload_handler uploaded_file a = (Return from_upload, a0) ->
  (url_input = "" -> fst (input_area uploaded_file url_input a) = Return from_upload)
  /\ (url_input <> "" ->
      fst (input_area uploaded_file url_input a) = fst (input_area None url_input a))
  /\ (url_input <> "" -> blank url_input ->
      fst (input_area uploaded_file url_input a) = Return []).
Proof.
  intros Hcsv.
  assert (Hrun : forall old a1,
            fst (paste_handler url_input old a1)
            = Return (if PyStr.truthy url_input
                      then add_scheme (firstn 10 (pasted_lines url_input))
                      else old)).
  { intros old a1. destruct (paste_handler_run url_input old a1) as (a2 & -> & _).
    reflexivity. }
  assert (Harea : fst (input_area uploaded_file url_input a)
                  = fst (paste_handler url_input from_upload a0)).
  { unfold input_area, bind. rewrite Hcsv. reflexivity. }
  rewrite Harea, Hrun.
  split; [intros ->; reflexivity|].
  assert (Htruthy : url_input <> "" -> PyStr.truthy url_input = true)
    by (destruct url_input; [congruence | reflexivity]).
  split.
  - intros H. rewrite (Htruthy H).
    change (input_area None url_input a) with (paste_handler url_input [] a).
    rewrite Hrun, (Htruthy H). reflexivity.
  - intros H Hblank. rewrite (Htruthy H), (pasted_lines_blank url_input Hblank).
    reflexivity.
Qed.

Lemma pasted_text_replaces_upload_witness :
  csv_upload_handler (Some (Return [("name", [Some "a.com"])])) fresh_app
  = (Return ["https://a.com"],
     snd (csv_upload_handler (Some (Return [("name", [Some "a.com"])])) fresh_app))
  /\ "  " +:+ PyStr.chr 10 +:+ PyStr.chr 9 <> ""
  /\ blank ("  " +:+ PyStr.chr 10 +:+ PyStr.chr 9)
  /\ fst (input_area (Some (Return [("name", [Some "a.com"])]))
            ("  " +:+ PyStr.chr 10 +:+ PyStr.chr 9) fresh_app)
     = Return [].
Proof.
  assert (Hblank : blank ("  " +:+ PyStr.chr 10 +:+ PyStr.chr 9)).
  { apply (blank_space " "); [vm_compute; tauto|].
    apply (blank_space " "); [vm_compute; tauto|].
    apply (blank_space (PyStr.chr 10)); [vm_compute; tauto|].
    apply (blank_space (PyStr.chr 9) ""); [vm_compute; tauto|].
    apply blank_empty. }
  split; [reflexivity|]. split; [discriminate|]. split; [exact Hblank|].
  apply (pasted_text_replaces_upload (Some (Return [("name", [Some "a.com"])]))
           ("  " +:+ PyStr.chr 10 +:+ PyStr.chr 9) fresh_app
           (snd (csv_upload_handler (Some (Return [("name", [Some "a.com"])])) fresh_app))
           ["https://a.com"]);
    [reflexivity | discriminate | exact Hblank].
Defined.

(** Blank text pasted over an upload leaves no address. *)
Example blank_text_empties_upload :
  fst (input_area (Some (Return [("name", [Some "a.com"])])) "  " fresh_app) = Return [].
Proof. reflexivity. Qed.

(** Without pasted text the upload goes through. *)
Example empty_text_keeps_upload :
  fst (input_area (Some (Return [("name", [Some "a.com"])])) "" fresh_app)
  = Return ["https://a.com"].
Proof. reflexivity. Qed.

(* ===================================================================== *)
(** * Further properties of the settling strategy *)
(* ===================================================================== *)

Lemma scroll_loop_growing {W : Type} (b : Browser W) (pause_time : Q) (n : nat) :
  grows b ->
  evaluate_succeeds b ->
  forall (last : Z) (s : task_state W),
    last = dom_scrollHeight b (world s) ->
    exists its s',
      scroll_loop b pause_time n last s = (Return tt, s')
      /\ trace s' = trace s ++ flat_map (iteration_trace pause_time) its
      /\ length its = n
      /\ (last + Z.of_nat n <= dom_scrollHeight b (world s'))%Z.
Proof.
  intros (Hgate_keeps & Hscroll_keeps & Hgrow) Hgate.
  induction n as [|n IH]; intros last s Hlast.
  - exists [], s. simpl. rewrite app_nil_r. repeat split; auto. lia.
  - simpl scroll_loop. unfold bind at 1. unfold page_evaluate at 1.
    pose proof (Hgate_keeps (world s)) as K1.
    destruct (Hgate (world s)) as [w1 Hw1]. rewrite Hw1 in *. simpl in K1. simpl.
    unfold bind at 1. unfold asyncio_sleep at 1. simpl.
    unfold bind at 1. unfold page_evaluate at 1. simpl.
    set (w2 := elapse b pause_time (dom_scrollBy b 0 (dom_scrollHeight b w1) w1)).
    pose proof (Hgate_keeps w2) as K2.
    destruct (Hgate w2) as [w3 Hw3]. rewrite Hw3 in *. simpl in K2. simpl.
    assert (Hup : (last < dom_scrollHeight b w3)%Z).
    { rewrite K2. subst w2. rewrite Hlast, <- K1, <- (Hscroll_keeps 0%Z (dom_scrollHeight b w1) w1) at 1.
      apply Hgrow. }
    destruct (Z.eqb_spec (dom_scrollHeight b w3) last) as [E|_]; [lia|].
    match goal with |- context [scroll_loop b pause_time n ?h ?s1] =>
      destruct (IH h s1 eq_refl) as (its & s' & Hrun & Htr & Hlen & Hh)
    end.
    exists ((dom_scrollHeight b w1, dom_scrollHeight b w3) :: its), s'.
    split; [exact Hrun|]. simpl in *. rewrite Htr, Hlen. repeat split; [|lia].
    rewrite <- !app_assoc. reflexivity.
Qed.

(** X15: on a page that gets higher during every wait (and whose height
    nothing else changes), with [page.evaluate] going through, the settling
    strategy uses all of its 30 passes, so it sleeps 30 times 1 second, and
    the page ends at least 30 higher than it was first measured. *)
Theorem settling_uses_all_passes_on_growing_page {W : Type} (b : Browser W)
    (s : task_state W) :
  grows b ->
  evaluate_succeeds b ->
  exists h0 its s',
    scroll_to_bottom b default_pause_time default_max_scrolls s = (Return tt, s')
    /\ trace s' = trace s ++ settle_trace 1 h0 its
    /\ length its = 30
    /\ (h0 + 30 <= dom_scrollHeight b (world s'))%Z.
Proof.
  intros Hgrows Hgate.
  assert (Hany : forall max_scrolls,
            exists h0 its s',
              scroll_to_bottom b default_pause_time max_scrolls s = (Return tt, s')
              /\ trace s' = trace s ++ settle_trace default_pause_time h0 its
              /\ length its = max_scrolls
              /\ (h0 + Z.of_nat max_scrolls <= dom_scrollHeight b (world s'))%Z).
  { intros max_scrolls. unfold scroll_to_bottom, bind, page_evaluate.
    destruct (Hgate (world s)) as [w1 Hw1]. rewrite Hw1. simpl.
    match goal with |- context [scroll_loop b ?p max_scrolls ?h ?s1] =>
      destruct (scroll_loop_growing b default_pause_time max_scrolls Hgrows Hgate
                  h s1 eq_refl) as (its & s' & Hrun & Htr & Hlen & Hh)
    end.
    exists (dom_scrollHeight b w1), its, s'. split; [exact Hrun|].
    simpl in *. rewrite Htr. repeat split; auto.
    rewrite <- app_assoc. reflexivity. }
  exact (Hany default_max_scrolls).
Qed.

Lemma settling_uses_all_passes_on_growing_page_witness :
  grows endless_browser
  /\ evaluate_succeeds endless_browser
  /\ exists h0 its s',
       scroll_to_bottom endless_browser default_pause_time default_max_scrolls
         (start tall_page) = (Return tt, s')
       /\ trace s' = trace (start tall_page) ++ settle_trace 1 h0 its
       /\ length its = 30
       /\ (h0 + 30 <= dom_scrollHeight endless_browser (world s'))%Z.
Proof.
  assert (H1 : grows endless_browser).
  { split; [|split].
    - intros w. reflexivity.
    - intros dx dy w. reflexivity.
    - intros t w. simpl. lia. }
  assert (H2 : evaluate_succeeds endless_browser).
  { intros w. exists w. reflexivity. }
  split; [exact H1|]. split; [exact H2|].
  apply (settling_uses_all_passes_on_growing_page endless_browser (start tall_page));
    assumption.
Defined.

(* ===================================================================== *)
(** * Further properties of the start of the program *)
(* ===================================================================== *)

Lemma directories_lookup (disk : gmap string node) (path : string) :
  directories disk !! path
  = match disk !! path with
    | Some (Directory entries) => Some entries
    | _ => None
    end.
Proof.
  unfold directories. rewrite lookup_omap.
  destruct (disk !! path) as [[|entries]|]; reflexivity.
Qed.




(** A start in an empty working directory makes the two directories, and
    the handlers then run on [fresh_app]'s file system. *)
Example startup_in_empty_directory :
  exists disk1,
    startup ∅ = (Return tt, disk1) /\ directories disk1 = fs fresh_app.
Proof.
  eexists. split; [reflexivity|]. apply map_eq. intros path.
  rewrite directories_lookup. unfold fresh_app. simpl fs.
  destruct (decide (path = ZIP_DIR)) as [->|Hz]; [reflexivity|].
  destruct (decide (path = SCREENSHOT_DIR)) as [->|Hs]; [reflexivity|].
  rewrite !lookup_insert_ne, !lookup_empty by congruence. reflexivity.
Qed.
